(** * llm-mux: a shallow embedding of the gateway's core and its specification

    The development follows the Go sources:
    - [ToolID], [Builder]: the response builder of package [ir]
      (tool-call id conversion, accessors and content-part builders);
    - [Preprocess]: the request passes of package [preprocess]
      (limits, provider defaults, thinking normalisation);
    - [ThinkingUtil]: [NormalizeThinkingBudget] of package [util];
    - [StreamUtil]: the size-classed [BufferPool];
    - [Families]: the model-family table and [ResolveModelFamily];
    - [Provider]: [updateAuthState] of the asynchronous result worker.

    Functions and declarations that the sources at hand call but do not
    contain are parameters (the classes [BuilderHelpers], [Registry],
    [IRHelpers], [Rand], [ManagerHelpers]); what a property needs of them is
    a hypothesis of its section.  [Scenario] and [ProviderScenario] give
    instances to run the definitions on.

    Go's [int] is a 64-bit and [int32] a 32-bit two's complement integer; both
    are embedded in [Z] with the wrap-around written out where the code does
    arithmetic or converts.  Go strings are byte strings and are embedded as
    [string].  Maps are [gmap]s. *)

From Stdlib Require Import ZArith Ascii String List Lia Bool.
From stdpp Require Import base option list gmap strings sorting.

Local Open Scope Z_scope.
Set Warnings "-register-all".

(** ** Part I: the program *)

(** *** Go runtime conventions shared by the modules *)
Module Go.

(** The outcome of a Go expression that may panic (index out of range,
    [rand.Intn] on a non-positive bound). *)
Inductive outcome (A : Type) : Type :=
| Ok (a : A)
| Panic.
Arguments Ok {A} a.
Arguments Panic {A}.

Definition bind {A B} (m : outcome A) (k : A -> outcome B) : outcome B :=
  match m with
  | Ok a => k a
  | Panic => Panic
  end.

(** [len(l)] of a slice. *)
Definition len {A} (l : list A) : Z := Z.of_nat (length l).

(** [l[i]] on a slice: panics outside [0 <= i < len(l)]. *)
Definition index {A} (l : list A) (i : Z) : outcome A :=
  if (0 <=? i) && (i <? len l) then
    match nth_error l (Z.to_nat i) with
    | Some a => Ok a
    | None => Panic
    end
  else Panic.

(** Conversion to [int] (64 bit) and to [int32], two's complement. *)
Definition wrap (bits : Z) (x : Z) : Z :=
  (x + 2 ^ (bits - 1)) mod 2 ^ bits - 2 ^ (bits - 1).
Definition int64 (x : Z) : Z := wrap 64 x.
Definition int32 (x : Z) : Z := wrap 32 x.

(** [len(s)] of a string, in bytes. *)
Definition slen (s : string) : Z := Z.of_nat (String.length s).

(** [s[i] == c] once the length guard has been passed. *)
Definition byteIs (s : string) (i : nat) (c : ascii) : bool :=
  match String.get i s with
  | Some a => Ascii.eqb a c
  | None => false
  end.

(** [s[i:]]. *)
Definition sliceFrom (s : string) (i : nat) : string :=
  String.substring i (String.length s - i) s.

(** [strings.HasSuffix(s, suffix)]:
    [len(s) >= len(suffix) && s[len(s)-len(suffix):] == suffix]. *)
Definition HasSuffix (s suffix : string) : bool :=
  (String.length suffix <=? String.length s)%nat
  && String.eqb (sliceFrom s (String.length s - String.length suffix)) suffix.

End Go.

Declare Scope go_scope.
Notation "'let*' x ':=' m 'in' k" := (Go.bind m (fun x => k))
  (at level 10, x name, m at level 100, k at level 200) : go_scope.

(** *** Package ir: tool-call ids *)
Module ToolID.
Import Go.

(** [toClaudeToolID] converts a tool call id to Claude format ([toolu_...]). *)
Definition toClaudeToolID (id : string) : string :=
  if (6 <? slen id)
     && byteIs id 0 "t" && byteIs id 1 "o" && byteIs id 2 "o"
     && byteIs id 3 "l" && byteIs id 4 "u" && byteIs id 5 "_"
  then id
  else if (5 <? slen id)
     && byteIs id 0 "c" && byteIs id 1 "a" && byteIs id 2 "l"
     && byteIs id 3 "l" && byteIs id 4 "_"
  then "toolu_" +:+ sliceFrom id 5
  else "toolu_" +:+ id.

(** The conversion rule in the words of the specification: a leading [call_]
    is replaced, a leading [toolu_] passes through, anything else is
    prefixed. *)
Definition toolIDRule (id : string) : string :=
  if String.prefix "call_" id then "toolu_" +:+ sliceFrom id 5
  else if String.prefix "toolu_" id then id
  else "toolu_" +:+ id.

End ToolID.

(** *** Package ir: messages and the response builder *)
Module Builder.
Import Go ToolID.
Local Open Scope go_scope.

(** [type ContentType string] with its constants. *)
Definition ContentType := string.
Definition ContentTypeText : ContentType := "text".
Definition ContentTypeReasoning : ContentType := "reasoning".
Definition ContentTypeImage : ContentType := "image".
Definition ContentTypeFile : ContentType := "file".
Definition ContentTypeToolResult : ContentType := "tool_result".
Definition ContentTypeExecutableCode : ContentType := "executable_code".
Definition ContentTypeCodeResult : ContentType := "code_result".

Record ImagePart := { MimeType : string; Data : string; URL : string }.

Record FilePart :=
  { FileID : string; FileURL : string; Filename : string; FileData : string }.

Record ToolResultPart :=
  { ToolCallID : string; Result : string;
    Images : list ImagePart; Files : list FilePart }.

Record CodeExecutionPart :=
  { Language : string; Code : string; Outcome : string; Output : string }.

(** A pointer field is an [option]: [None] is [nil]. *)
Record ContentPart :=
  { Type_ : ContentType;
    Text : string;
    Reasoning : string;
    ThoughtSignature : string;
    Image : option ImagePart;
    File : option FilePart;
    ToolResult : option ToolResultPart;
    CodeExecution : option CodeExecutionPart }.

Record ToolCall :=
  { ID : string; Name : string; Args : string;
    PartialArgs : string; tcThoughtSignature : string }.

Definition Role := string.

Record Message :=
  { Role_ : Role; Content : list ContentPart; ToolCalls : list ToolCall }.

Record Usage :=
  { PromptTokens : Z; CompletionTokens : Z; TotalTokens : Z }.

(** The values a builder puts into [[]interface{}] and
    [map[string]interface{}]: an object is the list of its entries as the
    literal writes them. *)
Inductive JValue : Type :=
| JNull
| JBool (b : bool)
| JNumber (n : Z)
| JString (s : string)
| JArray (items : list JValue)
| JObject (fields : list (string * JValue)).

(** Functions of package [ir] and of [encoding/json] that the builder calls
    and whose bodies are outside the sources at hand. *)
Class BuilderHelpers :=
  { CombineTextParts : Message -> string;
    CombineReasoningParts : Message -> string;
    ParseToolCallArgs : string -> JValue;
    (** [json.Unmarshal([]byte(s), &v) == nil] gives [Some v]. *)
    jsonUnmarshal : string -> option JValue }.

Record ResponseBuilder :=
  { messages : list Message; usage : option Usage; model : string }.

Definition NewResponseBuilder (messages : list Message) (usage : option Usage)
    (model : string) : ResponseBuilder :=
  {| messages := messages; usage := usage; model := model |}.

Section Methods.
Context `{BuilderHelpers}.

(** [GetLastMessage] returns the last message or nil. *)
Definition GetLastMessage (b : ResponseBuilder) : outcome (option Message) :=
  if len (messages b) =? 0 then Ok None
  else let* m := index (messages b) (len (messages b) - 1) in Ok (Some m).

Definition HasContent (b : ResponseBuilder) : outcome bool :=
  let* msg := GetLastMessage b in
  Ok match msg with
     | Some m => (0 <? len (Content m)) || (0 <? len (ToolCalls m))
     | None => false
     end.

Definition GetTextContent (b : ResponseBuilder) : outcome string :=
  let* msg := GetLastMessage b in
  Ok match msg with
     | Some m => CombineTextParts m
     | None => ""
     end.

Definition GetReasoningContent (b : ResponseBuilder) : outcome string :=
  let* msg := GetLastMessage b in
  Ok match msg with
     | Some m => CombineReasoningParts m
     | None => ""
     end.

(** The nil slice and the empty slice are both [[]]. *)
Definition GetToolCalls (b : ResponseBuilder) : outcome (list ToolCall) :=
  let* msg := GetLastMessage b in
  Ok match msg with
     | Some m => ToolCalls m
     | None => []
     end.

Definition HasToolCalls (b : ResponseBuilder) : outcome bool :=
  let* tcs := GetToolCalls b in Ok (0 <? len tcs).

Definition DetermineFinishReason (b : ResponseBuilder) : outcome string :=
  let* tcs := GetToolCalls b in
  Ok (if 0 <? len tcs then "tool_calls" else "stop").

Definition openAIToolCall (tc : ToolCall) : JValue :=
  JObject [("id", JString (ID tc)); ("type", JString "function");
           ("function", JObject [("name", JString (Name tc));
                                 ("arguments", JString (Args tc))])].

Definition BuildOpenAIToolCalls (b : ResponseBuilder) : outcome (list JValue) :=
  let* toolCalls := GetToolCalls b in
  Ok (if len toolCalls =? 0 then [] else map openAIToolCall toolCalls).

Definition claudeThinking (part : ContentPart) : list JValue :=
  if String.eqb (Type_ part) ContentTypeReasoning
     && negb (String.eqb (Reasoning part) "")
  then [JObject [("type", JString "thinking");
                 ("thinking", JString (Reasoning part))]]
  else [].

Definition claudeText (part : ContentPart) : list JValue :=
  if String.eqb (Type_ part) ContentTypeText && negb (String.eqb (Text part) "")
  then [JObject [("type", JString "text"); ("text", JString (Text part))]]
  else [].

Definition claudeToolUse (tc : ToolCall) : JValue :=
  let input :=
    if negb (String.eqb (Args tc) "") && negb (String.eqb (Args tc) "{}") then
      match jsonUnmarshal (Args tc) with
      | Some argsObj => argsObj
      | None => JObject []
      end
    else JObject [] in
  JObject [("type", JString "tool_use"); ("id", JString (toClaudeToolID (ID tc)));
           ("name", JString (Name tc)); ("input", input)].

(** [BuildClaudeContentParts]: thinking parts, then text parts, then tool
    calls. *)
Definition BuildClaudeContentParts (b : ResponseBuilder) : outcome (list JValue) :=
  let* msg := GetLastMessage b in
  Ok match msg with
     | None => []
     | Some m =>
         flat_map claudeThinking (Content m)
         ++ flat_map claudeText (Content m)
         ++ map claudeToolUse (ToolCalls m)
     end.

Definition withSignature (part : ContentPart) (fields : list (string * JValue))
    : list (string * JValue) :=
  if negb (String.eqb (ThoughtSignature part) "")
  then fields ++ [("thoughtSignature", JString (ThoughtSignature part))]
  else fields.

Definition geminiPart (part : ContentPart) : list JValue :=
  if String.eqb (Type_ part) ContentTypeReasoning then
    if negb (String.eqb (Reasoning part) "") then
      [JObject (withSignature part
                  [("text", JString (Reasoning part)); ("thought", JBool true)])]
    else []
  else if String.eqb (Type_ part) ContentTypeText then
    if negb (String.eqb (Text part) "") then
      [JObject (withSignature part [("text", JString (Text part))])]
    else []
  else if String.eqb (Type_ part) ContentTypeImage then
    match Image part with
    | Some img =>
        if negb (String.eqb (Data img) "") then
          [JObject [("inlineData",
                     JObject [("mimeType", JString (MimeType img));
                              ("data", JString (Data img))])]]
        else []
    | None => []
    end
  else if String.eqb (Type_ part) ContentTypeExecutableCode then
    match CodeExecution part with
    | Some ce =>
        if negb (String.eqb (Code ce) "") then
          [JObject [("executableCode",
                     JObject [("language", JString (Language ce));
                              ("code", JString (Code ce))])]]
        else []
    | None => []
    end
  else if String.eqb (Type_ part) ContentTypeCodeResult then
    match CodeExecution part with
    | Some ce =>
        [JObject [("codeExecutionResult",
                   JObject [("outcome", JString (Outcome ce));
                            ("output", JString (Output ce))])]]
    | None => []
    end
  else [].

Definition geminiFunctionCall (tc : ToolCall) : JValue :=
  JObject [("functionCall",
            JObject [("name", JString (Name tc));
                     ("args", ParseToolCallArgs (Args tc))])].

(** [BuildGeminiContentParts]: the content parts in their order, then the
    tool calls. *)
Definition BuildGeminiContentParts (b : ResponseBuilder) : outcome (list JValue) :=
  let* msg := GetLastMessage b in
  Ok match msg with
     | None => []
     | Some m => flat_map geminiPart (Content m) ++ map geminiFunctionCall (ToolCalls m)
     end.

Definition BuildUsageMap (b : ResponseBuilder) : option JValue :=
  match usage b with
  | None => None
  | Some u =>
      Some (JObject [("prompt_tokens", JNumber (PromptTokens u));
                     ("completion_tokens", JNumber (CompletionTokens u));
                     ("total_tokens", JNumber (TotalTokens u))])
  end.

End Methods.
End Builder.

(** *** Package registry: model metadata *)
Module ModelRegistry.

(** Modelled from the spec: the declarations of [registry.ThinkingSupport]
    and [registry.ModelInfo] are outside the sources at hand.  Section 6 of
    the specification gives the fields; the passes below read them under
    these names. *)
Record ThinkingSupport :=
  { Min : Z; Max : Z; ZeroAllowed : bool; DynamicAllowed : bool }.

Record ModelInfo :=
  { OutputTokenLimit : Z;
    MaxCompletionTokens : Z;
    Thinking : option ThinkingSupport }.

(** [registry.GetGlobalRegistry().GetModelInfo]: the process-wide registry is
    a lookup from model id to metadata ([None] is [nil]). *)
Class Registry := { GetModelInfo : string -> option ModelInfo }.

End ModelRegistry.

(** *** Package preprocess *)
Module Preprocess.
Import Go ModelRegistry.

Record ThinkingConfig :=
  { IncludeThoughts : bool;
    (** [*int32]: [None] is [nil] *)
    ThinkingBudget : option Z }.

Record ToolDefinition :=
  { Name : string; Description : string; Parameters : Builder.JValue }.

(** The request as the passes see it: the fields they read or write, and the
    messages and tools they carry along.  [*int] fields are [option Z]. *)
Record UnifiedChatRequest :=
  { Model : string;
    Messages : list Builder.Message;
    Tools : list ToolDefinition;
    MaxTokens : option Z;
    CandidateCount : option Z;
    Thinking : option ThinkingConfig }.

Definition setModel (req : UnifiedChatRequest) (m : string) :=
  {| Model := m; Messages := Messages req; Tools := Tools req;
     MaxTokens := MaxTokens req; CandidateCount := CandidateCount req;
     Thinking := Thinking req |}.

Definition setTools (req : UnifiedChatRequest) (ts : list ToolDefinition) :=
  {| Model := Model req; Messages := Messages req; Tools := ts;
     MaxTokens := MaxTokens req; CandidateCount := CandidateCount req;
     Thinking := Thinking req |}.

Definition setMaxTokens (req : UnifiedChatRequest) (v : option Z) :=
  {| Model := Model req; Messages := Messages req; Tools := Tools req;
     MaxTokens := v; CandidateCount := CandidateCount req;
     Thinking := Thinking req |}.

Definition setCandidateCount (req : UnifiedChatRequest) (v : option Z) :=
  {| Model := Model req; Messages := Messages req; Tools := Tools req;
     MaxTokens := MaxTokens req; CandidateCount := v;
     Thinking := Thinking req |}.

Definition setThinking (req : UnifiedChatRequest) (t : option ThinkingConfig) :=
  {| Model := Model req; Messages := Messages req; Tools := Tools req;
     MaxTokens := MaxTokens req; CandidateCount := CandidateCount req;
     Thinking := t |}.

(** What package [ir] provides to the passes; the bodies are outside the
    sources at hand. *)
Class IRHelpers :=
  { IsClaudeModel : string -> bool;
    ClaudeDefaultMaxTokens : Z;
    (** the rewriting [ir.CleanToolsForAntigravityClaude] applies to the
        tool definitions *)
    cleanTools : list ToolDefinition -> list ToolDefinition }.

Section Passes.
Context `{Registry} `{IRHelpers}.

(** Modelled from the spec: [ir.CleanToolsForAntigravityClaude] is outside
    the sources at hand; by its name and its call site it rewrites the tool
    definitions of the request in place and leaves the other fields. *)
Definition CleanToolsForAntigravityClaude (req : UnifiedChatRequest)
    : UnifiedChatRequest :=
  setTools req (cleanTools (Tools req)).

(** limits.go *)
Definition clampMaxTokens (req : UnifiedChatRequest) (info : option ModelInfo)
    : UnifiedChatRequest :=
  match MaxTokens req with
  | None => req
  | Some maxTokens =>
      match info with
      | None => req
      | Some i =>
          let limit := OutputTokenLimit i in
          let limit := if limit =? 0 then MaxCompletionTokens i else limit in
          if (0 <? limit) && (limit <? maxTokens)
          then setMaxTokens req (Some limit)
          else req
      end
  end.

Definition clampCandidateCount (req : UnifiedChatRequest) (info : option ModelInfo)
    : UnifiedChatRequest :=
  match CandidateCount req with
  | None => req
  | Some c =>
      let c := if c <? 1 then 1 else c in
      let maxCandidates := 8 in
      let c := if maxCandidates <? c then maxCandidates else c in
      setCandidateCount req (Some c)
  end.

Definition applyLimits (req : UnifiedChatRequest) (info : option ModelInfo)
    : UnifiedChatRequest :=
  clampCandidateCount (clampMaxTokens req info) info.

(** defaults.go *)
Definition applyClaudeDefaults (req : UnifiedChatRequest) : UnifiedChatRequest :=
  if negb (IsClaudeModel (Model req)) then req
  else
    let req :=
      match MaxTokens req with
      | None => setMaxTokens req (Some ClaudeDefaultMaxTokens)
      | Some m =>
          if m =? 0 then setMaxTokens req (Some ClaudeDefaultMaxTokens) else req
      end in
    CleanToolsForAntigravityClaude req.

Definition applyProviderDefaults (req : UnifiedChatRequest) (info : option ModelInfo)
    : UnifiedChatRequest :=
  applyClaudeDefaults req.

(** thinking.go *)
Definition promoteToThinkingModel (req : UnifiedChatRequest) (info : option ModelInfo)
    : UnifiedChatRequest * bool :=
  match Thinking req with
  | None => (req, false)
  | Some th =>
      if negb (IsClaudeModel (Model req)) then (req, false)
      else if HasSuffix (Model req) "-thinking" then
        let budget :=
          match ThinkingBudget th with
          | None => Some 1024
          | Some b => Some b
          end in
        (setThinking req (Some {| IncludeThoughts := true; ThinkingBudget := budget |}),
         false)
      else
        let thinkingModel := Model req +:+ "-thinking" in
        match GetModelInfo thinkingModel with
        | Some _ => (setModel req thinkingModel, true)
        | None => (req, false)
        end
  end.

(** The arithmetic of [normalizeThinkingBudget] on the budget, as [int]. *)
Definition normalizeBudget (ts : ThinkingSupport) (budget : Z) : Z :=
  let budget :=
    if (budget =? -1) && negb (DynamicAllowed ts)
    then Z.quot (int64 (Min ts + Max ts)) 2
    else budget in
  let budget :=
    if (budget =? 0) && negb (ZeroAllowed ts) then Min ts else budget in
  if 0 <? budget then
    let budget := if budget <? Min ts then Min ts else budget in
    if Max ts <? budget then Max ts else budget
  else budget.

Definition normalizeThinkingBudget (req : UnifiedChatRequest) (info : option ModelInfo)
    : UnifiedChatRequest :=
  match Thinking req with
  | None => req
  | Some th =>
      match ThinkingBudget th with
      | None => req
      | Some b =>
          match info with
          | None => req
          | Some i =>
              match ModelRegistry.Thinking i with
              | None => req
              | Some ts =>
                  setThinking req
                    (Some {| IncludeThoughts := IncludeThoughts th;
                             ThinkingBudget := Some (int32 (normalizeBudget ts b)) |})
              end
          end
      end
  end.

Definition applyThinkingNormalization (req : UnifiedChatRequest)
    (info : option ModelInfo) : UnifiedChatRequest :=
  normalizeThinkingBudget (fst (promoteToThinkingModel req info)) info.

(** Modelled from the spec: the entry point that sequences the passes is
    outside the sources at hand.  Section 4.6.4 orders them (limits, then
    defaults, then thinking normalisation) on a parsed request; the three pass
    functions take the registry entry of the request's model, looked up once
    on entry. *)
Definition Apply (req : UnifiedChatRequest) : UnifiedChatRequest :=
  let info := GetModelInfo (Model req) in
  let req := applyLimits req info in
  let req := applyProviderDefaults req info in
  applyThinkingNormalization req info.

End Passes.
(** The passes read field by field: what each one leaves in the field it
    writes, as a function of what it reads. *)
Definition effectiveLimit (i : ModelInfo) : Z :=
  if OutputTokenLimit i =? 0 then MaxCompletionTokens i else OutputTokenLimit i.

Definition clampView (info : option ModelInfo) (mt : option Z) : option Z :=
  match mt, info with
  | Some v, Some i =>
      if (0 <? effectiveLimit i) && (effectiveLimit i <? v)
      then Some (effectiveLimit i) else Some v
  | _, _ => mt
  end.

Definition defaultView (defaultMax : Z) (mt : option Z) : option Z :=
  match mt with
  | None => Some defaultMax
  | Some v => if v =? 0 then Some defaultMax else Some v
  end.

Definition candidateCountView (cc : option Z) : option Z :=
  match cc with
  | None => None
  | Some c => let c := if c <? 1 then 1 else c in Some (if 8 <? c then 8 else c)
  end.

Definition promoteView (claude suffixed : bool) (th : option ThinkingConfig)
    : option ThinkingConfig :=
  match th with
  | Some t =>
      if claude && suffixed then
        Some {| IncludeThoughts := true;
                ThinkingBudget := Some (default 1024 (ThinkingBudget t)) |}
      else th
  | None => None
  end.

Definition budgetView (info : option ModelInfo) (th : option ThinkingConfig)
    : option ThinkingConfig :=
  match th, info with
  | Some t, Some i =>
      match ThinkingBudget t, ModelRegistry.Thinking i with
      | Some b, Some ts =>
          Some {| IncludeThoughts := IncludeThoughts t;
                  ThinkingBudget := Some (int32 (normalizeBudget ts b)) |}
      | _, _ => th
      end
  | _, _ => th
  end.

(** The request is one [promoteToThinkingModel] renames. *)
Definition willPromote `{Registry} `{IRHelpers} (x : UnifiedChatRequest) : bool :=
  match Thinking x with
  | Some _ =>
      IsClaudeModel (Model x) && negb (HasSuffix (Model x) "-thinking")
      && match GetModelInfo (Model x +:+ "-thinking") with
         | Some _ => true
         | None => false
         end
  | None => false
  end.

(** A thinking range as registries declare it: [0 <= min <= max], within
    [int32]. *)
Definition saneRange (ts : ThinkingSupport) : Prop :=
  0 <= Min ts <= Max ts /\ Max ts < 2 ^ 31.

End Preprocess.

(** *** Package util: the thinking-budget helper *)
Module ThinkingUtil.
Import Go ModelRegistry.

(** [strings.ToLower] on the ASCII letters (model ids are ASCII). *)
Definition lowerByte (c : ascii) : ascii :=
  let n := nat_of_ascii c in
  if ((65 <=? n) && (n <=? 90))%nat then ascii_of_nat (n + 32) else c.

Fixpoint ToLower (s : string) : string :=
  match s with
  | EmptyString => EmptyString
  | String c s' => String (lowerByte c) (ToLower s')
  end.

Section Util.
Context `{Registry}.

(** [(found, min, max, zeroAllowed, dynamicAllowed)] is [Some] when found. *)
Definition thinkingRangeFromRegistry (model : string) : option ThinkingSupport :=
  if String.eqb model "" then None
  else
    let info :=
      match GetModelInfo (ToLower model) with
      | Some i => Some i
      | None => GetModelInfo model
      end in
    match info with
    | None => None
    | Some i => Thinking i
    end.

Definition NormalizeThinkingBudget (model : string) (budget : Z) : Z :=
  if budget =? -1 then
    match thinkingRangeFromRegistry model with
    | Some ts =>
        if DynamicAllowed ts then -1
        else
          let mid := Z.quot (int64 (Min ts + Max ts)) 2 in
          if (mid <=? 0) && ZeroAllowed ts then 0
          else if mid <=? 0 then Min ts
          else mid
    | None => -1
    end
  else
    match thinkingRangeFromRegistry model with
    | Some ts =>
        if budget =? 0 then (if ZeroAllowed ts then 0 else Min ts)
        else if budget <? Min ts then Min ts
        else if Max ts <? budget then Max ts
        else budget
    | None => budget
    end.

End Util.
End ThinkingUtil.

(** *** Package streamutil: the size-classed buffer pool *)
Module StreamUtil.
Import Go.

(** The slice behind a [*[]byte]: its bytes ([len] of them) and its
    capacity. *)
Record Buffer := { data : list Byte.byte; cap : Z }.

Definition make (capacity : Z) : Buffer := {| data := []; cap := capacity |}.

(** The slice cut back to length 0, capacity kept. *)
Definition truncate (b : Buffer) : Buffer := {| data := []; cap := cap b |}.

(** A [sync.Pool] of buffers: the items it currently holds and the capacity
    its [New] allocates. *)
Record Pool := { stored : list Buffer; newCap : Z }.

(** [sync.Pool.Get] "selects an arbitrary item from the Pool, removes it and
    returns it"; it "may choose to ignore the pool and treat it as empty",
    in which case [New] supplies the result.  The runtime's choice is the
    argument [pick]: the position of the item handed out, or [None]. *)
Definition poolGet (pick : option nat) (p : Pool) : Buffer * Pool :=
  match pick with
  | Some i =>
      match stored p !! i with
      | Some b => (b, {| stored := delete i (stored p); newCap := newCap p |})
      | None => (make (newCap p), p)
      end
  | None => (make (newCap p), p)
  end.

Definition poolPut (b : Buffer) (p : Pool) : Pool :=
  {| stored := b :: stored p; newCap := newCap p |}.

Record BufferPool := { small : Pool; medium : Pool; large : Pool }.

Definition smallBufferSize : Z := 4 * 1024.
Definition mediumBufferSize : Z := 64 * 1024.
Definition largeBufferSize : Z := 1024 * 1024.

Definition NewBufferPool : BufferPool :=
  {| small := {| stored := []; newCap := smallBufferSize |};
     medium := {| stored := []; newCap := mediumBufferSize |};
     large := {| stored := []; newCap := largeBufferSize |} |}.

(** [Get] returns a buffer of at least the requested size; the returned
    buffer has length 0 but sufficient capacity (so the source documents). *)
Definition Get (p : BufferPool) (size : Z) (pick : option nat)
    : Buffer * BufferPool :=
  if size <=? smallBufferSize then
    let '(b, s) := poolGet pick (small p) in
    (b, {| small := s; medium := medium p; large := large p |})
  else if size <=? mediumBufferSize then
    let '(b, m) := poolGet pick (medium p) in
    (b, {| small := small p; medium := m; large := large p |})
  else if size <=? largeBufferSize then
    let '(b, l) := poolGet pick (large p) in
    (b, {| small := small p; medium := medium p; large := l |})
  else (make size, p).

(** [Put] returns a buffer to the pool; [None] is the nil pointer.  The
    second component is the caller's buffer after the call. *)
Definition Put (p : BufferPool) (buf : option Buffer)
    : BufferPool * option Buffer :=
  match buf with
  | None => (p, None)
  | Some b =>
      let c := cap b in
      let b := truncate b in
      if c <=? smallBufferSize then
        ({| small := poolPut b (small p); medium := medium p; large := large p |},
         Some b)
      else if c <=? mediumBufferSize then
        ({| small := small p; medium := poolPut b (medium p); large := large p |},
         Some b)
      else if c <=? largeBufferSize then
        ({| small := small p; medium := medium p; large := poolPut b (large p) |},
         Some b)
      else (p, Some b)
  end.

(** The limit of the class a buffer of capacity [c] is stored in, if any. *)
Definition classOf (c : Z) : option Z :=
  if c <=? smallBufferSize then Some smallBufferSize
  else if c <=? mediumBufferSize then Some mediumBufferSize
  else if c <=? largeBufferSize then Some largeBufferSize
  else None.

(** The pool of the class with the given limit. *)
Definition classPool (p : BufferPool) (limit : Z) : option Pool :=
  if limit =? smallBufferSize then Some (small p)
  else if limit =? mediumBufferSize then Some (medium p)
  else if limit =? largeBufferSize then Some (large p)
  else None.

(** Every stored buffer has exactly the capacity of its class and length 0:
    what holds as long as only buffers handed out by [Get] come back. *)
Definition exactPool (limit : Z) (p : Pool) : Prop :=
  newCap p = limit /\ Forall (fun b => data b = [] /\ cap b = limit) (stored p).

Definition exact (p : BufferPool) : Prop :=
  exactPool smallBufferSize (small p)
  /\ exactPool mediumBufferSize (medium p)
  /\ exactPool largeBufferSize (large p).

End StreamUtil.

(** *** Package registry: model families *)
Module Families.
Import Go.
Local Open Scope go_scope.

Record FamilyMember := { Provider : string; ModelID : string; Priority : Z }.

Definition member (provider modelID : string) (priority : Z) : FamilyMember :=
  {| Provider := provider; ModelID := modelID; Priority := priority |}.

(** [ModelFamilies] maps canonical model names to their provider-specific
    variants. *)
Definition ModelFamiliesTable : list (string * list FamilyMember) :=
  [ ("claude-sonnet-4-5",
      [ member "kiro" "claude-sonnet-4-5" 1;
        member "antigravity" "gemini-claude-sonnet-4-5" 1;
        member "claude" "claude-sonnet-4-5-20250929" 2 ]);
    ("claude-sonnet-4-5-thinking",
      [ member "antigravity" "gemini-claude-sonnet-4-5-thinking" 1;
        member "claude" "claude-sonnet-4-5-thinking" 2 ]);
    ("claude-opus-4-5",
      [ member "kiro" "claude-opus-4-5-20251101" 1;
        member "claude" "claude-opus-4-5-20251101" 2 ]);
    ("claude-opus-4-5-thinking",
      [ member "antigravity" "gemini-claude-opus-4-5-thinking" 1;
        member "claude" "claude-opus-4-5-thinking" 2 ]);
    ("claude-sonnet-4",
      [ member "kiro" "claude-sonnet-4-20250514" 1;
        member "claude" "claude-sonnet-4-20250514" 2 ]);
    ("claude-3-7-sonnet",
      [ member "kiro" "claude-3-7-sonnet-20250219" 1;
        member "claude" "claude-3-7-sonnet-20250219" 2 ]);
    ("gemini-2.5-pro",
      [ member "gemini-cli" "gemini-2.5-pro" 1;
        member "antigravity" "gemini-2.5-pro" 1;
        member "aistudio" "gemini-2.5-pro" 2;
        member "gemini" "gemini-2.5-pro" 3 ]);
    ("gemini-2.5-flash",
      [ member "gemini-cli" "gemini-2.5-flash" 1;
        member "antigravity" "gemini-2.5-flash" 1;
        member "aistudio" "gemini-2.5-flash" 2;
        member "gemini" "gemini-2.5-flash" 3 ]);
    ("gemini-2.5-flash-lite",
      [ member "gemini-cli" "gemini-2.5-flash-lite" 1;
        member "antigravity" "gemini-2.5-flash-lite" 1;
        member "aistudio" "gemini-2.5-flash-lite" 2;
        member "gemini" "gemini-2.5-flash-lite" 3 ]);
    ("gemini-3-pro-preview",
      [ member "gemini-cli" "gemini-3-pro-preview" 1;
        member "antigravity" "gemini-3-pro-preview" 1;
        member "aistudio" "gemini-3-pro-preview" 2;
        member "gemini" "gemini-3-pro-preview" 3 ]);
    ("gpt-5.1-codex-max",
      [ member "github-copilot" "gpt-5.1-codex-max" 1;
        member "openai" "gpt-5.1-codex-max" 2 ]) ].

Definition ModelFamilies : gmap string (list FamilyMember) :=
  list_to_map ModelFamiliesTable.

(** [math/rand]: [Intn n] is the value the generator yields for bound [n]. *)
Class Rand := { Intn : Z -> Z }.

(** A generator that always yields 0, one of the values [rand.Intn] may
    return for any positive bound. *)
Definition alwaysFirst : Rand := {| Intn := fun _ => 0 |}.

(** [rand.Intn(n)] panics if [n <= 0]. *)
Definition randIntn `{Rand} (n : Z) : outcome Z :=
  if n <=? 0 then Panic else Ok (Intn n).

(** [availableSet[p] = true] for every available provider. *)
Definition makeAvailableSet (availableProviders : list string) : gmap string bool :=
  fold_left (fun s p => <[p := true]> s) availableProviders ∅.

(** [availableSet[provider]]: a missing key reads as [false]. *)
Definition inSet (availableSet : gmap string bool) (provider : string) : bool :=
  default false (availableSet !! provider).

(** [priorityGroups[member.Priority] = append(priorityGroups[member.Priority],
    member)] for every available member, in family order. *)
Definition groupByPriority (availableSet : gmap string bool)
    (family : list FamilyMember) : gmap Z (list FamilyMember) :=
  fold_left
    (fun groups m =>
       if inSet availableSet (Provider m)
       then <[Priority m := default [] (groups !! Priority m) ++ [m]]> groups
       else groups)
    family ∅.

(** The available members of a family at one priority, in family order. *)
Definition availableAt (availableSet : gmap string bool) (p : Z)
    (family : list FamilyMember) : list FamilyMember :=
  List.filter (fun m => inSet availableSet (Provider m) && (Priority m =? p)) family.

(** The keys of the groups after [sort.Ints]. *)
Definition sortedPriorities (priorityGroups : gmap Z (list FamilyMember)) : list Z :=
  merge_sort Z.le (map fst (map_to_list priorityGroups)).

(** [ResolveModelFamily] resolves a canonical model name to
    [(provider, modelID, found)]. *)
Definition ResolveModelFamily `{Rand} (canonicalID : string)
    (availableProviders : list string) : outcome (string * string * bool) :=
  match ModelFamilies !! canonicalID with
  | None => Ok ("", canonicalID, false)
  | Some family =>
      let availableSet := makeAvailableSet availableProviders in
      let priorityGroups := groupByPriority availableSet family in
      if Z.of_nat (size priorityGroups) =? 0 then Ok ("", canonicalID, false)
      else
        let priorities := sortedPriorities priorityGroups in
        let* p0 := index priorities 0 in
        let highestPriorityMembers := default [] (priorityGroups !! p0) in
        let* selected :=
          if len highestPriorityMembers =? 1 then index highestPriorityMembers 0
          else
            let* r := randIntn (len highestPriorityMembers) in
            index highestPriorityMembers r in
        Ok (Provider selected, ModelID selected, true)
  end.

End Families.

(** *** Package provider: recording results against a credential *)
Module Provider.
Import Go.

(** [time.Time] is an instant counted in nanoseconds from the zero Time and
    [time.Duration] a signed number of nanoseconds; [t.Add(d)] is their sum
    (the saturation of [Add] at the ends of the representable range is not
    modelled). *)
Abbreviation Time := Z (only parsing).
Abbreviation Duration := Z (only parsing).

Definition zeroTime : Time := 0.
Definition Add (t : Time) (d : Duration) : Time := t + d.
Definition Second : Duration := 1000000000.
Definition Minute : Duration := 60 * Second.
Definition Hour : Duration := 60 * Minute.

(** Modelled from the spec: the declarations of [Status], [Error],
    [QuotaState], [ModelState], [Auth] and [Result] are outside the sources
    at hand.  Section 3 of the specification lists the fields of the health
    records, section 4.8 those of a result and the aggregated availability
    that selection reads; [updateAuthState] uses them under these names. *)
Inductive Status : Type :=
| StatusUnknown
| StatusActive
| StatusError
| StatusUnauthorized
| StatusDisabled.

Record Error := { Message : string; HTTPStatus : Z }.

Record QuotaState :=
  { Exceeded : bool;
    Reason : string;
    NextRecoverAt : Time;
    BackoffLevel : Z }.

Record ModelState :=
  { Unavailable : bool;
    mStatus : Status;
    NextRetryAfter : Time;
    mLastError : option Error;
    mStatusMessage : string;
    Quota : QuotaState;
    mUpdatedAt : Time }.

Record Auth :=
  { ID : string;
    Provider : string;
    Status_ : Status;
    StatusMessage : string;
    LastError : option Error;
    aUnavailable : bool;
    aNextRetryAfter : Time;
    aQuota : QuotaState;
    CreatedAt : Time;
    UpdatedAt : Time;
    ModelStates : gmap string ModelState }.

Record Result :=
  { AuthID : string;
    rProvider : string;
    Model : string;
    Success : bool;
    Error_ : option Error;
    RetryAfter : option Duration }.

(** The error categories of section 7. *)
Inductive ErrorCategory : Type :=
| CategoryUnknown
| CategoryUserError
| CategoryAuthError
| CategoryQuotaError
| CategoryTransient.

Definition isUserError (c : ErrorCategory) : bool :=
  match c with
  | CategoryUserError => true
  | _ => false
  end.

(** Field updates, one per assignment in the source. *)
Definition withStateFailure (s : ModelState) : ModelState :=
  {| Unavailable := true; mStatus := StatusError;
     NextRetryAfter := NextRetryAfter s; mLastError := mLastError s;
     mStatusMessage := mStatusMessage s; Quota := Quota s;
     mUpdatedAt := mUpdatedAt s |}.

Definition withStateUpdatedAt (s : ModelState) (t : Time) : ModelState :=
  {| Unavailable := Unavailable s; mStatus := mStatus s;
     NextRetryAfter := NextRetryAfter s; mLastError := mLastError s;
     mStatusMessage := mStatusMessage s; Quota := Quota s; mUpdatedAt := t |}.

Definition withStateError (s : ModelState) (e : option Error) (msg : string)
    : ModelState :=
  {| Unavailable := Unavailable s; mStatus := mStatus s;
     NextRetryAfter := NextRetryAfter s; mLastError := e;
     mStatusMessage := msg; Quota := Quota s; mUpdatedAt := mUpdatedAt s |}.

Definition withNextRetryAfter (s : ModelState) (t : Time) : ModelState :=
  {| Unavailable := Unavailable s; mStatus := mStatus s;
     NextRetryAfter := t; mLastError := mLastError s;
     mStatusMessage := mStatusMessage s; Quota := Quota s;
     mUpdatedAt := mUpdatedAt s |}.

Definition withQuota (s : ModelState) (q : QuotaState) : ModelState :=
  {| Unavailable := Unavailable s; mStatus := mStatus s;
     NextRetryAfter := NextRetryAfter s; mLastError := mLastError s;
     mStatusMessage := mStatusMessage s; Quota := q;
     mUpdatedAt := mUpdatedAt s |}.

Definition withModelStates (a : Auth) (ms : gmap string ModelState) : Auth :=
  {| ID := ID a; Provider := Provider a; Status_ := Status_ a;
     StatusMessage := StatusMessage a; LastError := LastError a;
     aUnavailable := aUnavailable a; aNextRetryAfter := aNextRetryAfter a;
     aQuota := aQuota a; CreatedAt := CreatedAt a; UpdatedAt := UpdatedAt a;
     ModelStates := ms |}.

Definition withAuthError (a : Auth) (e : option Error) (msg : string) : Auth :=
  {| ID := ID a; Provider := Provider a; Status_ := Status_ a;
     StatusMessage := msg; LastError := e;
     aUnavailable := aUnavailable a; aNextRetryAfter := aNextRetryAfter a;
     aQuota := aQuota a; CreatedAt := CreatedAt a; UpdatedAt := UpdatedAt a;
     ModelStates := ModelStates a |}.

Definition withStatus (a : Auth) (s : Status) : Auth :=
  {| ID := ID a; Provider := Provider a; Status_ := s;
     StatusMessage := StatusMessage a; LastError := LastError a;
     aUnavailable := aUnavailable a; aNextRetryAfter := aNextRetryAfter a;
     aQuota := aQuota a; CreatedAt := CreatedAt a; UpdatedAt := UpdatedAt a;
     ModelStates := ModelStates a |}.

Definition withUpdatedAt (a : Auth) (t : Time) : Auth :=
  {| ID := ID a; Provider := Provider a; Status_ := Status_ a;
     StatusMessage := StatusMessage a; LastError := LastError a;
     aUnavailable := aUnavailable a; aNextRetryAfter := aNextRetryAfter a;
     aQuota := aQuota a; CreatedAt := CreatedAt a; UpdatedAt := t;
     ModelStates := ModelStates a |}.

(** [*state = ...] through the pointer [ensureModelState] returned: the
    write lands in the auth's map. *)
Definition storeModelState (a : Auth) (model : string) (s : ModelState) : Auth :=
  withModelStates a (<[model := s]> (ModelStates a)).

(** The out-parameters of [updateAuthState]. *)
Record Flags :=
  { shouldResumeModel : bool;
    shouldSuspendModel : bool;
    suspendReason : string;
    clearModelQuota : bool;
    setModelQuota : bool }.

Definition noFlags : Flags :=
  {| shouldResumeModel := false; shouldSuspendModel := false;
     suspendReason := ""; clearModelQuota := false; setModelQuota := false |}.

Definition suspend (f : Flags) (reason : string) : Flags :=
  {| shouldResumeModel := shouldResumeModel f; shouldSuspendModel := true;
     suspendReason := reason; clearModelQuota := clearModelQuota f;
     setModelQuota := setModelQuota f |}.

Definition markSetModelQuota (f : Flags) : Flags :=
  {| shouldResumeModel := shouldResumeModel f;
     shouldSuspendModel := shouldSuspendModel f;
     suspendReason := suspendReason f; clearModelQuota := clearModelQuota f;
     setModelQuota := true |}.

Definition markResumed (f : Flags) : Flags :=
  {| shouldResumeModel := true; shouldSuspendModel := shouldSuspendModel f;
     suspendReason := suspendReason f; clearModelQuota := true;
     setModelQuota := setModelQuota f |}.

(** The calls [updateAuthState] makes on the global model registry, in
    order. *)
Inductive RegistryCall : Type :=
| ClearModelQuotaExceeded (authID model : string)
| ResumeClientModel (authID model : string)
| SetModelQuotaExceeded (authID model : string)
| SuspendClientModel (authID model reason : string).

(** The functions of package [provider] that [updateAuthState] calls and
    whose bodies are outside the sources at hand.  A function that mutates
    the auth returns the new auth. *)
Class ManagerHelpers :=
  { (** the state a model gets when its first result arrives *)
    freshModelState : ModelState;
    resetModelState : ModelState -> Time -> ModelState;
    clearQuotaGroupOnSuccess : Auth -> string -> Time -> Auth * list string;
    updateAggregatedAvailability : Auth -> Time -> Auth;
    hasModelError : Auth -> Time -> bool;
    clearAuthStateOnSuccess : Auth -> Time -> Auth;
    statusCodeFromResult : option Error -> Z;
    CategorizeError : Z -> string -> ErrorCategory;
    cloneError : Error -> Error;
    nextQuotaCooldown : Z -> Duration * Z;
    propagateQuotaToGroup :
      Auth -> string -> QuotaState -> Time -> Time -> Auth * list string;
    applyAuthFailureState :
      Auth -> option Error -> option Duration -> Time -> Auth }.

Section Worker.
Context `{ManagerHelpers}.

(** Modelled from the spec: [ensureModelState] is outside the sources at
    hand.  Section 3 stores per-model health inside the auth as a map from
    model id to state; the function returns the entry of the model, creating
    it when the model has none. *)
Definition ensureModelState (auth : Auth) (model : string) : Auth * ModelState :=
  match ModelStates auth !! model with
  | Some state => (auth, state)
  | None => (storeModelState auth model freshModelState, freshModelState)
  end.

(** The [switch statusCode] of the failure path: the state, the auth (with
    the state stored), the flags and the registry calls it leaves. *)
Definition onStatusCode (auth : Auth) (state : ModelState) (result : Result)
    (now : Time) (statusCode : Z) (flags : Flags)
    : Auth * Flags * list RegistryCall :=
  let model := Model result in
  if statusCode =? 401 then
    let next := Add now (30 * Minute) in
    (storeModelState auth model (withNextRetryAfter state next),
     suspend flags "unauthorized", [])
  else if (statusCode =? 402) || (statusCode =? 403) then
    let next := Add now (30 * Minute) in
    (storeModelState auth model (withNextRetryAfter state next),
     suspend flags "payment_required", [])
  else if statusCode =? 404 then
    let next := Add now (12 * Hour) in
    (storeModelState auth model (withNextRetryAfter state next),
     suspend flags "not_found", [])
  else if statusCode =? 429 then
    let backoffLevel := BackoffLevel (Quota state) in
    let '(next, backoffLevel) :=
      match RetryAfter result with
      | Some retryAfter => (Add now retryAfter, backoffLevel)
      | None =>
          let '(cooldown, nextLevel) := nextQuotaCooldown backoffLevel in
          (if 0 <? cooldown then Add now cooldown else zeroTime, nextLevel)
      end in
    let state := withNextRetryAfter state next in
    let quota :=
      {| Exceeded := true; Reason := "quota"; NextRecoverAt := next;
         BackoffLevel := backoffLevel |} in
    let state := withQuota state quota in
    let flags := markSetModelQuota (suspend flags "quota") in
    let '(auth, affectedModels) :=
      propagateQuotaToGroup (storeModelState auth model state) model quota next now in
    (auth, flags,
     flat_map (fun affectedModel =>
                 [SetModelQuotaExceeded (AuthID result) affectedModel;
                  SuspendClientModel (AuthID result) affectedModel "quota_group"])
              affectedModels)
  else if (statusCode =? 408) || (statusCode =? 500) || (statusCode =? 502)
          || (statusCode =? 503) || (statusCode =? 504) then
    let next := Add now (1 * Minute) in
    (storeModelState auth model (withNextRetryAfter state next), flags, [])
  else
    (storeModelState auth model (withNextRetryAfter state (Add now (30 * Second))),
     flags, []).

(** [updateAuthState] updates auth state (called under lock). *)
Definition updateAuthState (auth : Auth) (result : Result) (now : Time)
    (flags : Flags) : Auth * Flags * list RegistryCall :=
  if Success result then
    if negb (String.eqb (Model result) "") then
      let '(auth, state) := ensureModelState auth (Model result) in
      let auth := storeModelState auth (Model result) (resetModelState state now) in
      let '(auth, clearedModels) :=
        clearQuotaGroupOnSuccess auth (Model result) now in
      let calls :=
        flat_map (fun clearedModel =>
                    [ClearModelQuotaExceeded (AuthID result) clearedModel;
                     ResumeClientModel (AuthID result) clearedModel])
                 clearedModels in
      let auth := updateAggregatedAvailability auth now in
      let auth :=
        if negb (hasModelError auth now)
        then withStatus (withAuthError auth None "") StatusActive
        else auth in
      let auth := withUpdatedAt auth now in
      (auth, markResumed flags, calls)
    else (clearAuthStateOnSuccess auth now, flags, [])
  else
    if negb (String.eqb (Model result) "") then
      let '(auth, state) := ensureModelState auth (Model result) in
      let statusCode := statusCodeFromResult (Error_ result) in
      let errMsg :=
        match Error_ result with
        | Some e => Message e
        | None => ""
        end in
      let category := CategorizeError statusCode errMsg in
      let state := if negb (isUserError category) then withStateFailure state else state in
      let state := withStateUpdatedAt state now in
      let '(state, auth) :=
        match Error_ result with
        | Some e =>
            if negb (isUserError category) then
              (withStateError state (Some (cloneError e)) (Message e),
               withAuthError auth (Some (cloneError e)) (Message e))
            else (state, auth)
        | None => (state, auth)
        end in
      let '(auth, flags, calls) := onStatusCode auth state result now statusCode flags in
      let auth := if negb (isUserError category) then withStatus auth StatusError else auth in
      let auth := withUpdatedAt auth now in
      (updateAggregatedAvailability auth now, flags, calls)
    else
      (applyAuthFailureState auth (Error_ result) (RetryAfter result) now, flags, []).

(** The category [updateAuthState] computes for a failed result. *)
Definition categoryOf (result : Result) : ErrorCategory :=
  CategorizeError (statusCodeFromResult (Error_ result))
    match Error_ result with
    | Some e => Message e
    | None => ""
    end.

(** The state [updateAuthState] leaves for a model. *)
Definition stateAfter (auth : Auth) (result : Result) (now : Time)
    (flags : Flags) : option ModelState :=
  ModelStates (updateAuthState auth result now flags).1.1 !! Model result.

End Worker.
End Provider.

(** *** A registry and helpers to run the passes on *)
Module Scenario.
Import Go ModelRegistry Preprocess.

(** [strings.Contains(s, sub)]. *)
Fixpoint Contains (s sub : string) : bool :=
  String.prefix sub s
  || match s with
     | EmptyString => false
     | String _ s' => Contains s' sub
     end.

(** The registry of scenario 6 of the specification: it knows
    [claude-sonnet-4-5] and its thinking variant, which declares a thinking
    range. *)
Definition registry : Registry :=
  {| GetModelInfo := fun id =>
       if String.eqb id "claude-sonnet-4-5" then
         Some {| OutputTokenLimit := 64000; MaxCompletionTokens := 0;
                 ModelRegistry.Thinking := None |}
       else if String.eqb id "claude-sonnet-4-5-thinking" then
         Some {| OutputTokenLimit := 64000; MaxCompletionTokens := 0;
                 ModelRegistry.Thinking :=
                   Some {| Min := 1024; Max := 32000;
                           ZeroAllowed := false; DynamicAllowed := false |} |}
       else None |}.

(** Modelled from the spec: [ir.IsClaudeModel], [ir.ClaudeDefaultMaxTokens]
    and the tool cleaning are outside the sources at hand.  Section 4.6.4
    speaks of "a Claude variant": here a model whose id contains [claude];
    the default is a value below the output limits of [registry]; the tools
    of the scenario need no cleaning. *)
Definition helpers : IRHelpers :=
  {| IsClaudeModel := fun id => Contains id "claude";
     ClaudeDefaultMaxTokens := 8192;
     cleanTools := fun ts => ts |}.

(** A chat request that asks for thinking without a budget. *)
Definition thinkingRequest (model : string) : UnifiedChatRequest :=
  {| Model := model; Messages := []; Tools := [];
     MaxTokens := None; CandidateCount := Some 100;
     Thinking := Some {| IncludeThoughts := false; ThinkingBudget := None |} |}.

(** A request with the dynamic budget [-1]. *)
Definition dynamicRequest (model : string) : UnifiedChatRequest :=
  {| Model := model; Messages := []; Tools := [];
     MaxTokens := None; CandidateCount := None;
     Thinking := Some {| IncludeThoughts := true; ThinkingBudget := Some (-1) |} |}.

End Scenario.

(** *** Helpers to run the result worker on *)
Module ProviderScenario.
Import Provider.

Definition noQuota : QuotaState :=
  {| Exceeded := false; Reason := ""; NextRecoverAt := zeroTime; BackoffLevel := 0 |}.

(** The per-model states of an auth. *)
Definition states (a : Auth) : list ModelState :=
  map snd (map_to_list (ModelStates a)).

(** Modelled from the spec: [updateAggregatedAvailability] is outside the
    sources at hand.  By section 3 the auth's aggregates are a function of
    the per-model states: the auth is unavailable when every model is, until
    the earliest of their retry times; its quota is exceeded when a model's
    is. *)
Definition aggregate (a : Auth) (now : Time) : Auth :=
  let blocked s := Unavailable s && (now <? NextRetryAfter s) in
  {| ID := ID a; Provider := Provider a; Status_ := Status_ a;
     StatusMessage := StatusMessage a; LastError := LastError a;
     aUnavailable := negb (forallb (fun s => negb (blocked s)) (states a))
                     && forallb blocked (states a);
     aNextRetryAfter :=
       fold_right (fun s t =>
                     if blocked s
                     then (if t =? zeroTime then NextRetryAfter s
                           else Z.min t (NextRetryAfter s))
                     else t)
                  zeroTime (states a);
     aQuota :=
       {| Exceeded := existsb (fun s => Exceeded (Quota s)) (states a);
          Reason := if existsb (fun s => Exceeded (Quota s)) (states a)
                    then "quota" else "";
          NextRecoverAt :=
            fold_right (fun s t => if Exceeded (Quota s)
                                   then Z.max t (NextRecoverAt (Quota s)) else t)
                       zeroTime (states a);
          BackoffLevel :=
            fold_right (fun s l => Z.max l (BackoffLevel (Quota s))) 0 (states a) |};
     CreatedAt := CreatedAt a; UpdatedAt := UpdatedAt a;
     ModelStates := ModelStates a |}.

(** Modelled from the spec: [nextQuotaCooldown] is outside the sources at
    hand.  Section 4.8 gives the ladder: level 0 waits 1 min, 1 waits 5 min,
    2 waits 15 min, 3 waits 1 h, 4 waits 6 h, saturating. *)
Definition ladder (level : Z) : Duration * Z :=
  if level <=? 0 then (1 * Minute, 1)
  else if level =? 1 then (5 * Minute, 2)
  else if level =? 2 then (15 * Minute, 3)
  else if level =? 3 then (1 * Hour, 4)
  else (6 * Hour, 4).

(** Modelled from the spec: [CategorizeError] is outside the sources at
    hand.  Section 7 sorts errors by status (401 and 403 auth, 429 quota, 408
    and 5xx transient) and calls a 4xx the classifier matches a user error;
    section 9 makes the status authoritative: here 400 and 422. *)
Definition categorize (statusCode : Z) (message : string) : ErrorCategory :=
  if (statusCode =? 400) || (statusCode =? 422) then CategoryUserError
  else if (statusCode =? 401) || (statusCode =? 403) then CategoryAuthError
  else if statusCode =? 429 then CategoryQuotaError
  else if (statusCode =? 408) || (500 <=? statusCode) then CategoryTransient
  else CategoryUnknown.

(** Modelled from the spec: [resetModelState] is outside the sources at
    hand.  By section 8 a success leaves the model's unavailable flag cleared
    and no retry time after [now]; by section 4.8 it resets the backoff
    ladder.  The state becomes active with the zero retry time, no error and
    no quota. *)
Definition reset (s : ModelState) (now : Time) : ModelState :=
  {| Unavailable := false; mStatus := StatusActive;
     NextRetryAfter := zeroTime; mLastError := None; mStatusMessage := "";
     Quota := noQuota; mUpdatedAt := now |}.

(** Modelled from the spec: [clearAuthStateOnSuccess] and
    [applyAuthFailureState] are outside the sources at hand.  They record a
    result that names no model on the auth itself, as the per-model paths do
    on the model's state, and stamp [UpdatedAt]. *)
Definition clearAuth (a : Auth) (now : Time) : Auth :=
  {| ID := ID a; Provider := Provider a; Status_ := StatusActive;
     StatusMessage := ""; LastError := None;
     aUnavailable := false; aNextRetryAfter := zeroTime; aQuota := noQuota;
     CreatedAt := CreatedAt a; UpdatedAt := now;
     ModelStates := ModelStates a |}.

Definition failAuth (a : Auth) (e : option Error) (retryAfter : option Duration)
    (now : Time) : Auth :=
  {| ID := ID a; Provider := Provider a; Status_ := StatusError;
     StatusMessage := match e with Some e => Message e | None => "" end;
     LastError := e;
     aUnavailable := true;
     aNextRetryAfter := Add now (default (30 * Second) retryAfter);
     aQuota := aQuota a;
     CreatedAt := CreatedAt a; UpdatedAt := now;
     ModelStates := ModelStates a |}.

(** Modelled from the spec: [statusCodeFromResult] is outside the sources at
    hand: the HTTP status of the error, 0 when there is none. *)
Definition statusCode (e : option Error) : Z :=
  match e with
  | Some e => HTTPStatus e
  | None => 0
  end.

(** The helpers together.  A model starts active and available; no quota
    group is declared, so propagation and group clearing touch no model. *)
Definition helpers : ManagerHelpers :=
  {| freshModelState :=
       {| Unavailable := false; mStatus := StatusActive;
          NextRetryAfter := zeroTime; mLastError := None; mStatusMessage := "";
          Quota := noQuota; mUpdatedAt := zeroTime |};
     resetModelState := reset;
     clearQuotaGroupOnSuccess := fun a _ _ => (a, []);
     updateAggregatedAvailability := aggregate;
     hasModelError := fun a now =>
       existsb (fun s => Unavailable s && (now <? NextRetryAfter s)) (states a);
     clearAuthStateOnSuccess := clearAuth;
     statusCodeFromResult := statusCode;
     CategorizeError := categorize;
     cloneError := fun e => e;
     nextQuotaCooldown := ladder;
     propagateQuotaToGroup := fun a _ _ _ _ => (a, []);
     applyAuthFailureState := failAuth |}.

(** A credential with no recorded results, registered at [t0]. *)
Definition newAuth (t0 : Time) : Auth :=
  {| ID := "auth-A"; Provider := "claude"; Status_ := StatusActive;
     StatusMessage := ""; LastError := None;
     aUnavailable := false; aNextRetryAfter := zeroTime; aQuota := noQuota;
     CreatedAt := t0; UpdatedAt := t0; ModelStates := ∅ |}.

Definition success (model : string) : Result :=
  {| AuthID := "auth-A"; rProvider := "claude"; Model := model;
     Success := true; Error_ := None; RetryAfter := None |}.

Definition failure (model : string) (status : Z) (message : string)
    (retryAfter : option Duration) : Result :=
  {| AuthID := "auth-A"; rProvider := "claude"; Model := model;
     Success := false;
     Error_ := Some {| Message := message; HTTPStatus := status |};
     RetryAfter := retryAfter |}.

End ProviderScenario.

(** *** Reading the parts a builder emits *)
Module Parts.
Import Builder.

(** The value under a key of an object, as [m[key]] reads it. *)
Fixpoint fieldOf (key : string) (fields : list (string * JValue)) : option JValue :=
  match fields with
  | [] => None
  | (k, v) :: rest => if String.eqb k key then Some v else fieldOf key rest
  end.

(** The ["type"] of a content part, [""] when it has none. *)
Definition partType (part : JValue) : string :=
  match part with
  | JObject fields =>
      match fieldOf "type" fields with
      | Some (JString t) => t
      | _ => ""
      end
  | _ => ""
  end.

(** The ["id"] of a content part. *)
Definition partID (part : JValue) : string :=
  match part with
  | JObject fields =>
      match fieldOf "id" fields with
      | Some (JString t) => t
      | _ => ""
      end
  | _ => ""
  end.

End Parts.

(** *** Package registry: the other lookups of the family table *)
Module FamilyLookup.
Import Families.

(** [for _, member := range members]: is a member's model id the one sought? *)
Fixpoint hasModelID (members : list FamilyMember) (providerModelID : string) : bool :=
  match members with
  | [] => false
  | member :: rest =>
      if String.eqb (ModelID member) providerModelID then true
      else hasModelID rest providerModelID
  end.

(** [GetCanonicalModelID] returns the canonical id for a provider-specific
    model id, [""] if no family contains it.  Go visits the entries of a map
    in an order that differs from run to run: [order] is the order of the
    run, a permutation of the entries of [ModelFamilies]. *)
Fixpoint GetCanonicalModelID (order : list (string * list FamilyMember))
    (providerModelID : string) : string :=
  match order with
  | [] => ""
  | (canonical, members) :: rest =>
      if hasModelID members providerModelID then canonical
      else GetCanonicalModelID rest providerModelID
  end.

(** The orders a run may take. *)
Definition iterationOrder (order : list (string * list FamilyMember)) : Prop :=
  order ≡ₚ map_to_list ModelFamilies.

(** [IsCanonicalID] checks if the given id is a canonical family name. *)
Definition IsCanonicalID (modelID : string) : bool :=
  match ModelFamilies !! modelID with
  | Some _ => true
  | None => false
  end.

(** No model id of one family of the table occurs in another family. *)
Fixpoint disjointFrom (members : list FamilyMember)
    (others : list (string * list FamilyMember)) : bool :=
  match others with
  | [] => true
  | (_, members') :: rest =>
      forallb (fun m => negb (hasModelID members' (ModelID m))) members
      && disjointFrom members rest
  end.

Fixpoint familiesDisjoint (table : list (string * list FamilyMember)) : bool :=
  match table with
  | [] => true
  | (_, members) :: rest => disjointFrom members rest && familiesDisjoint rest
  end.

(** A model id names one family. *)
Definition oneFamily (table : list (string * list FamilyMember)) : Prop :=
  forall id c f c' f', (c, f) ∈ table -> (c', f') ∈ table ->
    hasModelID f id = true -> hasModelID f' id = true -> c = c'.

End FamilyLookup.

(** *** Runs of the buffer pool *)
Module PoolRuns.
Import StreamUtil.

(** One call on a pool: [Get(size)], with the runtime's pick, or [Put(buf)]. *)
Inductive Call : Type :=
| CallGet (size : Z) (pick : option nat)
| CallPut (buf : option Buffer).

(** The buffers the [Get]s of a run hand out, each with the size asked for. *)
Fixpoint handedOut (p : BufferPool) (calls : list Call) : list (Z * Buffer) :=
  match calls with
  | [] => []
  | CallGet size pick :: rest =>
      (size, (Get p size pick).1) :: handedOut (Get p size pick).2 rest
  | CallPut buf :: rest => handedOut (Put p buf).1 rest
  end.

(** The run returns only what it was given: every buffer put back has the
    capacity of a buffer an earlier [Get] of the run handed out ([given]
    collects those capacities). *)
Fixpoint returnsOnly (p : BufferPool) (given : list Z) (calls : list Call) : Prop :=
  match calls with
  | [] => True
  | CallGet size pick :: rest =>
      returnsOnly (Get p size pick).2 (cap (Get p size pick).1 :: given) rest
  | CallPut None :: rest => returnsOnly p given rest
  | CallPut (Some b) :: rest =>
      cap b ∈ given /\ returnsOnly (Put p (Some b)).1 given rest
  end.

(** The capacities [Get] hands out on a pool whose classes are exact. *)
Definition classCap (c : Z) : Prop :=
  c = smallBufferSize \/ c = mediumBufferSize \/ c = largeBufferSize
  \/ largeBufferSize < c.

(** A run: buffers of the small and the large class go out and come back. *)
Definition sampleRun : list Call :=
  [ CallGet 100 None;
    CallPut (Some {| data := repeat Byte.x01 100; cap := 4096 |});
    CallGet 70000 (Some 0%nat);
    CallGet 3000 (Some 0%nat);
    CallPut None;
    CallPut (Some {| data := repeat Byte.x02 10; cap := 1048576 |});
    CallGet 2000000 None;
    CallGet 1048576 (Some 0%nat) ].

End PoolRuns.

(** *** Well-formed inputs of the thinking pass *)
Module ThinkingInputs.
Import ModelRegistry Preprocess.

(** The budget of a thinking block, if set, is an [int32]. *)
Definition int32Budget (th : option ThinkingConfig) : Prop :=
  forall t b, th = Some t -> ThinkingBudget t = Some b -> - 2 ^ 31 <= b < 2 ^ 31.

(** The thinking range of a registry entry, if declared, is sane. *)
Definition saneInfo (info : option ModelInfo) : Prop :=
  forall i ts, info = Some i -> ModelRegistry.Thinking i = Some ts -> saneRange ts.

End ThinkingInputs.

(** *** Package provider: processing one result *)
Module ResultWorker.
Import Go Provider.

(** The fields of [Manager] that [processResult] reads: the credentials by
    id ([m.auths], a map of pointers: [None] is a nil pointer) and whether
    [m.selector] is a [*QuotaManager]. *)
Record Manager :=
  { auths : gmap string (option Auth);
    selectorIsQuotaManager : bool }.

Definition withAuths (m : Manager) (a : gmap string (option Auth)) : Manager :=
  {| auths := a; selectorIsQuotaManager := selectorIsQuotaManager m |}.

(** What [processResult] does outside the manager, in order: the calls on
    the global model registry, [qm.RecordQuotaHit], [m.persist] and
    [m.hook.OnResult]. *)
Inductive Effect : Type :=
| OnRegistry (call : RegistryCall)
| RecordQuotaHit (authID provider model : string) (retryAfter : option Duration)
| Persist (auth : Auth)
| OnResult (result : Result).

(** The registry calls among the effects, in order. *)
Fixpoint registryCalls (effects : list Effect) : list RegistryCall :=
  match effects with
  | [] => []
  | OnRegistry call :: rest => call :: registryCalls rest
  | _ :: rest => registryCalls rest
  end.

Section Worker.
Context `{ManagerHelpers}.

(** [processResult] is the core result processing logic: state update under
    the lock, then registry notifications, quota record, persistence and the
    hook.  [now] is what [time.Now()] reads under the lock. *)
Definition processResult (m : Manager) (result : Result) (now : Time)
    : Manager * list Effect :=
  if String.eqb (AuthID result) "" then (m, [])
  else
    let '(m, flags, calls, authToStore) :=
      match auths m !! AuthID result with
      | Some (Some auth) =>
          let '(auth, flags, calls) := updateAuthState auth result now noFlags in
          (withAuths m (<[AuthID result := Some auth]> (auths m)),
           flags, calls, Some auth)
      | _ => (m, noFlags, [], None)
      end in
    let hasModel := negb (String.eqb (Model result) "") in
    let effects :=
      map OnRegistry calls
      ++ (if clearModelQuota flags && hasModel
          then [OnRegistry (ClearModelQuotaExceeded (AuthID result) (Model result))]
          else [])
      ++ (if setModelQuota flags && hasModel
          then [OnRegistry (SetModelQuotaExceeded (AuthID result) (Model result))]
          else [])
      ++ (if shouldResumeModel flags
          then [OnRegistry (ResumeClientModel (AuthID result) (Model result))]
          else if shouldSuspendModel flags
          then [OnRegistry (SuspendClientModel (AuthID result) (Model result)
                              (suspendReason flags))]
          else [])
      ++ (match Error_ result with
          | Some e =>
              if (HTTPStatus e =? 429) && selectorIsQuotaManager m
              then [RecordQuotaHit (AuthID result) (rProvider result)
                      (Model result) (RetryAfter result)]
              else []
          | None => []
          end)
      ++ (match authToStore with
          | Some auth => [Persist auth]
          | None => []
          end)
      ++ [OnResult result] in
    (m, effects).

(** The registry calls the failure path makes for the model of the result
    itself, by status code. *)
Definition ownFailureCalls (authID model : string) (statusCode : Z)
    : list RegistryCall :=
  if statusCode =? 429 then
    [SetModelQuotaExceeded authID model; SuspendClientModel authID model "quota"]
  else if statusCode =? 401 then [SuspendClientModel authID model "unauthorized"]
  else if (statusCode =? 402) || (statusCode =? 403)
  then [SuspendClientModel authID model "payment_required"]
  else if statusCode =? 404 then [SuspendClientModel authID model "not_found"]
  else [].

(** The wait the failure path sets for a status code other than 429. *)
Definition failureWait (statusCode : Z) : Duration :=
  if statusCode =? 401 then 30 * Minute
  else if (statusCode =? 402) || (statusCode =? 403) then 30 * Minute
  else if statusCode =? 404 then 12 * Hour
  else if (statusCode =? 408) || (statusCode =? 500) || (statusCode =? 502)
          || (statusCode =? 503) || (statusCode =? 504) then 1 * Minute
  else 30 * Second.

(** The state of the model a failure has recorded when it reaches the
    status switch: flagged unless the category is a user error, stamped, and
    with the error unless the category is a user error. *)
Definition recorded (prior : ModelState) (result : Result) (now : Time)
    : ModelState :=
  let user := isUserError (categoryOf result) in
  let state := if negb user then withStateFailure prior else prior in
  let state := withStateUpdatedAt state now in
  match Error_ result with
  | Some e =>
      if negb user then withStateError state (Some (cloneError e)) (Message e)
      else state
  | None => state
  end.

(** The auth a failure has recorded when it reaches the status switch: it
    carries the error unless the category is a user error. *)
Definition recordedAuth (auth : Auth) (result : Result) : Auth :=
  match Error_ result with
  | Some e =>
      if negb (isUserError (categoryOf result))
      then withAuthError auth (Some (cloneError e)) (Message e)
      else auth
  | None => auth
  end.

(** The call of [propagateQuotaToGroup] in the 429 arm of the status switch,
    on the auth and the state of the model as they stand there: the retry
    time, the quota and the arguments of the call, as the source computes
    them. *)
Definition quotaArm (auth : Auth) (state : ModelState) (result : Result)
    (now : Time) : Auth * list string :=
  let backoffLevel := BackoffLevel (Quota state) in
  let '(next, backoffLevel) :=
    match RetryAfter result with
    | Some retryAfter => (Add now retryAfter, backoffLevel)
    | None =>
        let '(cooldown, nextLevel) := nextQuotaCooldown backoffLevel in
        (if 0 <? cooldown then Add now cooldown else zeroTime, nextLevel)
    end in
  let quota :=
    {| Exceeded := true; Reason := "quota"; NextRecoverAt := next;
       BackoffLevel := backoffLevel |} in
  propagateQuotaToGroup
    (storeModelState auth (Model result)
       (withQuota (withNextRetryAfter state next) quota))
    (Model result) quota next now.

(** What [propagateQuotaToGroup] returns when a failed result with status
    429 for a model is processed against [auth]: the auth and the affected
    models. *)
Definition quotaPropagation (auth : Auth) (result : Result) (now : Time)
    : Auth * list string :=
  let '(auth, prior) := ensureModelState auth (Model result) in
  quotaArm (recordedAuth auth result) (recorded prior result now) result now.

(** What [clearQuotaGroupOnSuccess] returns when a successful result for a
    model is processed against [auth]: the auth and the cleared models. *)
Definition groupClearing (auth : Auth) (result : Result) (now : Time)
    : Auth * list string :=
  let '(auth, state) := ensureModelState auth (Model result) in
  clearQuotaGroupOnSuccess
    (storeModelState auth (Model result) (resetModelState state now))
    (Model result) now.

End Worker.

(** Helpers with a quota group: a quota hit on one model of the group
    reaches [claude-opus-4-5] and [claude-haiku-4-5], and a success on one
    clears [claude-opus-4-5]. *)
Definition groupHelpers : ManagerHelpers :=
  {| freshModelState := @freshModelState ProviderScenario.helpers;
     resetModelState := @resetModelState ProviderScenario.helpers;
     clearQuotaGroupOnSuccess := fun a _ _ => (a, ["claude-opus-4-5"]);
     updateAggregatedAvailability :=
       @updateAggregatedAvailability ProviderScenario.helpers;
     hasModelError := @hasModelError ProviderScenario.helpers;
     clearAuthStateOnSuccess := @clearAuthStateOnSuccess ProviderScenario.helpers;
     statusCodeFromResult := @statusCodeFromResult ProviderScenario.helpers;
     CategorizeError := @CategorizeError ProviderScenario.helpers;
     cloneError := @cloneError ProviderScenario.helpers;
     nextQuotaCooldown := @nextQuotaCooldown ProviderScenario.helpers;
     propagateQuotaToGroup :=
       fun a _ _ _ _ => (a, ["claude-opus-4-5"; "claude-haiku-4-5"]);
     applyAuthFailureState := @applyAuthFailureState ProviderScenario.helpers |}.

(** A manager that holds the credential of [ProviderScenario], with a quota
    manager as selector. *)
Definition sampleManager : Manager :=
  {| auths := {[ "auth-A" := Some (ProviderScenario.newAuth 1000) ]};
     selectorIsQuotaManager := true |}.

(** A model state at backoff level 1 and a credential that holds it. *)
Definition throttledState : ModelState :=
  {| Unavailable := true; mStatus := StatusError; NextRetryAfter := 2000;
     mLastError := None; mStatusMessage := "";
     Quota := {| Exceeded := true; Reason := "quota"; NextRecoverAt := 2000;
                 BackoffLevel := 1 |};
     mUpdatedAt := 1500 |}.

Definition throttledAuth : Auth :=
  withModelStates (ProviderScenario.newAuth 1000)
    {[ "claude-sonnet-4-5" := throttledState ]}.

End ResultWorker.

(** *** Package oauth: the registry of pending OAuth requests *)
Module OAuth.
Import Go.
Local Open Scope go_scope.

(** [time.Time] and [time.Duration] as in package provider: instants and
    spans in nanoseconds; [t.After(u)] is [u < t]. *)
Definition After (t u : Z) : bool := u <? t.

(** [RequestStatus] tracks the current state of an OAuth request. *)
Inductive RequestStatus : Type :=
| StatusPending
| StatusCompleted
| StatusFailed
| StatusExpired
| StatusCancelled.

Definition isPending (s : RequestStatus) : bool :=
  match s with
  | StatusPending => true
  | _ => false
  end.

(** [OAuthResult] contains the result of an OAuth callback. *)
Record OAuthResult := { Code : string; rState : string; rError : string }.

(** A [chan *OAuthResult] made with a buffer of one: the results waiting in
    it (a nil pointer is [None]) and whether it has been closed. *)
Record Chan := { waiting : list (option OAuthResult); closed : bool }.

Definition makeChan : Chan := {| waiting := []; closed := false |}.

(** [select { case ch <- v: default: }]: the send goes through when the
    buffer has room and is dropped otherwise; on a closed channel it
    panics. *)
Definition trySend (ch : Chan) (v : option OAuthResult) : outcome Chan :=
  if closed ch then Panic
  else if (length (waiting ch) <? 1)%nat
  then Ok {| waiting := waiting ch ++ [v]; closed := false |}
  else Ok ch.

(** [close(ch)] panics on a closed channel. *)
Definition close (ch : Chan) : outcome Chan :=
  if closed ch then Panic else Ok {| waiting := waiting ch; closed := true |}.

(** [OAuthRequest] represents a pending OAuth authentication request. *)
Record OAuthRequest :=
  { ID : string;
    State : string;
    Provider : string;
    Mode : string;
    Status : RequestStatus;
    Error : string;
    AuthURL : string;
    CreatedAt : Z;
    ExpiresAt : Z;
    ResultChan : Chan;
    channelClosed : bool;
    CodeVerifier : string;
    CodeChallenge : string;
    RedirectURI : string;
    Scopes : list string }.

(** Field updates, one per assignment in the source. *)
Definition withStatus (q : OAuthRequest) (s : RequestStatus) : OAuthRequest :=
  {| ID := ID q; State := State q; Provider := Provider q; Mode := Mode q;
     Status := s; Error := Error q; AuthURL := AuthURL q;
     CreatedAt := CreatedAt q; ExpiresAt := ExpiresAt q;
     ResultChan := ResultChan q; channelClosed := channelClosed q;
     CodeVerifier := CodeVerifier q; CodeChallenge := CodeChallenge q;
     RedirectURI := RedirectURI q; Scopes := Scopes q |}.

Definition withError (q : OAuthRequest) (e : string) : OAuthRequest :=
  {| ID := ID q; State := State q; Provider := Provider q; Mode := Mode q;
     Status := Status q; Error := e; AuthURL := AuthURL q;
     CreatedAt := CreatedAt q; ExpiresAt := ExpiresAt q;
     ResultChan := ResultChan q; channelClosed := channelClosed q;
     CodeVerifier := CodeVerifier q; CodeChallenge := CodeChallenge q;
     RedirectURI := RedirectURI q; Scopes := Scopes q |}.

(** The state of the channel behind [req.ResultChan] after a send or a
    close. *)
Definition withChan (q : OAuthRequest) (ch : Chan) : OAuthRequest :=
  {| ID := ID q; State := State q; Provider := Provider q; Mode := Mode q;
     Status := Status q; Error := Error q; AuthURL := AuthURL q;
     CreatedAt := CreatedAt q; ExpiresAt := ExpiresAt q;
     ResultChan := ch; channelClosed := channelClosed q;
     CodeVerifier := CodeVerifier q; CodeChallenge := CodeChallenge q;
     RedirectURI := RedirectURI q; Scopes := Scopes q |}.

Definition withChannelClosed (q : OAuthRequest) (b : bool) : OAuthRequest :=
  {| ID := ID q; State := State q; Provider := Provider q; Mode := Mode q;
     Status := Status q; Error := Error q; AuthURL := AuthURL q;
     CreatedAt := CreatedAt q; ExpiresAt := ExpiresAt q;
     ResultChan := ResultChan q; channelClosed := b;
     CodeVerifier := CodeVerifier q; CodeChallenge := CodeChallenge q;
     RedirectURI := RedirectURI q; Scopes := Scopes q |}.

(** A [*OAuthRequest]: the position of the request among the allocated
    ones.  The two maps of the registry hold pointers, so a request reached
    through one map is the request reached through the other. *)
Definition pointer : Type := nat.

(** [Registry] manages pending OAuth requests: the allocated requests, the
    map keyed by state, the secondary index by id and the default TTL. *)
Record Registry :=
  { heap : list OAuthRequest;
    requests : gmap string pointer;
    byID : gmap string pointer;
    defaultTTL : Z }.

(** [NewRegistry] creates a new OAuth request registry. *)
Definition NewRegistry : Registry :=
  {| heap := []; requests := ∅; byID := ∅; defaultTTL := 5 * Provider.Minute |}.

(** [*p]: a pointer outside the allocated requests cannot be followed. *)
Definition load (r : Registry) (p : pointer) : outcome OAuthRequest :=
  match heap r !! p with
  | Some req => Ok req
  | None => Panic
  end.

(** A write through [p]. *)
Definition store (r : Registry) (p : pointer) (req : OAuthRequest) : Registry :=
  {| heap := <[p := req]> (heap r); requests := requests r; byID := byID r;
     defaultTTL := defaultTTL r |}.

(** [req := &OAuthRequest{...}; r.requests[state] = req; r.byID[id] = req]. *)
Definition insertNew (r : Registry) (state id : string) (req : OAuthRequest)
    : pointer * Registry :=
  let p := length (heap r) in
  (p, {| heap := heap r ++ [req];
         requests := <[state := p]> (requests r);
         byID := <[id := p]> (byID r);
         defaultTTL := defaultTTL r |}).

Definition newRequest (id state provider mode : string) (status : RequestStatus)
    (error : string) (createdAt expiresAt : Z) : OAuthRequest :=
  {| ID := id; State := state; Provider := provider; Mode := mode;
     Status := status; Error := error; AuthURL := "";
     CreatedAt := createdAt; ExpiresAt := expiresAt;
     ResultChan := makeChan; channelClosed := false;
     CodeVerifier := ""; CodeChallenge := ""; RedirectURI := ""; Scopes := [] |}.

(** [Register] creates and stores a new OAuth request.  [rnd1] and [rnd2]
    are what the two calls of [misc.GenerateRandomState] return ([None] for
    an error), [now] what [time.Now()] reads.  The result is the pointer to
    the new request, [None] when an error is returned. *)
Definition Register (r : Registry) (rnd1 rnd2 : option string)
    (provider mode : string) (now : Z) : option pointer * Registry :=
  match rnd1 with
  | None => (None, r)
  | Some state =>
      match rnd2 with
      | None => (None, r)
      | Some id =>
          let req := newRequest id state provider mode StatusPending ""
                       now (Provider.Add now (defaultTTL r)) in
          let '(p, r) := insertNew r state id req in
          (Some p, r)
      end
  end.

(** [Get] retrieves a request by state parameter ([None] is nil). *)
Definition Get (r : Registry) (state : string) : option pointer :=
  requests r !! state.

(** [GetByID] retrieves a request by its unique ID. *)
Definition GetByID (r : Registry) (id : string) : option pointer :=
  byID r !! id.

(** [Complete] marks a request as completed with the given result. *)
Definition Complete (r : Registry) (state : string) (result : option OAuthResult)
    : outcome (bool * Registry) :=
  match requests r !! state with
  | None => Ok (false, r)
  | Some p =>
      let* req := load r p in
      if negb (isPending (Status req)) then Ok (false, r)
      else
        let req := withStatus req StatusCompleted in
        let* ch := trySend (ResultChan req) result in
        Ok (true, store r p (withChan req ch))
  end.

(** [Fail] marks a request as failed with an error message. *)
Definition Fail (r : Registry) (state errMsg : string) : outcome (bool * Registry) :=
  match requests r !! state with
  | None =>
      let req := newRequest state state "" "" StatusFailed errMsg 0 0 in
      Ok (true, (insertNew r state state req).2)
  | Some p =>
      let* req := load r p in
      let req := withError (withStatus req StatusFailed) errMsg in
      let* ch :=
        trySend (ResultChan req)
          (Some {| Code := ""; rState := state; rError := errMsg |}) in
      Ok (true, store r p (withChan req ch))
  end.

(** [Cancel] cancels a pending request. *)
Definition Cancel (r : Registry) (state : string) : outcome (bool * Registry) :=
  match requests r !! state with
  | None => Ok (false, r)
  | Some p =>
      let* req := load r p in
      if negb (isPending (Status req)) then Ok (false, r)
      else
        let req := withError (withStatus req StatusCancelled) "cancelled" in
        let* ch :=
          trySend (ResultChan req)
            (Some {| Code := ""; rState := state; rError := "cancelled" |}) in
        Ok (true, store r p (withChan req ch))
  end.

(** [delete(r.requests, state); delete(r.byID, req.ID)]. *)
Definition unlink (r : Registry) (state id : string) : Registry :=
  {| heap := heap r; requests := delete state (requests r);
     byID := delete id (byID r); defaultTTL := defaultTTL r |}.

(** [Remove] deletes a request from the registry and closes its channel,
    unless [channelClosed] says it has been closed. *)
Definition Remove (r : Registry) (state : string) : outcome Registry :=
  match requests r !! state with
  | None => Ok r
  | Some p =>
      let* req := load r p in
      let r := unlink r state (ID req) in
      if channelClosed req then Ok r
      else
        let req := withChannelClosed req true in
        let* ch := close (ResultChan req) in
        Ok (store r p (withChan req ch))
  end.

(** [GetStatus] returns the current status of a request; [None] is the
    answer [("", false)] for a state that is not registered. *)
Definition GetStatus (r : Registry) (state : string) : outcome (option RequestStatus) :=
  match requests r !! state with
  | None => Ok None
  | Some p =>
      let* req := load r p in
      Ok (Some (Status req))
  end.

(** The body of the loop of [cleanup] for one entry of [r.requests]. *)
Definition cleanupEntry (now : Z) (state : string) (p : pointer) (r : Registry)
    : outcome Registry :=
  let* req := load r p in
  if negb (After now (ExpiresAt req)) then Ok r
  else
    let* r :=
      if isPending (Status req) then
        let req := withError (withStatus req StatusExpired) "expired" in
        let* ch :=
          trySend (ResultChan req)
            (Some {| Code := ""; rState := state; rError := "expired" |}) in
        Ok (store r p (withChan req ch))
      else Ok r in
    Ok (unlink r state (ID req)).

(** [cleanup] removes expired requests.  [order] is the order in which the
    run visits the entries that [r.requests] has when the loop starts (the
    loop deletes only the entry it is at). *)
Fixpoint cleanup (now : Z) (order : list (string * pointer)) (r : Registry)
    : outcome Registry :=
  match order with
  | [] => Ok r
  | (state, p) :: rest =>
      let* r := cleanupEntry now state p r in
      cleanup now rest r
  end.

(** The orders a run of [cleanup] may take on [r]. *)
Definition visitOrder (r : Registry) (order : list (string * pointer)) : Prop :=
  order ≡ₚ map_to_list (requests r).

(** [Create] creates a new OAuth request with a given state, which is also
    its id. *)
Definition Create (r : Registry) (state provider mode : string) (now : Z)
    : pointer * Registry :=
  let id := state in
  let req := newRequest id state provider mode StatusPending ""
               now (Provider.Add now (defaultTTL r)) in
  insertNew r state id req.

(** [Delete] is an alias for [Remove]. *)
Definition Delete (r : Registry) (state : string) : outcome Registry :=
  Remove r state.

(** The map [Stats] returns: its four keys. *)
Record StatsMap := { total : Z; pending : Z; completed : Z; failed : Z }.

Definition count (stats : StatsMap) (s : RequestStatus) : StatsMap :=
  match s with
  | StatusPending =>
      {| total := total stats; pending := pending stats + 1;
         completed := completed stats; failed := failed stats |}
  | StatusCompleted =>
      {| total := total stats; pending := pending stats;
         completed := completed stats + 1; failed := failed stats |}
  | StatusFailed | StatusExpired | StatusCancelled =>
      {| total := total stats; pending := pending stats;
         completed := completed stats; failed := failed stats + 1 |}
  end.

Fixpoint countAll (r : Registry) (order : list (string * pointer))
    (stats : StatsMap) : outcome StatsMap :=
  match order with
  | [] => Ok stats
  | (_, p) :: rest =>
      let* req := load r p in
      countAll r rest (count stats (Status req))
  end.

(** [Stats] returns statistics about the registry; [order] is the order in
    which the run visits [r.requests]. *)
Definition Stats (r : Registry) (order : list (string * pointer)) : outcome StatsMap :=
  countAll r order
    {| total := Z.of_nat (size (requests r)); pending := 0; completed := 0;
       failed := 0 |}.

(** The registry once the receivers of the channel of the request at [p]
    have taken results from it, leaving [left] in its buffer.  (The CLI
    mode blocks on [ResultChan]; a receive takes the result at the head of
    the buffer and changes nothing else.) *)
Definition received (r : Registry) (p : pointer)
    (left : list (option OAuthResult)) : Registry :=
  match heap r !! p with
  | Some req =>
      store r p (withChan req {| waiting := left; closed := closed (ResultChan req) |})
  | None => r
  end.

(** One call on the registry. *)
Inductive Op : Type :=
| OpRegister (rnd1 rnd2 : option string) (provider mode : string) (now : Z)
| OpComplete (state : string) (result : option OAuthResult)
| OpFail (state errMsg : string)
| OpCancel (state : string)
| OpRemove (state : string)
| OpCleanup (now : Z) (order : list (string * pointer))
| OpCreate (state provider mode : string) (now : Z).

Definition apply (r : Registry) (op : Op) : outcome Registry :=
  match op with
  | OpRegister rnd1 rnd2 provider mode now =>
      Ok (Register r rnd1 rnd2 provider mode now).2
  | OpComplete state result =>
      let* res := Complete r state result in Ok res.2
  | OpFail state errMsg =>
      let* res := Fail r state errMsg in Ok res.2
  | OpCancel state =>
      let* res := Cancel r state in Ok res.2
  | OpRemove state => Remove r state
  | OpCleanup now order => cleanup now order r
  | OpCreate state provider mode now => Ok (Create r state provider mode now).2
  end.

(** A run of calls, one after the other. *)
Fixpoint run (r : Registry) (ops : list Op) : outcome Registry :=
  match ops with
  | [] => Ok r
  | op :: rest =>
      let* r := apply r op in
      run r rest
  end.

(** Every [cleanup] of the run visits the map it finds in one of its
    orders. *)
Fixpoint orderly (r : Registry) (ops : list Op) : Prop :=
  match ops with
  | [] => True
  | op :: rest =>
      match op with
      | OpCleanup _ order => visitOrder r order
      | _ => True
      end
      /\ match apply r op with
         | Ok r' => orderly r' rest
         | Panic => True
         end
  end.

(** What the registry keeps true of itself: a request registered under a
    state carries that state and has an open channel; a request indexed
    under an id carries that id. *)
Definition wellFormed (r : Registry) : Prop :=
  (forall state p, requests r !! state = Some p ->
     exists req, heap r !! p = Some req /\ State req = state
                 /\ channelClosed req = false /\ closed (ResultChan req) = false)
  /\ (forall id p, byID r !! id = Some p ->
        exists req, heap r !! p = Some req /\ ID req = id).

(** What [cleanup] at [now] leaves of a request [req] that was registered
    under [state] at [p]: an expired one is unlinked, and marked expired
    with its waiter notified if it was pending; one that has not expired is
    left as it was. *)
Definition cleaned (now : Z) (state : string) (p : pointer) (req : OAuthRequest)
    (r' : Registry) : Prop :=
  if After now (ExpiresAt req) then
    requests r' !! state = None
    /\ exists req', heap r' !! p = Some req'
         /\ if isPending (Status req) then
              Status req' = StatusExpired /\ Error req' = "expired"
              /\ (waiting (ResultChan req) = [] ->
                  waiting (ResultChan req')
                  = [Some {| Code := ""; rState := state; rError := "expired" |}])
            else req' = req
  else requests r' !! state = Some p /\ heap r' !! p = Some req.

(** A run that uses every call. *)
Definition sampleOps : list Op :=
  [ OpCreate "s1" "claude" "cli" 1000;
    OpRegister (Some "s2") (Some "id2") "gemini" "webui" 2000;
    OpComplete "s1" (Some {| Code := "abc"; rState := "s1"; rError := "" |});
    OpFail "s3" "denied";
    OpCancel "s2";
    OpCleanup 300000001500 [("s3", 2%nat); ("s1", 0%nat); ("s2", 1%nat)];
    OpRemove "s1";
    OpComplete "s1" None ].

(** A registry with two pending requests, and the same after the first has
    been completed. *)
Definition sampleRegistry : Registry :=
  (Create (Create NewRegistry "s1" "claude" "cli" 1000).2 "s2" "gemini" "cli" 2000).2.

Definition sampleResult : option OAuthResult :=
  Some {| Code := "abc"; rState := "s1"; rError := "" |}.

Definition completedRegistry : Registry :=
  match Complete sampleRegistry "s1" sampleResult with
  | Ok (_, r) => r
  | Panic => sampleRegistry
  end.

End OAuth.

(** ** Part II: the properties *)

(** *** Go strings *)
Module GoFacts.
Import Go.

Lemma byteIs_head c s a : byteIs (String c s) 0 a = true -> c = a.
Proof. unfold byteIs; simpl. apply Ascii.eqb_eq. Qed.

Lemma byteIs_tail c s n a : byteIs (String c s) (S n) a = byteIs s n a.
Proof. reflexivity. Qed.

Lemma byteIs_append p rest i c :
  String.get i p = Some c -> byteIs (p +:+ rest) i c = true.
Proof.
  revert i; induction p as [|a p IH]; intros i Hget; [destruct i; discriminate|].
  destruct i as [|i]; simpl in *.
  - injection Hget as ->. unfold byteIs; simpl. apply Ascii.eqb_refl.
  - by apply IH.
Qed.

(** A string whose bytes agree with [p] at every position of [p] starts
    with [p]. *)
Lemma bytes_agree_prefix p : forall s,
  (forall i c, String.get i p = Some c -> byteIs s i c = true) ->
  exists rest, s = p +:+ rest.
Proof.
  induction p as [|a p IH]; intros s Hall; [by exists s|].
  destruct s as [|b s].
  - specialize (Hall 0%nat a eq_refl). discriminate.
  - pose proof (byteIs_head _ _ _ (Hall 0%nat a eq_refl)) as ->.
    destruct (IH s) as [rest ->]; [|by exists rest].
    intros i c Hget. rewrite <- (byteIs_tail a). by apply Hall.
Qed.

Lemma prefix_append p rest : String.prefix p (p +:+ rest) = true.
Proof.
  induction p as [|a p IH]; simpl; [by destruct rest|].
  destruct (ascii_dec a a); [done|congruence].
Qed.

Lemma prefix_inv p : forall s,
  String.prefix p s = true -> exists rest, s = p +:+ rest.
Proof.
  induction p as [|a p IH]; intros s Hp; [by exists s|].
  destruct s as [|b s]; simpl in Hp; [discriminate|].
  destruct (ascii_dec a b) as [->|]; [|discriminate].
  destruct (IH s Hp) as [rest ->]. by exists rest.
Qed.

Lemma length_append p s :
  String.length (p +:+ s) = (String.length p + String.length s)%nat.
Proof. induction p; simpl; auto. Qed.

Lemma substring_all s : String.substring 0 (String.length s) s = s.
Proof. induction s; simpl; congruence. Qed.

Lemma sliceFrom_append p rest : sliceFrom (p +:+ rest) (String.length p) = rest.
Proof.
  unfold sliceFrom. rewrite length_append.
  replace (String.length p + String.length rest - String.length p)%nat
    with (String.length rest) by lia.
  induction p as [|a p IH]; simpl; [apply substring_all|exact IH].
Qed.

Lemma append_inj_l p s1 s2 : p +:+ s1 = p +:+ s2 -> s1 = s2.
Proof. induction p; simpl; intros Heq; [done|]. injection Heq; auto. Qed.

End GoFacts.

(** *** Tool-call ids *)
Module ToolIDFacts.
Import Go GoFacts ToolID.

(** The first guard of [toClaudeToolID] holds exactly on [toolu_] followed
    by at least one byte. *)
Lemma claude_form id :
  (6 <? slen id) && byteIs id 0 "t" && byteIs id 1 "o" && byteIs id 2 "o"
    && byteIs id 3 "l" && byteIs id 4 "u" && byteIs id 5 "_" = true
  <-> exists rest, rest <> "" /\ id = "toolu_" +:+ rest.
Proof.
  split.
  - rewrite !andb_true_iff. intros [[[[[[Hlen H0] H1] H2] H3] H4] H5].
    destruct (bytes_agree_prefix "toolu_" id) as [rest ->].
    { intros i c Hget.
      do 6 (destruct i as [|i]; [injection Hget as <-; assumption|]).
      discriminate. }
    exists rest; split; [|done]. intros ->. discriminate.
  - intros (rest & Hne & ->).
    rewrite !andb_true_iff. repeat split; try by apply byteIs_append.
    apply Z.ltb_lt. unfold slen. rewrite length_append.
    destruct rest; [done|simpl; lia].
Qed.

(** The second guard holds exactly on [call_] followed by at least one
    byte. *)
Lemma call_form id :
  (5 <? slen id) && byteIs id 0 "c" && byteIs id 1 "a" && byteIs id 2 "l"
    && byteIs id 3 "l" && byteIs id 4 "_" = true
  <-> exists rest, rest <> "" /\ id = "call_" +:+ rest.
Proof.
  split.
  - rewrite !andb_true_iff. intros [[[[[Hlen H0] H1] H2] H3] H4].
    destruct (bytes_agree_prefix "call_" id) as [rest ->].
    { intros i c Hget.
      do 5 (destruct i as [|i]; [injection Hget as <-; assumption|]).
      discriminate. }
    exists rest; split; [|done]. intros ->. discriminate.
  - intros (rest & Hne & ->).
    rewrite !andb_true_iff. repeat split; try by apply byteIs_append.
    apply Z.ltb_lt. unfold slen. rewrite length_append.
    destruct rest; [done|simpl; lia].
Qed.

(** C4, as stated, fails on the two bare prefixes: ["toolu_"] starts with
    [toolu_] and is not returned unchanged, ["call_"] starts with [call_] and
    its prefix is not replaced. *)
Lemma toClaudeToolID_bare_prefix :
  String.prefix "toolu_" "toolu_" = true
  /\ toClaudeToolID "toolu_" = "toolu_toolu_"
  /\ toClaudeToolID "toolu_" <> "toolu_"
  /\ String.prefix "call_" "call_" = true
  /\ toClaudeToolID "call_" = "toolu_call_"
  /\ toClaudeToolID "call_" <> "toolu_" +:+ sliceFrom "call_" 5
  /\ toClaudeToolID "call_" <> toolIDRule "call_".
Proof. repeat split; try reflexivity; vm_compute; discriminate. Qed.

(** C4 (amended): on every id other than the bare prefixes ["toolu_"] and
    ["call_"] the conversion is the rule of the specification (a leading
    [call_] replaced by [toolu_], a leading [toolu_] passed through, anything
    else prefixed with [toolu_]); a bare prefix is itself prefixed with
    [toolu_]. *)
Theorem toClaudeToolID_rule (id : string) :
  (id <> "toolu_" -> id <> "call_" -> toClaudeToolID id = toolIDRule id)
  /\ (id = "toolu_" \/ id = "call_" -> toClaudeToolID id = "toolu_" +:+ id).
Proof.
  split; [|by intros [-> | ->]].
  intros Hbare1 Hbare2. unfold toClaudeToolID, toolIDRule.
  destruct (String.prefix "call_" id) eqn:Hcall.
  - destruct (prefix_inv _ _ Hcall) as [rest ->].
    assert (rest <> "") as Hrest by (intros ->; by apply Hbare2).
    match goal with |- (if ?g then _ else _) = _ => destruct g eqn:Hg end.
    { apply claude_form in Hg as (r & _ & Heq). discriminate. }
    match goal with |- (if ?g then _ else _) = _ => destruct g eqn:Hg2 end; [done|].
    assert (exists r, r <> "" /\ "call_" +:+ rest = "call_" +:+ r) as Hex by eauto.
    apply call_form in Hex. congruence.
  - match goal with |- (if ?g then _ else _) = _ => destruct g eqn:Hg end.
    { apply claude_form in Hg as (r & _ & ->).
      by rewrite (prefix_append "toolu_" r). }
    match goal with |- (if ?g then _ else _) = _ => destruct g eqn:Hg2 end.
    { apply call_form in Hg2 as (r & _ & ->).
      by rewrite (prefix_append "call_" r) in Hcall. }
    destruct (String.prefix "toolu_" id) eqn:Htoolu; [|done].
    destruct (prefix_inv _ _ Htoolu) as [rest ->].
    assert (rest <> "") as Hrest by (intros ->; by apply Hbare1).
    assert (exists r, r <> "" /\ "toolu_" +:+ rest = "toolu_" +:+ r) as Hex by eauto.
    apply claude_form in Hex. congruence.
Qed.

(** The rule at work on the ids of scenario 2 of the specification. *)
Lemma toClaudeToolID_rule_witness :
  toClaudeToolID "call_abc123" = "toolu_abc123"
  /\ toClaudeToolID "toolu_abc123" = "toolu_abc123"
  /\ toClaudeToolID "abc123" = "toolu_abc123"
  /\ toClaudeToolID "call_" = "toolu_call_".
Proof.
  split; [|split; [|split]].
  - exact (proj1 (toClaudeToolID_rule "call_abc123") ltac:(discriminate) ltac:(discriminate)).
  - exact (proj1 (toClaudeToolID_rule "toolu_abc123") ltac:(discriminate) ltac:(discriminate)).
  - exact (proj1 (toClaudeToolID_rule "abc123") ltac:(discriminate) ltac:(discriminate)).
  - exact (proj2 (toClaudeToolID_rule "call_") (or_intror eq_refl)).
Defined.

End ToolIDFacts.

(** *** The response builder *)
Module BuilderFacts.
Import Go Builder.

Lemma nth_error_lookup {A} (l : list A) (n : nat) : nth_error l n = l !! n.
Proof. revert n; induction l as [|a l IH]; intros [|n]; simpl; auto. Qed.

Lemma index_in_range {A} (l : list A) (i : Z) :
  0 <= i < len l -> exists a, index l i = Ok a /\ l !! Z.to_nat i = Some a.
Proof.
  intros Hi. unfold index, len in *.
  destruct (l !! Z.to_nat i) as [a|] eqn:Hl.
  - exists a. rewrite nth_error_lookup, Hl.
    replace (0 <=? i) with true by (symmetry; apply Z.leb_le; lia).
    replace (i <? Z.of_nat (length l)) with true by (symmetry; apply Z.ltb_lt; lia).
    done.
  - apply lookup_ge_None in Hl. lia.
Qed.

Section Totality.
Context `{BuilderHelpers}.

(** [GetLastMessage] guards its index: it never panics, on any builder. *)
Lemma GetLastMessage_total (b : ResponseBuilder) :
  exists m, GetLastMessage b = Ok m /\ m = last (messages b).
Proof.
  unfold GetLastMessage. destruct (len (messages b) =? 0) eqn:Hlen.
  - exists None. split; [done|].
    unfold len in Hlen. destruct (messages b); [done|simpl in Hlen; lia].
  - destruct (index_in_range (messages b) (len (messages b) - 1)) as (a & -> & Hl).
    { unfold len in *. lia. }
    exists (Some a). split; [done|].
    rewrite last_lookup, <- Hl. f_equal. unfold len. lia.
Qed.

(** C10: a builder constructed with an empty messages list answers every
    accessor and builder without a panic (no index is taken) and with the
    empty result: [GetLastMessage] nil, [HasContent] and [HasToolCalls] false,
    [GetTextContent] the empty string, [BuildClaudeContentParts] and
    [BuildGeminiContentParts] empty part lists. *)
Theorem empty_builder_total (usage : option Usage) (model : string) :
  let b := NewResponseBuilder [] usage model in
  GetLastMessage b = Ok None
  /\ HasContent b = Ok false
  /\ HasToolCalls b = Ok false
  /\ GetTextContent b = Ok ""
  /\ BuildClaudeContentParts b = Ok []
  /\ BuildGeminiContentParts b = Ok [].
Proof. repeat split. Qed.

(** No accessor or builder panics, whatever the messages are: the only
    index taken is the guarded one of [GetLastMessage]. *)
Lemma builder_never_panics (b : ResponseBuilder) :
  (exists r, HasContent b = Ok r)
  /\ (exists r, HasToolCalls b = Ok r)
  /\ (exists r, GetTextContent b = Ok r)
  /\ (exists r, DetermineFinishReason b = Ok r)
  /\ (exists r, BuildOpenAIToolCalls b = Ok r)
  /\ (exists r, BuildClaudeContentParts b = Ok r)
  /\ (exists r, BuildGeminiContentParts b = Ok r).
Proof.
  destruct (GetLastMessage_total b) as (m & Hm & _).
  unfold HasContent, HasToolCalls, GetTextContent, DetermineFinishReason,
    BuildOpenAIToolCalls, BuildClaudeContentParts, BuildGeminiContentParts,
    GetToolCalls.
  rewrite Hm. simpl. repeat split; eauto.
Qed.

End Totality.
End BuilderFacts.

(** *** Model families *)
Module FamiliesFacts.
Import Go Families BuilderFacts.

Lemma makeAvailableSet_from (l : list string) (s0 : gmap string bool) (x : string) :
  fold_left (fun s p => <[p := true]> s) l s0 !! x
  = if decide (x ∈ l) then Some true else s0 !! x.
Proof.
  revert s0; induction l as [|p l IH]; intros s0; simpl.
  - destruct (decide (x ∈ [])) as [Hin|_]; [by apply elem_of_nil in Hin|done].
  - rewrite IH.
    destruct (decide (x ∈ l)) as [Hl|Hl], (decide (x ∈ p :: l)) as [Hpl|Hpl];
      try done.
    + set_solver.
    + apply elem_of_cons in Hpl as [->|]; [by rewrite lookup_insert_eq|done].
    + rewrite lookup_insert_ne; [done|]. set_solver.
Qed.

Lemma inSet_available (availableProviders : list string) (x : string) :
  inSet (makeAvailableSet availableProviders) x = true <-> x ∈ availableProviders.
Proof.
  unfold inSet, makeAvailableSet. rewrite makeAvailableSet_from, lookup_empty.
  case_decide; simpl; split; auto; discriminate.
Qed.

Lemma groupByPriority_from (avail : gmap string bool) (family : list FamilyMember)
    (g0 : gmap Z (list FamilyMember)) (p : Z) :
  fold_left
    (fun groups m =>
       if inSet avail (Provider m)
       then <[Priority m := default [] (groups !! Priority m) ++ [m]]> groups
       else groups) family g0 !! p
  = match availableAt avail p family with
    | [] => g0 !! p
    | l => Some (default [] (g0 !! p) ++ l)
    end.
Proof.
  revert g0; induction family as [|m family IH]; intros g0; simpl; [done|].
  rewrite IH. unfold availableAt in *. simpl.
  destruct (inSet avail (Provider m)) eqn:Hin; simpl; [|done].
  destruct (Priority m =? p) eqn:Hp.
  - apply Z.eqb_eq in Hp as <-. rewrite lookup_insert_eq. simpl.
    destruct (List.filter _ family); [done|]. by rewrite <- app_assoc.
  - apply Z.eqb_neq in Hp. by rewrite lookup_insert_ne.
Qed.

Lemma groupByPriority_lookup (avail : gmap string bool) (family : list FamilyMember)
    (p : Z) :
  groupByPriority avail family !! p
  = match availableAt avail p family with
    | [] => None
    | l => Some l
    end.
Proof.
  unfold groupByPriority. rewrite groupByPriority_from, lookup_empty.
  by destruct (availableAt avail p family).
Qed.

Lemma elem_of_availableAt (avail : gmap string bool) (p : Z)
    (family : list FamilyMember) (m : FamilyMember) :
  m ∈ availableAt avail p family
  <-> m ∈ family /\ inSet avail (Provider m) = true /\ Priority m = p.
Proof.
  unfold availableAt. rewrite !list_elem_of_In, filter_In, andb_true_iff, Z.eqb_eq.
  tauto.
Qed.

(** The first of the sorted priorities is a key of the groups and no key is
    below it. *)
Lemma sortedPriorities_head (groups : gmap Z (list FamilyMember)) :
  groups <> ∅ ->
  exists p0 l, index (sortedPriorities groups) 0 = Ok p0
    /\ groups !! p0 = Some l
    /\ forall p, is_Some (groups !! p) -> p0 <= p.
Proof.
  intros Hne. unfold sortedPriorities.
  set (keys := map fst (map_to_list groups)).
  pose proof (merge_sort_Permutation Z.le keys) as Hperm.
  pose proof (StronglySorted_merge_sort Z.le keys) as Hsorted.
  destruct (merge_sort Z.le keys) as [|p0 ps] eqn:Hsort.
  { apply Permutation_nil_l in Hperm. unfold keys in Hperm. symmetry in Hperm.
    apply map_eq_nil, map_to_list_empty_iff in Hperm. done. }
  assert (forall k, k ∈ keys <-> is_Some (groups !! k)) as Hkeys.
  { intros k. unfold keys. rewrite list_elem_of_fmap. split.
    - intros ([k' l] & -> & Hin). apply elem_of_map_to_list in Hin. by exists l.
    - intros [l Hl]. exists (k, l). split; [done|]. by apply elem_of_map_to_list. }
  assert (is_Some (groups !! p0)) as [l Hl].
  { apply Hkeys. rewrite <- Hperm. by left. }
  exists p0, l. repeat split; [done|].
  intros p Hp. apply Hkeys in Hp. rewrite <- Hperm in Hp.
  apply elem_of_cons in Hp as [->|Hp]; [lia|].
  apply StronglySorted_inv in Hsorted as [_ Hall].
  rewrite Forall_forall in Hall. by apply Hall.
Qed.

(** An available member has a group at its priority. *)
Lemma available_member_grouped (availableProviders : list string)
    (family : list FamilyMember) (m : FamilyMember) :
  m ∈ family -> Provider m ∈ availableProviders ->
  is_Some (groupByPriority (makeAvailableSet availableProviders) family
             !! Priority m).
Proof.
  intros Hm Havail. rewrite groupByPriority_lookup.
  destruct (availableAt _ (Priority m) family) eqn:Hl; [|done].
  assert (m ∈ availableAt (makeAvailableSet availableProviders) (Priority m) family)
    as Hin by (apply elem_of_availableAt; by rewrite inSet_available).
  rewrite Hl in Hin. by apply elem_of_nil in Hin.
Qed.

(** A group is not empty and holds available members of its priority. *)
Lemma group_members (availableProviders : list string)
    (family : list FamilyMember) (p : Z) (l : list FamilyMember) :
  groupByPriority (makeAvailableSet availableProviders) family !! p = Some l ->
  l <> [] /\ forall m, m ∈ l ->
    m ∈ family /\ Provider m ∈ availableProviders /\ Priority m = p.
Proof.
  rewrite groupByPriority_lookup. intros Hl.
  destruct (availableAt _ p family) as [|x xs] eqn:Heq; [done|].
  injection Hl as <-. split; [done|]. intros m Hm. rewrite <- Heq in Hm.
  apply elem_of_availableAt in Hm as (? & ? & ?).
  by rewrite <- inSet_available.
Qed.

Section Resolve.
Context `{Rand}.

(** [rand.Intn] yields a value below a positive bound. *)
Hypothesis Intn_range : forall n, 0 < n -> 0 <= Intn n < n.

(** C8: for a canonical id of the family table and a non-empty list of
    available providers, [ResolveModelFamily] returns without a panic; when
    some member's provider is available it returns a member of the family
    whose provider is available and whose priority number is the lowest
    among the available members; when none is it reports not found. *)
Theorem ResolveModelFamily_lowest_priority (canonicalID : string)
    (family : list FamilyMember) (availableProviders : list string) :
  ModelFamilies !! canonicalID = Some family ->
  availableProviders <> [] ->
  ((exists m, m ∈ family /\ Provider m ∈ availableProviders) ->
   exists selected,
     ResolveModelFamily canonicalID availableProviders
       = Ok (Provider selected, ModelID selected, true)
     /\ selected ∈ family
     /\ Provider selected ∈ availableProviders
     /\ forall m, m ∈ family -> Provider m ∈ availableProviders ->
                  Priority selected <= Priority m)
  /\ ((forall m, m ∈ family -> Provider m ∉ availableProviders) ->
      ResolveModelFamily canonicalID availableProviders = Ok ("", canonicalID, false)).
Proof.
  intros Hfam _. unfold ResolveModelFamily. rewrite Hfam.
  set (groups := groupByPriority (makeAvailableSet availableProviders) family).
  split.
  - intros (m & Hm & Havail).
    pose proof (available_member_grouped _ _ _ Hm Havail) as [lm Hlm].
    fold groups in Hlm.
    assert (groups <> ∅) as Hne by (intros Heq; by rewrite Heq, lookup_empty in Hlm).
    replace (Z.of_nat (size groups) =? 0) with false.
    2:{ symmetry. apply Z.eqb_neq. apply map_size_non_empty_iff in Hne. lia. }
    destruct (sortedPriorities_head groups Hne) as (p0 & l & -> & Hl & Hmin).
    simpl. rewrite Hl. simpl.
    destruct (group_members _ _ _ _ Hl) as [Hlne Hmem].
    assert (exists selected,
      (if len l =? 1 then index l 0
       else Go.bind (randIntn (len l)) (fun r => index l r)) = Ok selected
      /\ selected ∈ l) as (selected & -> & Hsel).
    { assert (0 < len l) as Hpos.
      { unfold len. destruct l; [done|simpl; lia]. }
      destruct (len l =? 1).
      - destruct (index_in_range l 0) as (a & -> & Ha); [lia|].
        exists a. split; [done|]. by eapply list_elem_of_lookup_2.
      - unfold randIntn.
        replace (len l <=? 0) with false by (symmetry; apply Z.leb_gt; lia).
        simpl.
        destruct (index_in_range l (Intn (len l))) as (a & -> & Ha);
          [by apply Intn_range|].
        exists a. split; [done|]. by eapply list_elem_of_lookup_2. }
    apply Hmem in Hsel as (Hf & Hs & Hp).
    exists selected. simpl. repeat split; [done|done|].
    intros m' Hm' Havail'. rewrite Hp. apply Hmin.
    by apply available_member_grouped.
  - intros Hnone.
    assert (groups = ∅) as ->.
    { apply map_eq. intros p. rewrite lookup_empty.
      destruct (groups !! p) as [l|] eqn:Hl; [|done].
      destruct (group_members _ _ _ _ Hl) as [Hlne Hmem].
      destruct l as [|m l]; [done|].
      destruct (Hmem m) as (Hf & Hs & _); [by left|].
      by apply Hnone in Hf. }
    by rewrite map_size_empty.
Qed.

End Resolve.
End FamiliesFacts.

(** *** Preprocess *)
Module PreprocessFacts.
Import Go GoFacts ModelRegistry Preprocess.

Lemma int32_small v : - 2 ^ 31 <= v < 2 ^ 31 -> int32 v = v.
Proof.
  intros Hv. unfold int32, wrap. change (2 ^ (32 - 1)) with 2147483648.
  change (2 ^ 32) with 4294967296. change (2 ^ 31) with 2147483648 in Hv.
  rewrite Z.mod_small; lia.
Qed.

Lemma int64_small v : - 2 ^ 63 <= v < 2 ^ 63 -> int64 v = v.
Proof.
  intros Hv. unfold int64, wrap. change (2 ^ (64 - 1)) with 9223372036854775808.
  change (2 ^ 64) with 18446744073709551616.
  change (2 ^ 63) with 9223372036854775808 in Hv.
  rewrite Z.mod_small; lia.
Qed.

Lemma append_longer (s suffix : string) : suffix <> "" -> s +:+ suffix <> s.
Proof.
  intros Hne Heq. apply (f_equal String.length) in Heq.
  rewrite length_append in Heq. destruct suffix; [done|simpl in Heq; lia].
Qed.

Lemma HasSuffix_append (s suffix : string) : HasSuffix (s +:+ suffix) suffix = true.
Proof.
  unfold HasSuffix. rewrite length_append. apply andb_true_iff. split.
  - apply Nat.leb_le. lia.
  - replace (String.length s + String.length suffix - String.length suffix)%nat
      with (String.length s) by lia.
    rewrite sliceFrom_append. apply String.eqb_refl.
Qed.

(** **** The budget arithmetic on a sane range *)

Lemma midpoint_range ts : saneRange ts ->
  Z.quot (int64 (Min ts + Max ts)) 2 = (Min ts + Max ts) / 2
  /\ Min ts <= (Min ts + Max ts) / 2 <= Max ts.
Proof.
  intros [H1 H2]. change (2 ^ 31) with 2147483648 in H2.
  rewrite int64_small by (change (2 ^ 63) with 9223372036854775808; lia).
  rewrite Z.quot_div_nonneg by lia. split; [done|].
  split; [apply Z.div_le_lower_bound; lia|apply Z.div_le_upper_bound; lia].
Qed.

Lemma normalizeBudget_range ts b : saneRange ts -> - 2 ^ 31 <= b < 2 ^ 31 ->
  - 2 ^ 31 <= normalizeBudget ts b < 2 ^ 31.
Proof.
  intros Hs Hb. destruct (midpoint_range ts Hs) as [Hq Hmid].
  destruct Hs as [H1 H2]. unfold normalizeBudget. rewrite Hq.
  change (2 ^ 31) with 2147483648 in *.
  repeat case_match; lia.
Qed.

Lemma normalizeBudget_idempotent ts b : saneRange ts ->
  normalizeBudget ts (normalizeBudget ts b) = normalizeBudget ts b.
Proof.
  intros Hs. destruct (midpoint_range ts Hs) as [Hq Hmid].
  destruct Hs as [H1 H2]. unfold normalizeBudget. rewrite Hq.
  set (mid := (Min ts + Max ts) / 2) in *.
  destruct (DynamicAllowed ts), (ZeroAllowed ts); simpl;
    rewrite ?andb_true_r, ?andb_false_r; repeat (case_match; try lia).
Qed.

(** On a sane range the dynamic budget resolves as the specification says:
    to the midpoint, and to [min] when the midpoint is not positive and zero
    is not allowed. *)
Lemma normalizeBudget_dynamic_sane ts :
  saneRange ts -> DynamicAllowed ts = false ->
  let mid := (Min ts + Max ts) / 2 in
  normalizeBudget ts (-1)
  = if (mid <=? 0) && negb (ZeroAllowed ts) then Min ts else mid.
Proof.
  intros Hs Hdyn. destruct (midpoint_range ts Hs) as [Hq Hmid].
  destruct Hs as [H1 H2]. unfold normalizeBudget. rewrite Hq, Hdyn. simpl.
  set (mid := (Min ts + Max ts) / 2) in *.
  destruct (ZeroAllowed ts); simpl; rewrite ?andb_true_r, ?andb_false_r;
    repeat (case_match; try lia).
Qed.

(** **** The passes, field by field *)

Lemma request_ext (a b : UnifiedChatRequest) :
  Model a = Model b -> Messages a = Messages b -> Tools a = Tools b ->
  MaxTokens a = MaxTokens b -> CandidateCount a = CandidateCount b ->
  Thinking a = Thinking b -> a = b.
Proof. destruct a, b; simpl; congruence. Qed.

Lemma clampView_idempotent info mt :
  clampView info (clampView info mt) = clampView info mt.
Proof.
  unfold clampView. destruct mt as [v|], info as [i|]; try done.
  repeat (case_match; simplify_eq; try done; try lia).
Qed.

Lemma candidateCountView_idempotent cc :
  candidateCountView (candidateCountView cc) = candidateCountView cc.
Proof.
  destruct cc as [c|]; [|done]. unfold candidateCountView.
  repeat (case_match; try done; try lia).
Qed.

Lemma defaultView_clampView_idempotent info d mt :
  (forall i, info = Some i -> 0 < effectiveLimit i -> d <= effectiveLimit i) ->
  defaultView d (clampView info (defaultView d (clampView info mt)))
  = defaultView d (clampView info mt).
Proof.
  intros Hd. unfold defaultView, clampView.
  destruct info as [i|]; [specialize (Hd i eq_refl)|clear Hd];
    destruct mt as [v|]; repeat (case_match; simplify_eq; try done; try lia).
Qed.

Lemma budgetView_promoteView_idempotent info claude suffixed th :
  (forall i ts, info = Some i -> ModelRegistry.Thinking i = Some ts -> saneRange ts) ->
  (forall t b, th = Some t -> ThinkingBudget t = Some b -> - 2 ^ 31 <= b < 2 ^ 31) ->
  budgetView info (promoteView claude suffixed
    (budgetView info (promoteView claude suffixed th)))
  = budgetView info (promoteView claude suffixed th).
Proof.
  intros Hrange Hb.
  assert (forall ts b, saneRange ts -> - 2 ^ 31 <= b < 2 ^ 31 ->
    int32 (normalizeBudget ts (int32 (normalizeBudget ts b)))
    = int32 (normalizeBudget ts b)) as Hnorm.
  { intros ts b Hs Hbb.
    pose proof (normalizeBudget_range ts b Hs Hbb) as Hr.
    rewrite (int32_small (normalizeBudget ts b) Hr).
    rewrite normalizeBudget_idempotent by exact Hs. exact (int32_small _ Hr). }
  destruct th as [[inc [b|]]|]; [specialize (Hb _ b eq_refl eq_refl)|clear Hb|done];
    destruct info as [[o c [ts|]]|]; try specialize (Hrange _ ts eq_refl eq_refl);
    unfold budgetView, promoteView; destruct (claude && suffixed);
    cbn -[normalizeBudget int32]; rewrite ?Hnorm; try done.
  all: change (2 ^ 31) with 2147483648; lia.
Qed.

Lemma budgetView_promoteView_none info claude suffixed th :
  budgetView info (promoteView claude suffixed th) = None <-> th = None.
Proof.
  destruct th as [[inc [b|]]|], info as [[o c [ts|]]|];
    unfold budgetView, promoteView; destruct (claude && suffixed); cbn;
    split; congruence.
Qed.

Section Pipeline.
Context `{Registry} `{IRHelpers}.

Lemma clampMaxTokens_eq r info :
  clampMaxTokens r info = setMaxTokens r (clampView info (MaxTokens r)).
Proof.
  destruct r as [m ms ts [v|] cc th], info as [i|]; try reflexivity.
  unfold clampMaxTokens, clampView, effectiveLimit, setMaxTokens; cbn.
  by destruct (_ && _).
Qed.

Lemma clampCandidateCount_eq r info :
  clampCandidateCount r info
  = setCandidateCount r (candidateCountView (CandidateCount r)).
Proof. destruct r as [m ms ts mt [c|] th]; reflexivity. Qed.

Lemma applyClaudeDefaults_eq r :
  applyClaudeDefaults r
  = if IsClaudeModel (Model r)
    then setTools (setMaxTokens r (defaultView ClaudeDefaultMaxTokens (MaxTokens r)))
           (cleanTools (Tools r))
    else r.
Proof.
  destruct r as [m ms ts [v|] cc th];
    unfold applyClaudeDefaults, defaultView, CleanToolsForAntigravityClaude; cbn;
    destruct (IsClaudeModel m); cbn; try reflexivity.
  by destruct (v =? 0).
Qed.

Lemma promoteToThinkingModel_eq r info :
  fst (promoteToThinkingModel r info)
  = setThinking
      (setModel r (if willPromote r then Model r +:+ "-thinking" else Model r))
      (promoteView (IsClaudeModel (Model r)) (HasSuffix (Model r) "-thinking")
         (Thinking r)).
Proof.
  destruct r as [m ms ts mt cc [[inc b]|]];
    unfold promoteToThinkingModel, willPromote, promoteView; simpl; [|done].
  destruct (IsClaudeModel m); simpl; [|done].
  destruct (HasSuffix m "-thinking"); simpl; [by destruct b|].
  by destruct (GetModelInfo (m +:+ "-thinking")).
Qed.

Lemma normalizeThinkingBudget_eq r info :
  normalizeThinkingBudget r info = setThinking r (budgetView info (Thinking r)).
Proof.
  destruct r as [m ms ts mt cc [[inc [b|]]|]], info as [[o c [t|]]|];
    reflexivity.
Qed.

(** The request the pipeline returns, field by field. *)
Lemma Apply_fields x :
  let info := GetModelInfo (Model x) in
  let claude := IsClaudeModel (Model x) in
  Apply x =
  {| Model := if willPromote x then Model x +:+ "-thinking" else Model x;
     Messages := Messages x;
     Tools := if claude then cleanTools (Tools x) else Tools x;
     MaxTokens :=
       (if claude then defaultView ClaudeDefaultMaxTokens else id)
         (clampView info (MaxTokens x));
     CandidateCount := candidateCountView (CandidateCount x);
     Thinking := budgetView info
       (promoteView claude (HasSuffix (Model x) "-thinking") (Thinking x)) |}.
Proof.
  unfold Apply, applyThinkingNormalization, applyProviderDefaults, applyLimits.
  rewrite normalizeThinkingBudget_eq, promoteToThinkingModel_eq,
    applyClaudeDefaults_eq, clampCandidateCount_eq, clampMaxTokens_eq.
  destruct x as [m ms ts mt cc th].
  unfold willPromote, setThinking, setModel, setTools, setMaxTokens,
    setCandidateCount; cbn.
  destruct (IsClaudeModel m) eqn:Hclaude; cbn; rewrite ?Hclaude; reflexivity.
Qed.

(** A request that is promoted and carries no budget is changed again by a
    second run: the first run renames the model, and the second, finding the
    [-thinking] suffix, sets the budget and forces [include_thoughts]. *)
Lemma Apply_promoted_changes_again x th :
  Thinking x = Some th -> ThinkingBudget th = None ->
  willPromote x = true ->
  IsClaudeModel (Model x +:+ "-thinking") = true ->
  Apply (Apply x) <> Apply x.
Proof.
  intros Hth Hb Hwp Hclaude Heq. apply (f_equal Thinking) in Heq. revert Heq.
  rewrite (Apply_fields (Apply x)). cbn.
  rewrite (Apply_fields x). cbn. rewrite Hwp, Hclaude, HasSuffix_append, Hth.
  unfold willPromote in Hwp. rewrite Hth in Hwp.
  apply andb_true_iff in Hwp as [Hwp _]. apply andb_true_iff in Hwp as [-> Hsuf].
  apply negb_true_iff in Hsuf as ->.
  destruct th as [inc b]; simpl in Hb; subst b. cbn -[int32 normalizeBudget].
  destruct (GetModelInfo (Model x)) as [[o c [ts|]]|];
    destruct (GetModelInfo (Model x +:+ "-thinking")) as [[o' c' [ts'|]]|];
    cbn -[int32 normalizeBudget]; congruence.
Qed.

End Pipeline.

(** C5, as stated, fails: the request of scenario 6 with no budget is
    promoted by the first run and completed by the second, so two runs do not
    give what one run gives. *)
Lemma Apply_not_idempotent :
  let x := Scenario.thinkingRequest "claude-sonnet-4-5" in
  let Apply := @Apply Scenario.registry Scenario.helpers in
  Model (Apply x) = "claude-sonnet-4-5-thinking"
  /\ Thinking (Apply x)
     = Some {| IncludeThoughts := false; ThinkingBudget := None |}
  /\ Thinking (Apply (Apply x))
     = Some {| IncludeThoughts := true; ThinkingBudget := Some 1024 |}
  /\ Apply (Apply x) <> Apply x.
Proof.
  cbv zeta. repeat split; try (vm_compute; reflexivity).
  eapply (@Apply_promoted_changes_again Scenario.registry Scenario.helpers);
    vm_compute; reflexivity.
Qed.

Section Idempotence.
Context `{Registry} `{IRHelpers}.
Variable x : UnifiedChatRequest.

(** The tool cleaning reaches a fixed point in one step. *)
Hypothesis cleanTools_idempotent :
  forall ts, cleanTools (cleanTools ts) = cleanTools ts.
(** The run of the passes does not promote [x] to a thinking model. *)
Hypothesis not_promoted : Model (Apply x) = Model x.
(** The registry entry of the model declares a sane thinking range. *)
Hypothesis range_sane :
  forall i ts, GetModelInfo (Model x) = Some i ->
    ModelRegistry.Thinking i = Some ts -> saneRange ts.
(** The budget of the request is an [int32]. *)
Hypothesis budget_int32 :
  forall th b, Thinking x = Some th -> ThinkingBudget th = Some b ->
    - 2 ^ 31 <= b < 2 ^ 31.
(** The Claude default for [max_tokens] respects the model's limit. *)
Hypothesis default_within_limit :
  forall i, GetModelInfo (Model x) = Some i -> IsClaudeModel (Model x) = true ->
    0 < effectiveLimit i -> ClaudeDefaultMaxTokens <= effectiveLimit i.

(** C5 (amended): preprocess is idempotent on every request that the run
    does not promote to a [-thinking] model, given a registry entry with a
    sane thinking range, an [int32] budget, a Claude default [max_tokens]
    within the model's limit and an idempotent tool cleaning:
    [Apply (Apply x) = Apply x]. *)
Theorem Apply_idempotent_unpromoted : Apply (Apply x) = Apply x.
Proof.
  pose proof (Apply_fields x) as Hx. cbv zeta in Hx.
  assert (willPromote x = false) as Hwp.
  { destruct (willPromote x) eqn:Hwp; [|done].
    revert not_promoted. rewrite Hx. cbn.
    intros Heq. by apply append_longer in Heq. }
  rewrite Hwp in Hx.
  set (info := GetModelInfo (Model x)) in *.
  set (claude := IsClaudeModel (Model x)) in *.
  set (suffixed := HasSuffix (Model x) "-thinking") in *.
  assert (willPromote (Apply x) = false) as Hwp'.
  { unfold willPromote in *. rewrite not_promoted. fold claude suffixed.
    rewrite Hx at 1. cbn.
    destruct (budgetView info (promoteView claude suffixed (Thinking x))) eqn:Hth;
      [|done].
    destruct (Thinking x); [done|].
    by rewrite (proj2 (budgetView_promoteView_none _ _ _ _)) in Hth. }
  rewrite (Apply_fields (Apply x)). cbv zeta.
  rewrite Hwp', not_promoted. fold info claude suffixed.
  rewrite Hx at 6. apply request_ext; cbn.
  - done.
  - by rewrite Hx.
  - rewrite Hx; cbn. destruct claude; [apply cleanTools_idempotent|done].
  - rewrite Hx; cbn. destruct claude eqn:Hclaude; cbn.
    + apply defaultView_clampView_idempotent. intros i Hi.
      by apply default_within_limit.
    + apply clampView_idempotent.
  - rewrite Hx; cbn. apply candidateCountView_idempotent.
  - rewrite Hx; cbn.
    apply budgetView_promoteView_idempotent; [apply range_sane|apply budget_int32].
Qed.

End Idempotence.

(** The request of scenario 6 sent to the thinking model itself: one run
    sets the budget, clamps the candidate count and applies the default; a
    second run changes nothing. *)
Lemma Apply_idempotent_unpromoted_witness :
  let x := Scenario.thinkingRequest "claude-sonnet-4-5-thinking" in
  let Apply := @Apply Scenario.registry Scenario.helpers in
  Apply (Apply x) = Apply x.
Proof.
  cbv zeta.
  apply (@Apply_idempotent_unpromoted Scenario.registry Scenario.helpers).
  - reflexivity.
  - vm_compute; reflexivity.
  - intros i ts Hi Hts. vm_compute in Hi. injection Hi as <-.
    injection Hts as <-. unfold saneRange; simpl. lia.
  - intros th b Hth Hb. injection Hth as <-. discriminate Hb.
  - intros i Hi _ _. vm_compute in Hi. injection Hi as <-. vm_compute. discriminate.
Defined.

(** The boundaries of section 8 on the scenario registry. *)
Example candidate_count_clamped :
  let run cc :=
    CandidateCount
      (@Apply Scenario.registry Scenario.helpers
         {| Model := "claude-sonnet-4-5"; Messages := []; Tools := [];
            MaxTokens := None; CandidateCount := Some cc; Thinking := None |}) in
  run 0 = Some 1 /\ run 100 = Some 8 /\ run 3 = Some 3.
Proof. vm_compute. repeat split. Qed.

Example max_tokens_clamped :
  MaxTokens
    (@Apply Scenario.registry Scenario.helpers
       {| Model := "claude-sonnet-4-5"; Messages := []; Tools := [];
          MaxTokens := Some 64001; CandidateCount := None; Thinking := None |})
  = Some 64000.
Proof. vm_compute. reflexivity. Qed.

(** **** The dynamic budget *)

(** C6: for a request with budget [-1] and a registry entry that does not
    allow dynamic budgets, over a thinking range as registries declare it
    ([0 <= min <= max], within [int32]), [normalizeThinkingBudget] writes
    back the midpoint [(min + max) / 2], and [min] when the midpoint is not
    positive and zero is not allowed. *)
Theorem normalizeThinkingBudget_dynamic_sane (req : UnifiedChatRequest)
    (th : ThinkingConfig) (info : ModelInfo) (ts : ThinkingSupport) :
  Thinking req = Some th -> ThinkingBudget th = Some (-1) ->
  ModelRegistry.Thinking info = Some ts ->
  saneRange ts -> DynamicAllowed ts = false ->
  let mid := (Min ts + Max ts) / 2 in
  Thinking (normalizeThinkingBudget req (Some info))
  = Some {| IncludeThoughts := IncludeThoughts th;
            ThinkingBudget :=
              Some (if (mid <=? 0) && negb (ZeroAllowed ts) then Min ts else mid) |}.
Proof.
  intros Hth Hb Hts Hs Hdyn mid. unfold normalizeThinkingBudget.
  rewrite Hth, Hb, Hts. cbn -[normalizeBudget int32].
  rewrite int32_small by (apply normalizeBudget_range; [done|]; change (2 ^ 31) with 2147483648; lia).
  by rewrite normalizeBudget_dynamic_sane.
Qed.

(** The helper of package [util] resolves the dynamic budget as the
    specification says, on every range. *)
Lemma NormalizeThinkingBudget_dynamic `{Registry} (model : string) ts :
  ThinkingUtil.thinkingRangeFromRegistry model = Some ts ->
  DynamicAllowed ts = false ->
  let mid := Z.quot (int64 (Min ts + Max ts)) 2 in
  (mid <= 0 -> ZeroAllowed ts = false ->
   ThinkingUtil.NormalizeThinkingBudget model (-1) = Min ts)
  /\ (0 < mid -> ThinkingUtil.NormalizeThinkingBudget model (-1) = mid).
Proof.
  intros Hts Hdyn mid. unfold ThinkingUtil.NormalizeThinkingBudget.
  rewrite Hts, Hdyn. simpl. fold mid. split.
  - intros Hmid ->. rewrite andb_false_r.
    by replace (mid <=? 0) with true by (symmetry; apply Z.leb_le; lia).
  - intros Hmid.
    replace (mid <=? 0) with false by (symmetry; apply Z.leb_gt; lia). done.
Qed.

(** The dynamic request of a thinking model whose range is
    [1024 .. 32000]: the budget becomes the midpoint 16512. *)
Lemma normalizeThinkingBudget_dynamic_sane_witness :
  let ts := {| Min := 1024; Max := 32000; ZeroAllowed := false;
               DynamicAllowed := false |} in
  let info := {| OutputTokenLimit := 64000; MaxCompletionTokens := 0;
                 ModelRegistry.Thinking := Some ts |} in
  let req := Scenario.dynamicRequest "claude-sonnet-4-5-thinking" in
  let mid := (Min ts + Max ts) / 2 in
  Thinking (normalizeThinkingBudget req (Some info))
  = Some {| IncludeThoughts := true;
            ThinkingBudget :=
              Some (if (mid <=? 0) && negb (ZeroAllowed ts) then Min ts else mid) |}.
Proof.
  cbv zeta.
  apply (normalizeThinkingBudget_dynamic_sane
           (Scenario.dynamicRequest "claude-sonnet-4-5-thinking")
           {| IncludeThoughts := true; ThinkingBudget := Some (-1) |}).
  - reflexivity.
  - reflexivity.
  - reflexivity.
  - unfold saneRange. simpl. lia.
  - reflexivity.
Defined.

Example dynamic_budget_midpoint :
  Thinking
    (normalizeThinkingBudget (Scenario.dynamicRequest "claude-sonnet-4-5-thinking")
       (@GetModelInfo Scenario.registry "claude-sonnet-4-5-thinking"))
  = Some {| IncludeThoughts := true; ThinkingBudget := Some 16512 |}.
Proof. vm_compute. reflexivity. Qed.

End PreprocessFacts.

(** *** The buffer pool *)
Module StreamUtilFacts.
Import StreamUtil.

(** [Put] cuts the buffer back to length 0 and stores it in the class whose
    limit is the first to cover its capacity; a buffer above the largest
    limit is not stored. *)
Lemma Put_truncates_and_classifies (p : BufferPool) (b : Buffer) :
  (Put p (Some b)).2 = Some (truncate b)
  /\ match classOf (cap b) with
     | Some limit =>
         cap b <= limit
         /\ exists pool pool',
              classPool p limit = Some pool
              /\ classPool (Put p (Some b)).1 limit = Some pool'
              /\ stored pool' = truncate b :: stored pool
     | None => (Put p (Some b)).1 = p
     end.
Proof.
  unfold Put, classOf.
  destruct (cap b <=? smallBufferSize) eqn:Hs; [|
  destruct (cap b <=? mediumBufferSize) eqn:Hm; [|
  destruct (cap b <=? largeBufferSize) eqn:Hl]];
    simpl; (split; [done|]); try done; (split; [lia|]); eauto.
Qed.

(** As long as every stored buffer has the capacity of its class, [Get]
    keeps its contract. *)
Lemma Get_exact (p : BufferPool) (size : Z) (pick : option nat) :
  exact p ->
  data (Get p size pick).1 = [] /\ size <= cap (Get p size pick).1
  /\ exact (Get p size pick).2.
Proof.
  intros (Hs & Hm & Hl).
  assert (forall limit pool, exactPool limit pool ->
    data (poolGet pick pool).1 = [] /\ cap (poolGet pick pool).1 = limit
    /\ exactPool limit (poolGet pick pool).2) as Hpool.
  { intros limit pool [Hnew Hall]. unfold poolGet.
    destruct pick as [i|]; [|by repeat split].
    destruct (stored pool !! i) as [b|] eqn:Hb; [|by repeat split].
    simpl. rewrite Forall_forall in Hall.
    destruct (Hall b) as [? ?]; [by eapply list_elem_of_lookup_2|].
    repeat split; try done. simpl. apply Forall_forall. intros b' Hb'.
    apply Hall. eapply elem_of_sublist; [exact Hb'|apply sublist_delete]. }
  unfold Get.
  destruct (size <=? smallBufferSize) eqn:H1.
  { destruct (Hpool _ _ Hs) as (? & ? & ?).
    destruct (poolGet pick (small p)); simpl in *.
    split; [done|]. split; [lia|]. unfold exact; simpl; auto. }
  destruct (size <=? mediumBufferSize) eqn:H2.
  { destruct (Hpool _ _ Hm) as (? & ? & ?).
    destruct (poolGet pick (medium p)); simpl in *.
    split; [done|]. split; [lia|]. unfold exact; simpl; auto. }
  destruct (size <=? largeBufferSize) eqn:H3.
  { destruct (Hpool _ _ Hl) as (? & ? & ?).
    destruct (poolGet pick (large p)); simpl in *.
    split; [done|]. split; [lia|]. unfold exact; simpl; auto. }
  simpl. split; [done|]. split; [lia|]. unfold exact; auto.
Qed.

Lemma NewBufferPool_exact : exact NewBufferPool.
Proof. repeat split; constructor. Qed.

(** A buffer handed out by [Get] on such a pool has the capacity of a class
    or is above the largest class. *)
Lemma Get_exact_cap (p : BufferPool) (size : Z) (pick : option nat) :
  exact p ->
  let c := cap (Get p size pick).1 in
  c = smallBufferSize \/ c = mediumBufferSize \/ c = largeBufferSize
  \/ largeBufferSize < c.
Proof.
  intros (Hs & Hm & Hl).
  assert (forall limit pool, exactPool limit pool ->
    cap (poolGet pick pool).1 = limit) as Hpool.
  { intros limit pool [Hnew Hall]. unfold poolGet.
    destruct pick as [i|]; [|done].
    destruct (stored pool !! i) as [b|] eqn:Hb; [|done].
    simpl. rewrite Forall_forall in Hall.
    by destruct (Hall b) as [? ?]; [by eapply list_elem_of_lookup_2|]. }
  unfold Get.
  destruct (size <=? smallBufferSize) eqn:H1.
  { pose proof (Hpool _ _ Hs). destruct (poolGet pick (small p)); simpl in *. auto. }
  destruct (size <=? mediumBufferSize) eqn:H2.
  { pose proof (Hpool _ _ Hm). destruct (poolGet pick (medium p)); simpl in *. auto. }
  destruct (size <=? largeBufferSize) eqn:H3.
  { pose proof (Hpool _ _ Hl). destruct (poolGet pick (large p)); simpl in *. auto. }
  simpl. right; right; right. lia.
Qed.

(** Putting back a buffer of such a capacity keeps every class exact: the
    contract of [Get] survives any sequence of [Get]s and of [Put]s of
    buffers that [Get] handed out and whose capacity was left alone. *)
Lemma Put_exact (p : BufferPool) (b : Buffer) :
  exact p ->
  cap b = smallBufferSize \/ cap b = mediumBufferSize \/ cap b = largeBufferSize
  \/ largeBufferSize < cap b ->
  exact (Put p (Some b)).1.
Proof.
  intros (Hs & Hm & Hl) Hcap.
  assert (forall limit pool, exactPool limit pool -> cap b = limit ->
    exactPool limit (poolPut (truncate b) pool)) as Hpool.
  { intros limit pool [Hnew Hall] Hb. split; [done|]. by constructor. }
  unfold Put, exact.
  destruct (cap b <=? smallBufferSize) eqn:H1; simpl.
  { split; [|by split]. apply Hpool; [done|].
    unfold smallBufferSize, mediumBufferSize, largeBufferSize in *. lia. }
  destruct (cap b <=? mediumBufferSize) eqn:H2; simpl.
  { split; [done|]. split; [|done]. apply Hpool; [done|].
    unfold smallBufferSize, mediumBufferSize, largeBufferSize in *. lia. }
  destruct (cap b <=? largeBufferSize) eqn:H3; simpl; [|done].
  split; [done|]. split; [done|]. apply Hpool; [done|].
  unfold smallBufferSize, mediumBufferSize, largeBufferSize in *. lia.
Qed.

(** C7 on the code: a buffer of capacity 10 is put into a new pool; it lands
    in the small class (limit 4096), and the next [Get(4096)] may hand it
    out: length 0, capacity 10, below the requested 4096.  The same happens
    to a pooled buffer that the caller's [append] has grown from 4096 to
    8192 bytes: it lands in the medium class and answers [Get(65536)]. *)
Theorem Get_after_Put_undersized :
  let tiny := {| data := [Byte.x01; Byte.x02; Byte.x03]; cap := 10 |} in
  let p1 := (Put NewBufferPool (Some tiny)).1 in
  let grown := {| data := repeat Byte.x00 5000; cap := 8192 |} in
  let p2 := (Put NewBufferPool (Some grown)).1 in
  (Get p1 4096 (Some 0%nat)).1 = {| data := []; cap := 10 |}
  /\ cap (Get p1 4096 (Some 0%nat)).1 < 4096
  /\ (Get p2 65536 (Some 0%nat)).1 = {| data := []; cap := 8192 |}
  /\ cap (Get p2 65536 (Some 0%nat)).1 < 65536.
Proof. repeat split. Qed.

End StreamUtilFacts.

(** *** Recording results *)
Module ProviderFacts.
Import Provider.

Section Worker.
Context `{ManagerHelpers}.

Lemma ensureModelState_lookup auth model :
  ModelStates (ensureModelState auth model).1 !! model
  = Some (ensureModelState auth model).2.
Proof.
  unfold ensureModelState. destruct (ModelStates auth !! model) eqn:Hl; simpl;
    [done|apply lookup_insert_eq].
Qed.

Lemma ensureModelState_status auth model :
  let a' := (ensureModelState auth model).1 in
  Status_ a' = Status_ auth /\ LastError a' = LastError auth
  /\ StatusMessage a' = StatusMessage auth /\ UpdatedAt a' = UpdatedAt auth.
Proof. unfold ensureModelState. by destruct (ModelStates auth !! model). Qed.

(** Every arm of the status switch other than 429 stores the state with a
    new retry time and nothing else changed. *)
Lemma onStatusCode_store auth state result now statusCode flags :
  statusCode <> 429 ->
  exists next,
    (onStatusCode auth state result now statusCode flags).1.1
    = storeModelState auth (Model result) (withNextRetryAfter state next).
Proof.
  intros Hne. unfold onStatusCode.
  replace (statusCode =? 429) with false by (symmetry; by apply Z.eqb_neq).
  repeat case_match; simpl; eauto.
Qed.


Lemma is_model_neq (model : string) : model <> "" -> String.eqb model "" = false.
Proof. intros Hne. by apply String.eqb_neq. Qed.

(** The helpers that touch a whole quota group write the other models of
    the group, not the model the result is for. *)
Hypothesis propagate_keeps_source :
  forall a m q next now,
    ModelStates (propagateQuotaToGroup a m q next now).1 !! m = ModelStates a !! m.
Hypothesis clear_keeps_source :
  forall a m now,
    ModelStates (clearQuotaGroupOnSuccess a m now).1 !! m = ModelStates a !! m.
(** Propagation leaves the auth's status, last error and status message. *)
Hypothesis propagate_keeps_status :
  forall a m q next now,
    Status_ (propagateQuotaToGroup a m q next now).1 = Status_ a
    /\ LastError (propagateQuotaToGroup a m q next now).1 = LastError a
    /\ StatusMessage (propagateQuotaToGroup a m q next now).1 = StatusMessage a.
(** The aggregation reads the per-model states and writes the auth's
    availability: it leaves the states, the status, the last error and the
    status message. *)
Hypothesis aggregate_keeps_states :
  forall a now, ModelStates (updateAggregatedAvailability a now) = ModelStates a.
Hypothesis aggregate_keeps_status :
  forall a now,
    Status_ (updateAggregatedAvailability a now) = Status_ a
    /\ LastError (updateAggregatedAvailability a now) = LastError a
    /\ StatusMessage (updateAggregatedAvailability a now) = StatusMessage a.
(** Modelled from the spec: what section 8 requires of [resetModelState],
    whose body is outside the sources at hand: at a time not before the zero
    Time a reset clears the flag and leaves no retry time in the future. *)
Hypothesis reset_clears :
  forall s now, zeroTime <= now ->
    Unavailable (resetModelState s now) = false
    /\ NextRetryAfter (resetModelState s now) <= now.
(** [clearAuthStateOnSuccess], the path of a success that names no model,
    does not move [UpdatedAt] back. *)
Hypothesis clear_auth_stamps :
  forall a now, UpdatedAt a <= now ->
    UpdatedAt a <= UpdatedAt (clearAuthStateOnSuccess a now).

(** C1: a failed result with status 429 that carries a retry-after duration
    [delta], processed at [now], leaves the quota of the model's state
    exceeded with [next_recover_at = now + delta], and [next_retry_after] at
    the same instant. *)
Theorem quota_retry_after_sets_recovery (auth : Auth) (result : Result)
    (now : Time) (delta : Duration) (flags : Flags) :
  Success result = false ->
  Model result <> "" ->
  statusCodeFromResult (Error_ result) = 429 ->
  RetryAfter result = Some delta ->
  exists state,
    stateAfter auth result now flags = Some state
    /\ Exceeded (Quota state) = true
    /\ NextRecoverAt (Quota state) = Add now delta
    /\ NextRetryAfter state = Add now delta.
Proof.
  intros Hfail Hmodel Hcode Hretry.
  unfold stateAfter, updateAuthState.
  rewrite Hfail, (is_model_neq _ Hmodel), Hcode. simpl negb. cbv iota.
  destruct (ensureModelState auth (Model result)) as [auth1 state1].
  match goal with
  | |- context [isUserError ?c] => generalize (isUserError c); intros user
  end.
  assert (exists auth2 state2,
    match Error_ result with
    | Some e =>
        if negb user
        then (withStateError
                (withStateUpdatedAt (if negb user then withStateFailure state1 else state1) now)
                (Some (cloneError e)) (Message e),
              withAuthError auth1 (Some (cloneError e)) (Message e))
        else (withStateUpdatedAt (if negb user then withStateFailure state1 else state1) now,
              auth1)
    | None =>
        (withStateUpdatedAt (if negb user then withStateFailure state1 else state1) now,
         auth1)
    end = (state2, auth2)) as (auth2 & state2 & ->).
  { destruct (Error_ result), (negb user); eauto. }
  unfold onStatusCode. simpl Z.eqb. cbv iota. simpl orb. cbv iota.
  rewrite Hretry.
  match goal with
  | |- context [propagateQuotaToGroup ?a ?m ?q ?n now] =>
      pose proof (propagate_keeps_source a m q n now) as Hprop;
      destruct (propagateQuotaToGroup a m q n now) as [auth3 affected]
  end.
  simpl in Hprop. rewrite lookup_insert_eq in Hprop.
  eexists. split.
  - simpl. rewrite aggregate_keeps_states.
    destruct (negb user); simpl; exact Hprop.
  - done.
Qed.

(** C2: after a successful result for a model is processed at [now], the
    model's unavailable flag is cleared and its [next_retry_after] is not
    after [now]. *)
Theorem success_clears_unavailable (auth : Auth) (result : Result)
    (now : Time) (flags : Flags) :
  Success result = true ->
  Model result <> "" ->
  zeroTime <= now ->
  exists state,
    stateAfter auth result now flags = Some state
    /\ Unavailable state = false
    /\ NextRetryAfter state <= now.
Proof.
  intros Hok Hmodel Hnow.
  unfold stateAfter, updateAuthState.
  rewrite Hok, (is_model_neq _ Hmodel). simpl negb. cbv iota.
  destruct (ensureModelState auth (Model result)) as [auth1 state1].
  match goal with
  | |- context [clearQuotaGroupOnSuccess ?a ?m now] =>
      pose proof (clear_keeps_source a m now) as Hclear;
      destruct (clearQuotaGroupOnSuccess a m now) as [auth2 cleared]
  end.
  simpl in Hclear. rewrite lookup_insert_eq in Hclear.
  exists (resetModelState state1 now). split; [|by apply reset_clears].
  simpl. destruct (negb (hasModelError _ _)); simpl;
    rewrite aggregate_keeps_states; exact Hclear.
Qed.

(** C3, amended: a failed result that is classified as a user error does
    not change the model's unavailable flag: the flag keeps the value the
    model's state had, so it stays false where it was false and stays set
    where an earlier failure has set it; the auth's status, last error and
    status message are left as they were. *)
Theorem user_error_not_recorded (auth : Auth) (result : Result)
    (now : Time) (flags : Flags) :
  Success result = false ->
  Model result <> "" ->
  categoryOf result = CategoryUserError ->
  let auth' := (updateAuthState auth result now flags).1.1 in
  (exists state,
     ModelStates auth' !! Model result = Some state
     /\ Unavailable state = Unavailable (ensureModelState auth (Model result)).2)
  /\ Status_ auth' = Status_ auth
  /\ LastError auth' = LastError auth
  /\ StatusMessage auth' = StatusMessage auth.
Proof.
  intros Hfail Hmodel Hcat. unfold categoryOf in Hcat.
  unfold updateAuthState.
  rewrite Hfail, (is_model_neq _ Hmodel), Hcat. simpl negb. cbv iota.
  pose proof (ensureModelState_status auth (Model result)) as (Hs & He & Hm & _).
  destruct (ensureModelState auth (Model result)) as [auth1 state1].
  simpl in Hs, He, Hm. simpl snd.
  assert ((let '(state, auth0) :=
             match Error_ result with
             | Some _ => (withStateUpdatedAt state1 now, auth1)
             | None => (withStateUpdatedAt state1 now, auth1)
             end in
           let '(auth2, flags0, calls) :=
             onStatusCode auth0 state result now
               (statusCodeFromResult (Error_ result)) flags in
           (updateAggregatedAvailability (withUpdatedAt auth2 now) now, flags0, calls))
          = (let '(auth2, flags0, calls) :=
               onStatusCode auth1 (withStateUpdatedAt state1 now) result now
                 (statusCodeFromResult (Error_ result)) flags in
             (updateAggregatedAvailability (withUpdatedAt auth2 now) now, flags0, calls)))
    as -> by (by destruct (Error_ result)).
  set (code := statusCodeFromResult (Error_ result)).
  assert (exists state,
    ModelStates (onStatusCode auth1 (withStateUpdatedAt state1 now) result now code flags).1.1
      !! Model result = Some state
    /\ Unavailable state = Unavailable state1) as (state & Hstate & Hflag).
  { destruct (decide (code = 429)) as [->|Hne].
    - unfold onStatusCode. simpl Z.eqb. cbv iota. simpl orb. cbv iota.
      destruct (match RetryAfter result with
                | Some r => _
                | None => _
                end) as [next level].
      match goal with
      | |- context [propagateQuotaToGroup ?a ?m ?q ?n now] =>
          pose proof (propagate_keeps_source a m q n now) as Hprop;
          destruct (propagateQuotaToGroup a m q n now) as [auth3 affected]
      end.
      simpl in Hprop. rewrite lookup_insert_eq in Hprop.
      eexists. split; [exact Hprop|done].
    - destruct (onStatusCode_store auth1 (withStateUpdatedAt state1 now) result
                  now code flags Hne) as [next ->].
      eexists. split; [apply lookup_insert_eq|done]. }
  assert (let a := (onStatusCode auth1 (withStateUpdatedAt state1 now) result now code flags).1.1 in
          Status_ a = Status_ auth1 /\ LastError a = LastError auth1
          /\ StatusMessage a = StatusMessage auth1) as (Hs' & He' & Hm').
  { destruct (decide (code = 429)) as [->|Hne].
    - unfold onStatusCode. simpl Z.eqb. cbv iota. simpl orb. cbv iota.
      destruct (match RetryAfter result with
                | Some r => _
                | None => _
                end) as [next level].
      match goal with
      | |- context [propagateQuotaToGroup ?a ?m ?q ?n now] =>
          pose proof (propagate_keeps_status a m q n now) as Hprop;
          destruct (propagateQuotaToGroup a m q n now) as [auth3 affected]
      end.
      exact Hprop.
    - destruct (onStatusCode_store auth1 (withStateUpdatedAt state1 now) result
                  now code flags Hne) as [next ->].
      done. }
  destruct (onStatusCode auth1 (withStateUpdatedAt state1 now) result now code flags)
    as [[auth2 flags2] calls2].
  simpl in *.
  destruct (aggregate_keeps_status (withUpdatedAt auth2 now) now) as (Ha & Hb & Hc).
  rewrite aggregate_keeps_states, Ha, Hb, Hc. simpl.
  split; [by exists state|]. repeat split; congruence.
Qed.

(** C9: processing a successful result at a time not before the auth's
    [UpdatedAt] leaves [UpdatedAt] at a value not before its previous one. *)
Theorem success_updated_at_monotone (auth : Auth) (result : Result)
    (now : Time) (flags : Flags) :
  Success result = true ->
  UpdatedAt auth <= now ->
  UpdatedAt auth <= UpdatedAt (updateAuthState auth result now flags).1.1.
Proof.
  intros Hok Hnow. unfold updateAuthState. rewrite Hok.
  destruct (String.eqb (Model result) ""); simpl.
  - by apply clear_auth_stamps.
  - destruct (ensureModelState auth (Model result)) as [auth1 state1].
    destruct (clearQuotaGroupOnSuccess _ _ _) as [auth2 cleared].
    simpl. exact Hnow.
Qed.

End Worker.
End ProviderFacts.

(** *** The theorems at work on concrete inputs *)
Module Witnesses.
Import Go.

Section FamilyWitnesses.
Import Families FamiliesFacts.

Lemma alwaysFirst_range : forall n, 0 < n -> 0 <= @Intn alwaysFirst n < n.
Proof. intros n Hn. simpl. lia. Qed.

(** With [kiro] down, [claude-sonnet-4-5] resolves to the remaining member
    of priority 1. *)
Example resolve_sonnet :
  @ResolveModelFamily alwaysFirst "claude-sonnet-4-5" ["claude"; "antigravity"]
  = Ok ("antigravity", "gemini-claude-sonnet-4-5", true).
Proof. vm_compute. reflexivity. Qed.

Example resolve_unavailable :
  @ResolveModelFamily alwaysFirst "claude-sonnet-4-5" ["openai"]
  = Ok ("", "claude-sonnet-4-5", false).
Proof. vm_compute. reflexivity. Qed.

Lemma ResolveModelFamily_lowest_priority_witness :
  let family :=
    [ member "kiro" "claude-sonnet-4-5" 1;
      member "antigravity" "gemini-claude-sonnet-4-5" 1;
      member "claude" "claude-sonnet-4-5-20250929" 2 ] in
  let available := ["claude"; "antigravity"] in
  ((exists m, m ∈ family /\ Provider m ∈ available) ->
   exists selected,
     @ResolveModelFamily alwaysFirst "claude-sonnet-4-5" available
       = Ok (Provider selected, ModelID selected, true)
     /\ selected ∈ family
     /\ Provider selected ∈ available
     /\ forall m, m ∈ family -> Provider m ∈ available ->
                  Priority selected <= Priority m)
  /\ ((forall m, m ∈ family -> Provider m ∉ available) ->
      @ResolveModelFamily alwaysFirst "claude-sonnet-4-5" available
      = Ok ("", "claude-sonnet-4-5", false)).
Proof.
  cbv zeta.
  apply (@ResolveModelFamily_lowest_priority alwaysFirst alwaysFirst_range).
  - vm_compute. reflexivity.
  - discriminate.
Defined.

End FamilyWitnesses.

Section ProviderWitnesses.
Import Provider ProviderFacts ProviderScenario.

Lemma helpers_propagate_keeps_source a m q next now :
  ModelStates (@propagateQuotaToGroup helpers a m q next now).1 !! m
  = ModelStates a !! m.
Proof. reflexivity. Qed.

Lemma helpers_propagate_keeps_status a m q next now :
  Status_ (@propagateQuotaToGroup helpers a m q next now).1 = Status_ a
  /\ LastError (@propagateQuotaToGroup helpers a m q next now).1 = LastError a
  /\ StatusMessage (@propagateQuotaToGroup helpers a m q next now).1
     = StatusMessage a.
Proof. repeat split. Qed.

Lemma helpers_clear_keeps_source a m now :
  ModelStates (@clearQuotaGroupOnSuccess helpers a m now).1 !! m
  = ModelStates a !! m.
Proof. reflexivity. Qed.

Lemma helpers_aggregate_keeps_states a now :
  ModelStates (@updateAggregatedAvailability helpers a now) = ModelStates a.
Proof. reflexivity. Qed.

Lemma helpers_aggregate_keeps_status a now :
  Status_ (@updateAggregatedAvailability helpers a now) = Status_ a
  /\ LastError (@updateAggregatedAvailability helpers a now) = LastError a
  /\ StatusMessage (@updateAggregatedAvailability helpers a now) = StatusMessage a.
Proof. repeat split. Qed.

Lemma helpers_reset_clears s now :
  zeroTime <= now ->
  Unavailable (@resetModelState helpers s now) = false
  /\ NextRetryAfter (@resetModelState helpers s now) <= now.
Proof. intros Hnow. split; [reflexivity|exact Hnow]. Qed.

Lemma helpers_clear_auth_stamps a now :
  UpdatedAt a <= now -> UpdatedAt a <= UpdatedAt (@clearAuthStateOnSuccess helpers a now).
Proof. intros Hnow. exact Hnow. Qed.

(** Scenario 3 of the specification on one auth: a 429 with
    [Retry-After: 60s] at [t = 5000] ns. *)
Example quota_hit :
  @stateAfter helpers (newAuth 1000)
    (failure "claude-sonnet-4-5" 429 "rate limited" (Some (60 * Second)))
    5000 noFlags
  = Some {| Unavailable := true; mStatus := StatusError;
            NextRetryAfter := 60000005000;
            mLastError := Some {| Message := "rate limited"; HTTPStatus := 429 |};
            mStatusMessage := "rate limited";
            Quota := {| Exceeded := true; Reason := "quota";
                        NextRecoverAt := 60000005000; BackoffLevel := 0 |};
            mUpdatedAt := 5000 |}.
Proof. vm_compute. reflexivity. Qed.

Lemma quota_retry_after_sets_recovery_witness :
  exists state,
    @stateAfter helpers (newAuth 1000)
      (failure "claude-sonnet-4-5" 429 "rate limited" (Some (60 * Second)))
      5000 noFlags = Some state
    /\ Exceeded (Quota state) = true
    /\ NextRecoverAt (Quota state) = Add 5000 (60 * Second)
    /\ NextRetryAfter state = Add 5000 (60 * Second).
Proof.
  apply (@quota_retry_after_sets_recovery helpers
           helpers_propagate_keeps_source helpers_aggregate_keeps_states).
  - reflexivity.
  - discriminate.
  - reflexivity.
  - reflexivity.
Defined.

(** After the quota hit, a success at [t = 70000000000] ns. *)
Lemma success_clears_unavailable_witness :
  let hit :=
    (@updateAuthState helpers (newAuth 1000)
       (failure "claude-sonnet-4-5" 429 "rate limited" (Some (60 * Second)))
       5000 noFlags).1.1 in
  exists state,
    @stateAfter helpers hit (success "claude-sonnet-4-5") 70000000000 noFlags
      = Some state
    /\ Unavailable state = false
    /\ NextRetryAfter state <= 70000000000.
Proof.
  cbv zeta.
  apply (@success_clears_unavailable helpers
           helpers_clear_keeps_source helpers_aggregate_keeps_states
           helpers_reset_clears).
  - reflexivity.
  - discriminate.
  - unfold zeroTime. lia.
Defined.

(** Scenario 5 of the specification: a 400 on an active auth. *)
Lemma user_error_not_recorded_witness :
  let result := failure "claude-sonnet-4-5" 400 "invalid role" None in
  let auth' := (@updateAuthState helpers (newAuth 1000) result 5000 noFlags).1.1 in
  (exists state,
     ModelStates auth' !! Model result = Some state
     /\ Unavailable state
        = Unavailable (@ensureModelState helpers (newAuth 1000) (Model result)).2)
  /\ Status_ auth' = Status_ (newAuth 1000)
  /\ LastError auth' = LastError (newAuth 1000)
  /\ StatusMessage auth' = StatusMessage (newAuth 1000).
Proof.
  cbv zeta.
  apply (@user_error_not_recorded helpers
           helpers_propagate_keeps_source helpers_propagate_keeps_status
           helpers_aggregate_keeps_states helpers_aggregate_keeps_status).
  - reflexivity.
  - discriminate.
  - reflexivity.
Defined.

Example user_error_flag :
  let result := failure "claude-sonnet-4-5" 400 "invalid role" None in
  let auth' := (@updateAuthState helpers (newAuth 1000) result 5000 noFlags).1.1 in
  Unavailable <$> (ModelStates auth' !! Model result) = Some false
  /\ Status_ auth' = StatusActive /\ LastError auth' = None.
Proof. vm_compute. repeat split. Qed.

(** C3, as stated, fails: the flag is not always left false.  A 500 at
    [t = 5000] ns flags the model unavailable until one minute later.  A 400
    "invalid role", a user error, that is processed after that minute, at
    [t = 70000000000] ns, finds the flag set and leaves it set, and moves
    the retry time to 30 seconds after [t]: the model is unavailable again
    though only a user error has arrived. *)
Lemma user_error_leaves_flag_set :
  let model := "claude-sonnet-4-5" in
  let failed :=
    (@updateAuthState helpers (newAuth 1000)
       (failure model 500 "overloaded" None) 5000 noFlags).1.1 in
  let result := failure model 400 "invalid role" None in
  let now := 70000000000 in
  Success result = false
  /\ @categoryOf helpers result = CategoryUserError
  /\ (exists before,
        ModelStates failed !! model = Some before
        /\ Unavailable before = true
        /\ NextRetryAfter before = Add 5000 (1 * Minute)
        /\ NextRetryAfter before < now)
  /\ exists after,
       @stateAfter helpers failed result now noFlags = Some after
       /\ Unavailable after = true
       /\ NextRetryAfter after = Add now (30 * Second)
       /\ now < NextRetryAfter after.
Proof.
  cbv zeta. split; [reflexivity|]. split; [reflexivity|]. split.
  - eexists. split; [vm_compute; reflexivity|]. simpl. repeat split.
  - eexists. split; [vm_compute; reflexivity|]. simpl. repeat split.
Qed.

Lemma success_updated_at_monotone_witness :
  UpdatedAt (newAuth 1000)
  <= UpdatedAt (@updateAuthState helpers (newAuth 1000)
                  (success "claude-sonnet-4-5") 5000 noFlags).1.1
  /\ UpdatedAt (newAuth 1000)
     <= UpdatedAt (@updateAuthState helpers (newAuth 1000) (success "") 5000
                     noFlags).1.1.
Proof.
  split.
  - apply (@success_updated_at_monotone helpers helpers_clear_auth_stamps);
      [reflexivity|simpl; lia].
  - apply (@success_updated_at_monotone helpers helpers_clear_auth_stamps);
      [reflexivity|simpl; lia].
Defined.

End ProviderWitnesses.
End Witnesses.

(** ** Part III: further properties of the code *)

(** *** Tool-call ids and content parts *)
Module BuilderMore.
Import Go GoFacts ToolID ToolIDFacts Builder BuilderFacts Parts.

Lemma toClaudeToolID_fixed (rest : string) :
  rest <> "" -> toClaudeToolID ("toolu_" +:+ rest) = "toolu_" +:+ rest.
Proof.
  intros Hne. unfold toClaudeToolID.
  assert (exists r, r <> "" /\ "toolu_" +:+ rest = "toolu_" +:+ r) as Hex by eauto.
  apply claude_form in Hex. by rewrite Hex.
Qed.

(** The shape of every result: [toolu_] followed by the id, by what followed
    [call_], or the id itself when it already had the form. *)
Lemma toClaudeToolID_shape (id : string) :
  exists rest, toClaudeToolID id = "toolu_" +:+ rest /\ (id <> "" -> rest <> "").
Proof.
  unfold toClaudeToolID.
  match goal with |- context [if ?g then _ else _] => destruct g eqn:Hg end.
  { apply claude_form in Hg as (r & Hr & ->). by exists r. }
  match goal with |- context [if ?g then _ else _] => destruct g eqn:Hg2 end.
  - apply call_form in Hg2 as (r & Hr & ->).
    exists r. split; [|done]. f_equal. apply (sliceFrom_append "call_" r).
  - by exists id.
Qed.

(** X1: whatever the id, the Claude form of it starts with [toolu_]. *)
Theorem toClaudeToolID_prefix (id : string) :
  String.prefix "toolu_" (toClaudeToolID id) = true.
Proof.
  destruct (toClaudeToolID_shape id) as (rest & -> & _). apply prefix_append.
Qed.

(** X2: converting a non-empty id twice gives what converting it once
    gives.  (The empty id is the exception: it becomes ["toolu_"], which a
    second conversion turns into ["toolu_toolu_"].) *)
Theorem toClaudeToolID_idempotent (id : string) :
  id <> "" -> toClaudeToolID (toClaudeToolID id) = toClaudeToolID id.
Proof.
  intros Hne. destruct (toClaudeToolID_shape id) as (rest & -> & Hrest).
  apply toClaudeToolID_fixed. by apply Hrest.
Qed.

Lemma toClaudeToolID_idempotent_witness :
  toClaudeToolID (toClaudeToolID "call_abc123") = toClaudeToolID "call_abc123".
Proof. apply toClaudeToolID_idempotent. discriminate. Defined.

Section Builders.
Context `{BuilderHelpers}.

Lemma GetLastMessage_snoc (ms : list Message) (m : Message) usage model :
  GetLastMessage (NewResponseBuilder (ms ++ [m]) usage model) = Ok (Some m).
Proof.
  destruct (GetLastMessage_total (NewResponseBuilder (ms ++ [m]) usage model))
    as (r & -> & ->).
  simpl. by rewrite last_snoc.
Qed.

Lemma len_zero {A} (l : list A) : (0 <? len l) = false -> l = [].
Proof.
  unfold len. destruct l; [done|]. intros Hl. apply Z.ltb_ge in Hl.
  cbn [length] in Hl. lia.
Qed.

(** X3: when the last message has neither content nor tool calls
    ([HasContent] is false), both content builders return no part, no OpenAI
    tool call is built and the finish reason is [stop]. *)
Theorem no_content_no_parts (b : ResponseBuilder) :
  HasContent b = Ok false ->
  BuildClaudeContentParts b = Ok []
  /\ BuildGeminiContentParts b = Ok []
  /\ BuildOpenAIToolCalls b = Ok []
  /\ DetermineFinishReason b = Ok "stop".
Proof.
  destruct (GetLastMessage_total b) as (m & Hm & _).
  unfold HasContent, BuildClaudeContentParts, BuildGeminiContentParts,
    BuildOpenAIToolCalls, DetermineFinishReason, GetToolCalls.
  rewrite Hm. simpl. destruct m as [m|]; [|done].
  intros Hc. injection Hc as Hc. apply orb_false_iff in Hc as [Hc Ht].
  apply len_zero in Hc, Ht. by rewrite Hc, Ht.
Qed.

Lemma claudeThinking_types (content : list ContentPart) :
  map partType (flat_map claudeThinking content)
  = replicate (length (flat_map claudeThinking content)) "thinking".
Proof.
  induction content as [|p content IH]; [done|]. simpl.
  rewrite map_app, length_app, replicate_add, IH. f_equal.
  unfold claudeThinking. by destruct (_ && _).
Qed.

Lemma claudeText_types (content : list ContentPart) :
  map partType (flat_map claudeText content)
  = replicate (length (flat_map claudeText content)) "text".
Proof.
  induction content as [|p content IH]; [done|]. simpl.
  rewrite map_app, length_app, replicate_add, IH. f_equal.
  unfold claudeText. by destruct (_ && _).
Qed.

Lemma claudeToolUse_types (tcs : list ToolCall) :
  map partType (map claudeToolUse tcs) = replicate (length tcs) "tool_use".
Proof. induction tcs as [|tc tcs IH]; [done|]. simpl. by rewrite IH. Qed.

Lemma claude_content_bound (content : list ContentPart) :
  (length (flat_map claudeThinking content) + length (flat_map claudeText content)
   <= length content)%nat.
Proof.
  induction content as [|p content IH]; [done|]. simpl. rewrite !length_app.
  assert (length (claudeThinking p) + length (claudeText p) <= 1)%nat; [|lia].
  unfold claudeThinking, claudeText, ContentTypeReasoning, ContentTypeText.
  destruct (String.eqb (Type_ p) "reasoning") eqn:Hr.
  - apply String.eqb_eq in Hr. rewrite Hr. simpl. destruct (negb _); simpl; lia.
  - simpl. destruct (_ && _); simpl; lia.
Qed.

(** X4: the Claude parts of a message come in three runs: the thinking
    blocks first, then the text blocks, then one [tool_use] block per tool
    call; thinking and text blocks together are at most as many as the
    content parts of the message. *)
Theorem BuildClaudeContentParts_order (ms : list Message) (m : Message)
    (usage : option Usage) (model : string) :
  exists parts k l,
    BuildClaudeContentParts (NewResponseBuilder (ms ++ [m]) usage model) = Ok parts
    /\ map partType parts
       = replicate k "thinking" ++ replicate l "text"
         ++ replicate (length (ToolCalls m)) "tool_use"
    /\ (k + l <= length (Content m))%nat.
Proof.
  unfold BuildClaudeContentParts. rewrite GetLastMessage_snoc. simpl.
  eexists _, _, _. split; [done|]. split.
  - rewrite !map_app, claudeThinking_types, claudeText_types, claudeToolUse_types.
    reflexivity.
  - apply claude_content_bound.
Qed.

(** X5: every [tool_use] block the Claude builder emits carries an id that
    starts with [toolu_], whatever ids the tool calls have. *)
Theorem BuildClaudeContentParts_ids (ms : list Message) (m : Message)
    (usage : option Usage) (model : string) :
  exists parts,
    BuildClaudeContentParts (NewResponseBuilder (ms ++ [m]) usage model) = Ok parts
    /\ Forall (fun part => partType part = "tool_use" ->
                           String.prefix "toolu_" (partID part) = true) parts.
Proof.
  unfold BuildClaudeContentParts. rewrite GetLastMessage_snoc. simpl.
  eexists. split; [done|]. rewrite !Forall_app. split; [|split].
  - apply Forall_forall. intros part Hin Hty.
    apply list_elem_of_In, (in_map partType) in Hin.
    rewrite claudeThinking_types in Hin. apply list_elem_of_In, elem_of_replicate in Hin.
    destruct Hin as [Heq _]. rewrite Hty in Heq. discriminate.
  - apply Forall_forall. intros part Hin Hty.
    apply list_elem_of_In, (in_map partType) in Hin.
    rewrite claudeText_types in Hin. apply list_elem_of_In, elem_of_replicate in Hin.
    destruct Hin as [Heq _]. rewrite Hty in Heq. discriminate.
  - apply Forall_forall. intros part Hin _.
    apply list_elem_of_fmap in Hin as (tc & -> & _).
    unfold claudeToolUse, partID. simpl.
    destruct (toClaudeToolID_shape (ID tc)) as (rest & -> & _).
    apply prefix_append.
Qed.

End Builders.

Lemma no_content_no_parts_witness :
  let helpers : BuilderHelpers :=
    {| CombineTextParts := fun _ => ""; CombineReasoningParts := fun _ => "";
       ParseToolCallArgs := fun _ => JObject []; jsonUnmarshal := fun _ => None |} in
  let b := NewResponseBuilder
             [{| Role_ := "assistant"; Content := []; ToolCalls := [] |}] None "m" in
  BuildClaudeContentParts b = Ok []
  /\ BuildGeminiContentParts b = Ok []
  /\ BuildOpenAIToolCalls b = Ok []
  /\ DetermineFinishReason b = Ok "stop".
Proof. cbv zeta. apply no_content_no_parts. reflexivity. Defined.

End BuilderMore.

(** *** The passes of preprocess, one by one *)
Module PreprocessMore.
Import Go GoFacts ModelRegistry Preprocess PreprocessFacts ThinkingInputs.

Section Passes.
Context `{Registry} `{IRHelpers}.

(** X6: the limits pass bounds what it is given and touches nothing else.
    After [applyLimits] against a registry entry, a candidate count that was
    set lies between 1 and 8; [max_tokens] is never raised, does not exceed a
    positive limit of the entry ([OutputTokenLimit], or [MaxCompletionTokens]
    when that is 0) and is kept when it was within the limit or the entry
    has none; what was not set stays unset; model, messages, tools and
    thinking block are as they were. *)
Theorem applyLimits_bounds (req : UnifiedChatRequest) (i : ModelInfo) :
  let req' := applyLimits req (Some i) in
  match CandidateCount req with
  | Some _ => exists c, CandidateCount req' = Some c /\ 1 <= c <= 8
  | None => CandidateCount req' = None
  end
  /\ match MaxTokens req with
     | Some v =>
         exists v', MaxTokens req' = Some v'
                    /\ v' <= v
                    /\ (0 < effectiveLimit i -> v' <= effectiveLimit i)
                    /\ (v <= effectiveLimit i \/ effectiveLimit i <= 0 -> v' = v)
     | None => MaxTokens req' = None
     end
  /\ Model req' = Model req /\ Messages req' = Messages req
  /\ Tools req' = Tools req /\ Thinking req' = Thinking req.
Proof.
  cbv zeta. unfold applyLimits.
  rewrite clampCandidateCount_eq, clampMaxTokens_eq.
  destruct req as [m ms ts mt cc th]. unfold setCandidateCount, setMaxTokens. simpl.
  split; [|split; [|done]].
  - destruct cc as [c|]; [|done]. simpl. eexists. split; [done|].
    repeat case_match; lia.
  - destruct mt as [v|]; [|done]. simpl.
    destruct (_ && _) eqn:Hc; eexists; (split; [done|]).
    + apply andb_true_iff in Hc as [? ?]. lia.
    + apply andb_false_iff in Hc. lia.
Qed.

(** X7: the limits pass is idempotent, on every request and registry entry. *)
Theorem applyLimits_idempotent (req : UnifiedChatRequest) (info : option ModelInfo) :
  applyLimits (applyLimits req info) info = applyLimits req info.
Proof.
  unfold applyLimits.
  rewrite !clampCandidateCount_eq, !clampMaxTokens_eq.
  destruct req as [m ms ts mt cc th]. unfold setCandidateCount, setMaxTokens. simpl.
  by rewrite clampView_idempotent, candidateCountView_idempotent.
Qed.

(** X8: [promoteToThinkingModel] reports a promotion exactly when it renamed
    the model; the new name is the old one with [-thinking] appended and is
    known to the registry, and the thinking block is left as it was.  A
    request without a thinking block is returned unchanged. *)
Theorem promoteToThinkingModel_contract (req : UnifiedChatRequest)
    (info : option ModelInfo) :
  let req' := (promoteToThinkingModel req info).1 in
  let promoted := (promoteToThinkingModel req info).2 in
  (promoted = true ->
     Model req' = Model req +:+ "-thinking"
     /\ is_Some (GetModelInfo (Model req'))
     /\ Thinking req' = Thinking req)
  /\ (promoted = false -> Model req' = Model req)
  /\ (Thinking req = None -> req' = req /\ promoted = false).
Proof.
  unfold promoteToThinkingModel.
  destruct req as [m ms ts mt cc [[inc b]|]]; simpl; [|done].
  destruct (IsClaudeModel m); simpl; [|done].
  destruct (HasSuffix m "-thinking"); simpl; [done|].
  destruct (GetModelInfo (m +:+ "-thinking")) eqn:Hreg; simpl; [|done].
  by repeat split.
Qed.

Lemma normalizeBudget_cases (ts : ThinkingSupport) (b : Z) :
  saneRange ts ->
  (0 < b -> Min ts <= normalizeBudget ts b <= Max ts)
  /\ (b = 0 -> normalizeBudget ts b = if ZeroAllowed ts then 0 else Min ts)
  /\ (b = -1 -> DynamicAllowed ts = true -> normalizeBudget ts b = -1)
  /\ (b < -1 -> normalizeBudget ts b = b).
Proof.
  intros Hs. destruct (midpoint_range ts Hs) as [Hq Hmid].
  destruct Hs as [H1 H2]. unfold normalizeBudget. rewrite Hq.
  destruct (DynamicAllowed ts), (ZeroAllowed ts); simpl;
    rewrite ?andb_true_r, ?andb_false_r; repeat split; intros;
    subst; try done; repeat (case_match; try lia).
Qed.

(** X9: on a sane range the budget [normalizeThinkingBudget] writes back
    is: for a positive budget a value of the range; for 0, 0 if zero is
    allowed and [min] otherwise; for [-1] with dynamic allowed, [-1]; a budget
    below [-1] is written back as it is.  [include_thoughts] is kept. *)
Theorem normalizeThinkingBudget_cases (req : UnifiedChatRequest)
    (th : ThinkingConfig) (b : Z) (info : ModelInfo) (ts : ThinkingSupport) :
  Thinking req = Some th -> ThinkingBudget th = Some b ->
  ModelRegistry.Thinking info = Some ts ->
  saneRange ts -> - 2 ^ 31 <= b < 2 ^ 31 ->
  exists b',
    Thinking (normalizeThinkingBudget req (Some info))
    = Some {| IncludeThoughts := IncludeThoughts th; ThinkingBudget := Some b' |}
    /\ (0 < b -> Min ts <= b' <= Max ts)
    /\ (b = 0 -> b' = if ZeroAllowed ts then 0 else Min ts)
    /\ (b = -1 -> DynamicAllowed ts = true -> b' = -1)
    /\ (b < -1 -> b' = b).
Proof.
  intros Hth Hb Hts Hs Hrange. unfold normalizeThinkingBudget.
  rewrite Hth, Hb, Hts. cbn -[normalizeBudget int32].
  exists (normalizeBudget ts b). split.
  - by rewrite int32_small by (by apply normalizeBudget_range).
  - by apply normalizeBudget_cases.
Qed.

Lemma applyThinkingNormalization_eq (r : UnifiedChatRequest) (info : option ModelInfo) :
  applyThinkingNormalization r info
  = setThinking
      (setModel r (if willPromote r then Model r +:+ "-thinking" else Model r))
      (budgetView info
         (promoteView (IsClaudeModel (Model r)) (HasSuffix (Model r) "-thinking")
            (Thinking r))).
Proof.
  unfold applyThinkingNormalization.
  rewrite normalizeThinkingBudget_eq, promoteToThinkingModel_eq.
  by destruct r.
Qed.

Lemma budgetView_int32 info th :
  saneInfo info -> int32Budget th -> int32Budget (budgetView info th).
Proof.
  unfold saneInfo, int32Budget. intros Hs Hb t b. unfold budgetView.
  destruct th as [[inc [b0|]]|]; [|destruct info; by apply Hb|done].
  destruct info as [[o c [ts|]]|]; try by apply Hb.
  cbn -[normalizeBudget int32].
  intros Ht Hbb. injection Ht as <-. injection Hbb as <-.
  rewrite int32_small; apply normalizeBudget_range; eauto.
Qed.

Lemma promoteView_int32 claude suffixed th :
  int32Budget th -> int32Budget (promoteView claude suffixed th).
Proof.
  unfold int32Budget. intros Hb t b. unfold promoteView.
  destruct th as [[inc b0]|]; [|done].
  destruct (claude && suffixed); [|by apply Hb].
  intros Ht Hbb. injection Ht as <-. simpl in Hbb. injection Hbb as <-.
  destruct b0 as [b0|]; simpl; [by eapply Hb|].
  change (2 ^ 31) with 2147483648. lia.
Qed.

(** A request that is not renamed is settled by one application. *)
Lemma applyThinkingNormalization_settled (r : UnifiedChatRequest)
    (info : option ModelInfo) :
  willPromote r = false -> saneInfo info -> int32Budget (Thinking r) ->
  applyThinkingNormalization (applyThinkingNormalization r info) info
  = applyThinkingNormalization r info.
Proof.
  intros Hwp Hs Hb.
  rewrite (applyThinkingNormalization_eq r). rewrite Hwp.
  set (claude := IsClaudeModel (Model r)).
  set (suffixed := HasSuffix (Model r) "-thinking").
  rewrite applyThinkingNormalization_eq.
  destruct r as [m ms ts mt cc th]. unfold setThinking, setModel. cbn.
  cbn in claude, suffixed, Hwp, Hb. fold claude suffixed.
  assert (willPromote
    {| Model := m; Messages := ms; Tools := ts; MaxTokens := mt;
       CandidateCount := cc;
       Thinking := budgetView info (promoteView claude suffixed th) |} = false)
    as ->.
  { unfold willPromote in *. cbn in *. fold claude suffixed in Hwp |- *.
    destruct (budgetView info (promoteView claude suffixed th)) eqn:Hth; [|done].
    destruct th; [done|].
    by rewrite (proj2 (budgetView_promoteView_none _ _ _ _)) in Hth. }
  f_equal. by apply budgetView_promoteView_idempotent.
Qed.

(** X10: thinking normalisation settles after at most two applications:
    against one registry entry with a sane range, a third application changes
    nothing.  (One application is not always enough: a request that is
    renamed to a [-thinking] model gets that model's defaults from the
    second.) *)
Theorem applyThinkingNormalization_settles (r : UnifiedChatRequest)
    (info : option ModelInfo) :
  saneInfo info -> int32Budget (Thinking r) ->
  let once := applyThinkingNormalization r info in
  let twice := applyThinkingNormalization once info in
  applyThinkingNormalization twice info = twice.
Proof.
  intros Hs Hb once twice. subst once twice.
  destruct (willPromote r) eqn:Hwp.
  - apply applyThinkingNormalization_settled; [|done|].
    + rewrite applyThinkingNormalization_eq, Hwp.
      unfold willPromote. cbn.
      destruct (budgetView _ _); [|done].
      by rewrite HasSuffix_append, andb_false_r.
    + rewrite applyThinkingNormalization_eq. cbn.
      by apply budgetView_int32, promoteView_int32.
  - rewrite (applyThinkingNormalization_settled r info Hwp Hs Hb).
    exact (applyThinkingNormalization_settled r info Hwp Hs Hb).
Qed.

End Passes.

Lemma normalizeThinkingBudget_cases_witness :
  let req :=
    {| Model := "claude-sonnet-4-5-thinking"; Messages := []; Tools := [];
       MaxTokens := None; CandidateCount := None;
       Thinking := Some {| IncludeThoughts := true; ThinkingBudget := Some 50000 |} |} in
  let ts := {| Min := 1024; Max := 32000; ZeroAllowed := false; DynamicAllowed := false |} in
  let info := {| OutputTokenLimit := 64000; MaxCompletionTokens := 0;
                 ModelRegistry.Thinking := Some ts |} in
  exists b',
    Thinking (normalizeThinkingBudget req (Some info))
    = Some {| IncludeThoughts := true; ThinkingBudget := Some b' |}
    /\ (0 < 50000 -> Min ts <= b' <= Max ts)
    /\ (50000 = 0 -> b' = if ZeroAllowed ts then 0 else Min ts)
    /\ (50000 = -1 -> DynamicAllowed ts = true -> b' = -1)
    /\ (50000 < -1 -> b' = 50000).
Proof.
  cbv zeta.
  apply (normalizeThinkingBudget_cases _
           {| IncludeThoughts := true; ThinkingBudget := Some 50000 |} 50000);
    try reflexivity.
  - unfold saneRange. simpl. lia.
  - change (2 ^ 31) with 2147483648. lia.
Defined.

(** The request of scenario 6 without a budget: renamed by the first
    application, completed by the second, unchanged by the third. *)
Lemma applyThinkingNormalization_settles_witness :
  let info := @GetModelInfo Scenario.registry "claude-sonnet-4-5-thinking" in
  let T r := @applyThinkingNormalization Scenario.registry Scenario.helpers r info in
  let r := Scenario.thinkingRequest "claude-sonnet-4-5" in
  T (T (T r)) = T (T r).
Proof.
  cbv zeta.
  apply (@applyThinkingNormalization_settles Scenario.registry Scenario.helpers).
  - intros i ts Hi Hts. vm_compute in Hi. injection Hi as <-.
    injection Hts as <-. unfold saneRange. simpl. lia.
  - intros t b Ht Hb. injection Ht as <-. discriminate Hb.
Defined.

End PreprocessMore.

(** *** The thinking-budget helper of package util *)
Module ThinkingUtilMore.
Import Go ModelRegistry Preprocess PreprocessFacts ThinkingUtil.

Section Util.
Context `{Registry}.

Lemma NormalizeThinkingBudget_found (model : string) (ts : ThinkingSupport) (b : Z) :
  thinkingRangeFromRegistry model = Some ts -> saneRange ts ->
  NormalizeThinkingBudget model b
  = if b =? -1 then
      if DynamicAllowed ts then -1
      else if ((Min ts + Max ts) / 2 <=? 0) && ZeroAllowed ts then 0
      else if (Min ts + Max ts) / 2 <=? 0 then Min ts
      else (Min ts + Max ts) / 2
    else if b =? 0 then (if ZeroAllowed ts then 0 else Min ts)
    else if b <? Min ts then Min ts
    else if Max ts <? b then Max ts
    else b.
Proof.
  intros Hts Hs. destruct (midpoint_range ts Hs) as [Hq _].
  unfold NormalizeThinkingBudget. by rewrite Hts, Hq.
Qed.

(** X11: for a model whose registry entry declares a sane thinking range,
    [NormalizeThinkingBudget] answers [-1] only to [-1] with dynamic allowed,
    0 only when zero is allowed or is [min], and otherwise a value of the
    range [min .. max]. *)
Theorem NormalizeThinkingBudget_range (model : string) (ts : ThinkingSupport)
    (b : Z) :
  thinkingRangeFromRegistry model = Some ts -> saneRange ts ->
  let r := NormalizeThinkingBudget model b in
  (r = -1 /\ b = -1 /\ DynamicAllowed ts = true)
  \/ (r = 0 /\ ZeroAllowed ts = true)
  \/ Min ts <= r <= Max ts.
Proof.
  intros Hts Hs r. subst r. rewrite (NormalizeThinkingBudget_found _ ts) by done.
  destruct (midpoint_range ts Hs) as [_ Hmid]. destruct Hs as [H1 H2].
  set (mid := (Min ts + Max ts) / 2) in *.
  destruct (DynamicAllowed ts), (ZeroAllowed ts); simpl;
    rewrite ?andb_true_r, ?andb_false_r;
    repeat (case_match; try (right; right; lia); try (right; left; split; [lia|done]);
            try (left; repeat split; lia)).
Qed.

(** X12: under the same condition, and for a model the registry does not
    know, normalising a budget twice gives what normalising it once gives. *)
Theorem NormalizeThinkingBudget_idempotent (model : string) (b : Z) :
  (forall ts, thinkingRangeFromRegistry model = Some ts -> saneRange ts) ->
  NormalizeThinkingBudget model (NormalizeThinkingBudget model b)
  = NormalizeThinkingBudget model b.
Proof.
  intros Hsane. destruct (thinkingRangeFromRegistry model) as [ts|] eqn:Hts.
  - specialize (Hsane ts eq_refl). rewrite !(NormalizeThinkingBudget_found _ ts) by done.
    destruct (midpoint_range ts Hsane) as [_ Hmid]. destruct Hsane as [H1 H2].
    set (mid := (Min ts + Max ts) / 2) in *.
    destruct (DynamicAllowed ts), (ZeroAllowed ts); simpl;
      rewrite ?andb_true_r, ?andb_false_r; repeat (case_match; try lia).
  - unfold NormalizeThinkingBudget. rewrite Hts.
    destruct (b =? -1) eqn:E; [done|by rewrite E].
Qed.

(** X13: the two normalisers of the repository, [NormalizeThinkingBudget] of
    package util and the arithmetic of [normalizeThinkingBudget] of package
    preprocess, agree on every budget from [-1] up when the range is sane;
    below [-1] they part: util answers [min], preprocess keeps the budget. *)
Theorem normalizers_agree (model : string) (ts : ThinkingSupport) (b : Z) :
  thinkingRangeFromRegistry model = Some ts -> saneRange ts ->
  (-1 <= b -> NormalizeThinkingBudget model b = normalizeBudget ts b)
  /\ (b < -1 -> NormalizeThinkingBudget model b = Min ts
                /\ normalizeBudget ts b = b).
Proof.
  intros Hts Hs. rewrite (NormalizeThinkingBudget_found _ ts) by done.
  destruct (midpoint_range ts Hs) as [Hq Hmid]. destruct Hs as [H1 H2].
  unfold normalizeBudget. rewrite Hq.
  set (mid := (Min ts + Max ts) / 2) in *.
  destruct (DynamicAllowed ts), (ZeroAllowed ts); simpl;
    rewrite ?andb_true_r, ?andb_false_r; split; intros Hb;
    repeat (case_match; try lia); split; repeat (case_match; try lia).
Qed.

End Util.

Section UtilWitnesses.

Lemma scenario_range :
  @thinkingRangeFromRegistry Scenario.registry "Claude-Sonnet-4-5-Thinking"
  = Some {| Min := 1024; Max := 32000; ZeroAllowed := false; DynamicAllowed := false |}.
Proof. vm_compute. reflexivity. Qed.

Lemma scenario_range_sane :
  saneRange {| Min := 1024; Max := 32000; ZeroAllowed := false; DynamicAllowed := false |}.
Proof. unfold saneRange. simpl. lia. Qed.

Lemma NormalizeThinkingBudget_range_witness :
  let ts := {| Min := 1024; Max := 32000; ZeroAllowed := false; DynamicAllowed := false |} in
  let r := @NormalizeThinkingBudget Scenario.registry "Claude-Sonnet-4-5-Thinking" (-1) in
  (r = -1 /\ -1 = -1 /\ DynamicAllowed ts = true)
  \/ (r = 0 /\ ZeroAllowed ts = true)
  \/ Min ts <= r <= Max ts.
Proof.
  cbv zeta.
  exact (@NormalizeThinkingBudget_range Scenario.registry _ _ (-1)
           scenario_range scenario_range_sane).
Defined.

Lemma NormalizeThinkingBudget_idempotent_witness :
  let N := @NormalizeThinkingBudget Scenario.registry "claude-sonnet-4-5-thinking" in
  N (N 50000) = N 50000.
Proof.
  cbv zeta. apply (@NormalizeThinkingBudget_idempotent Scenario.registry).
  intros ts Hts. vm_compute in Hts. injection Hts as <-. exact scenario_range_sane.
Defined.

Lemma normalizers_agree_witness :
  let ts := {| Min := 1024; Max := 32000; ZeroAllowed := false; DynamicAllowed := false |} in
  let N := @NormalizeThinkingBudget Scenario.registry "Claude-Sonnet-4-5-Thinking" in
  (-1 <= 500 -> N 500 = normalizeBudget ts 500)
  /\ (500 < -1 -> N 500 = Min ts /\ normalizeBudget ts 500 = 500).
Proof.
  cbv zeta.
  exact (@normalizers_agree Scenario.registry _ _ 500 scenario_range scenario_range_sane).
Defined.

End UtilWitnesses.
End ThinkingUtilMore.

(** *** Runs of the buffer pool *)
Module PoolRunFacts.
Import StreamUtil StreamUtilFacts PoolRuns.

Lemma run_contract (calls : list Call) : forall (p : BufferPool) (given : list Z),
  exact p -> Forall classCap given -> returnsOnly p given calls ->
  Forall (fun sb => data sb.2 = [] /\ sb.1 <= cap sb.2) (handedOut p calls).
Proof.
  induction calls as [|[size pick|[b|]] calls IH]; intros p given Hp Hg Hr; simpl.
  - constructor.
  - destruct (Get_exact p size pick Hp) as (Hd & Hc & Hp').
    constructor; [by split|].
    apply (IH _ (cap (Get p size pick).1 :: given)); [done| |done].
    constructor; [|done]. by apply Get_exact_cap.
  - destruct Hr as [Hb Hr]. apply (IH _ given); [|done|done].
    apply Put_exact; [done|]. rewrite Forall_forall in Hg. by apply Hg.
  - by apply (IH _ given).
Qed.

(** X14: on a new pool, in every run of [Get]s and [Put]s that puts back
    only buffers with the capacity of a buffer an earlier [Get] of the run
    handed out, whatever [sync.Pool] picks, every [Get(size)] hands out a
    buffer of length 0 and capacity at least [size]. *)
Theorem Get_contract_on_runs (calls : list Call) :
  returnsOnly NewBufferPool [] calls ->
  Forall (fun sb => data sb.2 = [] /\ sb.1 <= cap sb.2)
         (handedOut NewBufferPool calls).
Proof.
  apply run_contract; [apply NewBufferPool_exact|constructor].
Qed.

Lemma Get_contract_on_runs_witness :
  returnsOnly NewBufferPool [] sampleRun
  /\ Forall (fun sb => data sb.2 = [] /\ sb.1 <= cap sb.2)
            (handedOut NewBufferPool sampleRun).
Proof.
  assert (returnsOnly NewBufferPool [] sampleRun) as Hrun.
  { vm_compute. split; [left|split; [right; left|exact I]]. }
  split; [exact Hrun|exact (Get_contract_on_runs sampleRun Hrun)].
Defined.

End PoolRunFacts.

(** *** Reverse lookup in the family table *)
Module FamilyLookupFacts.
Import Go Families FamiliesFacts BuilderFacts FamilyLookup.
Local Open Scope go_scope.

Lemma hasModelID_true (members : list FamilyMember) (id : string) :
  hasModelID members id = true <-> exists m, m ∈ members /\ ModelID m = id.
Proof.
  induction members as [|m ms IH]; simpl.
  - split; [done|]. intros (m & Hm & _). by apply elem_of_nil in Hm.
  - destruct (String.eqb (ModelID m) id) eqn:E.
    + apply String.eqb_eq in E. split; [|done]. intros _. exists m. split; [left|done].
    + apply String.eqb_neq in E. rewrite IH. split.
      * intros (m' & Hm' & Hid). exists m'. split; [by right|done].
      * intros (m' & Hm' & Hid). apply elem_of_cons in Hm' as [->|Hm']; [done|].
        by exists m'.
Qed.

Lemma disjointFrom_spec (members : list FamilyMember)
    (others : list (string * list FamilyMember)) (id c : string)
    (f : list FamilyMember) :
  disjointFrom members others = true -> (c, f) ∈ others ->
  hasModelID members id = true -> hasModelID f id = true -> False.
Proof.
  induction others as [|[c' f'] rest IH]; simpl; intros Hd Hin Hm Hf.
  - by apply elem_of_nil in Hin.
  - apply andb_true_iff in Hd as [Hhead Hrest].
    apply elem_of_cons in Hin as [Heq|Hin]; [|by apply IH].
    injection Heq as -> ->.
    apply hasModelID_true in Hm as (m & Hm & <-).
    rewrite forallb_forall in Hhead. apply list_elem_of_In in Hm.
    specialize (Hhead m Hm). by rewrite Hf in Hhead.
Qed.

Lemma familiesDisjoint_oneFamily (table : list (string * list FamilyMember)) :
  familiesDisjoint table = true -> oneFamily table.
Proof.
  induction table as [|[k ms] rest IH]; simpl; intros Hd id c f c' f' Hin Hin' Hf Hf'.
  - by apply elem_of_nil in Hin.
  - apply andb_true_iff in Hd as [Hhead Hrest].
    apply elem_of_cons in Hin as [Heq|Hin]; apply elem_of_cons in Hin' as [Heq'|Hin'].
    + congruence.
    + injection Heq as -> ->. by destruct (disjointFrom_spec _ _ id c' f' Hhead Hin').
    + injection Heq' as -> ->. by destruct (disjointFrom_spec _ _ id c f Hhead Hin).
    + by apply (IH Hrest id c f c' f').
Qed.

Lemma GetCanonicalModelID_found (order : list (string * list FamilyMember))
    (id c : string) (f : list FamilyMember) :
  oneFamily order -> (c, f) ∈ order -> hasModelID f id = true ->
  GetCanonicalModelID order id = c.
Proof.
  induction order as [|[k ms] rest IH]; simpl; intros Hone Hin Hf.
  - by apply elem_of_nil in Hin.
  - destruct (hasModelID ms id) eqn:Hms.
    + apply (Hone id k ms c f); [by left|done|done|done].
    + apply elem_of_cons in Hin as [Heq|Hin]; [injection Heq as -> ->; congruence|].
      apply IH; [|done|done].
      intros id' c1 f1 c2 f2 H1 H2. apply Hone; by right.
Qed.

Lemma GetCanonicalModelID_none (order : list (string * list FamilyMember))
    (id : string) :
  (forall c f, (c, f) ∈ order -> hasModelID f id = false) ->
  GetCanonicalModelID order id = "".
Proof.
  induction order as [|[k ms] rest IH]; simpl; intros Hnone; [done|].
  rewrite (Hnone k ms) by left. apply IH. intros c f Hin. apply (Hnone c f). by right.
Qed.

Lemma table_NoDup : NoDup (ModelFamiliesTable.*1).
Proof.
  apply (bool_decide_unpack (NoDup (ModelFamiliesTable.*1))).
  vm_compute. reflexivity.
Qed.

Lemma table_entries : map_to_list ModelFamilies ≡ₚ ModelFamiliesTable.
Proof. unfold ModelFamilies. apply map_to_list_to_map, table_NoDup. Qed.

Lemma table_lookup (c : string) (f : list FamilyMember) :
  ModelFamilies !! c = Some f <-> (c, f) ∈ ModelFamiliesTable.
Proof.
  unfold ModelFamilies. split;
    [apply elem_of_list_to_map_2|apply elem_of_list_to_map_1, table_NoDup].
Qed.

Lemma table_oneFamily : oneFamily ModelFamiliesTable.
Proof. apply familiesDisjoint_oneFamily. vm_compute. reflexivity. Qed.

Lemma order_oneFamily (order : list (string * list FamilyMember)) :
  iterationOrder order -> oneFamily order.
Proof.
  unfold iterationOrder. rewrite table_entries. intros Hp id c f c' f'.
  rewrite !Hp. apply table_oneFamily.
Qed.

Lemma order_lookup (order : list (string * list FamilyMember)) (c : string)
    (f : list FamilyMember) :
  iterationOrder order -> ((c, f) ∈ order <-> ModelFamilies !! c = Some f).
Proof.
  unfold iterationOrder. rewrite table_entries. intros Hp.
  by rewrite Hp, table_lookup.
Qed.

Lemma table_keys_nonempty (c : string) (f : list FamilyMember) :
  ModelFamilies !! c = Some f -> c <> "".
Proof.
  rewrite table_lookup. intros Hin ->.
  assert (forallb (fun e => negb (String.eqb e.1 "")) ModelFamiliesTable = true)
    as Hall by (vm_compute; reflexivity).
  rewrite forallb_forall in Hall. apply list_elem_of_In in Hin.
  by specialize (Hall _ Hin).
Qed.

(** X15: the reverse lookup does not depend on the order in which Go
    visits the family table: for the model id of a member of a family it
    answers that family's canonical name, and it answers the empty string
    exactly for the model ids that no family contains. *)
Theorem GetCanonicalModelID_correct (order : list (string * list FamilyMember)) :
  iterationOrder order ->
  (forall canonicalID family m,
     ModelFamilies !! canonicalID = Some family -> m ∈ family ->
     GetCanonicalModelID order (ModelID m) = canonicalID)
  /\ (forall providerModelID,
        GetCanonicalModelID order providerModelID = ""
        <-> forall canonicalID family m,
              ModelFamilies !! canonicalID = Some family -> m ∈ family ->
              ModelID m <> providerModelID).
Proof.
  intros Ho.
  assert (forall c f m, ModelFamilies !! c = Some f -> m ∈ f ->
            GetCanonicalModelID order (ModelID m) = c) as Hmember.
  { intros c f m Hf Hm. apply (GetCanonicalModelID_found order _ _ f).
    - by apply order_oneFamily.
    - by apply order_lookup.
    - apply hasModelID_true. by exists m. }
  split; [exact Hmember|]. intros providerModelID. split.
  - intros Hempty c f m Hf Hm Hid.
    pose proof (Hmember c f m Hf Hm) as Hc. rewrite Hid, Hempty in Hc.
    subst c. by apply table_keys_nonempty in Hf.
  - intros Hnone. apply GetCanonicalModelID_none. intros c f Hin.
    apply (order_lookup order c f Ho) in Hin.
    destruct (hasModelID f providerModelID) eqn:Hh; [|done].
    apply hasModelID_true in Hh as (m & Hm & Hid). by destruct (Hnone c f m).
Qed.

Lemma index_elem_of {A} (l : list A) (i : Z) (a : A) : index l i = Ok a -> a ∈ l.
Proof.
  unfold index. destruct ((0 <=? i) && (i <? len l)); [|done].
  rewrite nth_error_lookup. destruct (l !! Z.to_nat i) eqn:Hl; [|done].
  intros [= <-]. by eapply list_elem_of_lookup_2.
Qed.

Section Resolve.
Context `{Rand}.

Lemma ResolveModelFamily_found_member (canonicalID : string)
    (availableProviders : list string) (provider modelID : string) :
  ResolveModelFamily canonicalID availableProviders = Ok (provider, modelID, true) ->
  exists family m, ModelFamilies !! canonicalID = Some family /\ m ∈ family
    /\ Provider m = provider /\ ModelID m = modelID
    /\ Provider m ∈ availableProviders.
Proof.
  unfold ResolveModelFamily.
  destruct (ModelFamilies !! canonicalID) as [family|] eqn:Hf; [|done].
  set (groups := groupByPriority (makeAvailableSet availableProviders) family).
  destruct (Z.of_nat (size groups) =? 0); [done|].
  destruct (index (sortedPriorities groups) 0) as [p0|]; [|done]. simpl.
  destruct (groups !! p0) as [l|] eqn:Hl; simpl.
  - destruct (group_members _ _ _ _ Hl) as [_ Hmem].
    assert (forall sel,
      (if len l =? 1 then index l 0
       else Go.bind (randIntn (len l)) (fun r => index l r)) = Ok sel -> sel ∈ l)
      as Hsel.
    { intros sel. destruct (len l =? 1); [apply index_elem_of|].
      destruct (randIntn (len l)); [apply index_elem_of|done]. }
    destruct (if len l =? 1 then index l 0
              else Go.bind (randIntn (len l)) (fun r => index l r)) as [sel|];
      [|done].
    simpl. intros [= <- <-]. destruct (Hmem sel (Hsel sel eq_refl)) as (? & ? & _).
    by exists family, sel.
  - change (len (@nil FamilyMember) =? 1) with false. cbv iota.
    unfold randIntn. by change (len (@nil FamilyMember) <=? 0) with true.
Qed.

(** X16: whatever [rand.Intn] yields and in whatever order Go visits the
    table, when [ResolveModelFamily] reports a match, the provider it names
    is one of the available ones, the canonical name is a family name, and
    the reverse lookup of the model id it returns leads back to the
    canonical name. *)
Theorem resolve_then_reverse (order : list (string * list FamilyMember))
    (canonicalID : string) (availableProviders : list string)
    (provider modelID : string) :
  iterationOrder order ->
  ResolveModelFamily canonicalID availableProviders = Ok (provider, modelID, true) ->
  provider ∈ availableProviders
  /\ IsCanonicalID canonicalID = true
  /\ GetCanonicalModelID order modelID = canonicalID.
Proof.
  intros Ho Hr.
  apply ResolveModelFamily_found_member in Hr as (f & m & Hf & Hm & <- & <- & Hav).
  split; [done|]. split; [unfold IsCanonicalID; by rewrite Hf|].
  apply (GetCanonicalModelID_found order _ _ f).
  - by apply order_oneFamily.
  - by apply order_lookup.
  - apply hasModelID_true. by exists m.
Qed.

End Resolve.

Lemma tableOrder : iterationOrder (map_to_list ModelFamilies).
Proof. unfold iterationOrder. reflexivity. Qed.

Lemma GetCanonicalModelID_correct_witness :
  (forall canonicalID family m,
     ModelFamilies !! canonicalID = Some family -> m ∈ family ->
     GetCanonicalModelID (reverse ModelFamiliesTable) (ModelID m) = canonicalID)
  /\ (forall providerModelID,
        GetCanonicalModelID (reverse ModelFamiliesTable) providerModelID = ""
        <-> forall canonicalID family m,
              ModelFamilies !! canonicalID = Some family -> m ∈ family ->
              ModelID m <> providerModelID).
Proof.
  apply GetCanonicalModelID_correct. unfold iterationOrder.
  rewrite table_entries. apply reverse_Permutation.
Defined.

Example reverse_lookup_run :
  GetCanonicalModelID (reverse ModelFamiliesTable) "gemini-claude-sonnet-4-5"
  = "claude-sonnet-4-5"
  /\ GetCanonicalModelID (reverse ModelFamiliesTable) "gpt-4o" = "".
Proof. vm_compute. by split. Qed.

Lemma resolve_then_reverse_witness :
  "antigravity" ∈ ["claude"; "antigravity"]
  /\ IsCanonicalID "claude-sonnet-4-5" = true
  /\ GetCanonicalModelID (map_to_list ModelFamilies) "gemini-claude-sonnet-4-5"
     = "claude-sonnet-4-5".
Proof.
  apply (@resolve_then_reverse alwaysFirst _ _ ["claude"; "antigravity"]).
  - exact tableOrder.
  - vm_compute. reflexivity.
Defined.

End FamilyLookupFacts.

(** *** Processing one result *)
Module ResultWorkerFacts.
Import Go Provider ProviderFacts ResultWorker.

Lemma registryCalls_app (l1 l2 : list Effect) :
  registryCalls (l1 ++ l2) = registryCalls l1 ++ registryCalls l2.
Proof.
  induction l1 as [|e l1 IH]; simpl; [done|]. destruct e; simpl; by rewrite ?IH.
Qed.

Lemma registryCalls_map (calls : list RegistryCall) :
  registryCalls (map OnRegistry calls) = calls.
Proof. induction calls as [|c calls IH]; simpl; by rewrite ?IH. Qed.

Section Worker.
Context `{ManagerHelpers}.

Lemma onStatusCode_flags (auth : Auth) (state : ModelState) (result : Result)
    (now : Time) (code : Z) :
  let r := onStatusCode auth state result now code noFlags in
  shouldResumeModel r.1.2 = false /\ clearModelQuota r.1.2 = false
  /\ setModelQuota r.1.2 = (code =? 429)
  /\ (if shouldSuspendModel r.1.2
      then [SuspendClientModel (AuthID result) (Model result) (suspendReason r.1.2)]
      else [])
     = (if code =? 429
        then [SuspendClientModel (AuthID result) (Model result) "quota"]
        else ownFailureCalls (AuthID result) (Model result) code)
  /\ exists affected, (code <> 429 -> affected = [])
       /\ r.2 = flat_map (fun affectedModel =>
                  [SetModelQuotaExceeded (AuthID result) affectedModel;
                   SuspendClientModel (AuthID result) affectedModel "quota_group"])
                affected.
Proof.
  cbv zeta. unfold onStatusCode, ownFailureCalls.
  destruct (code =? 401) eqn:E1.
  { apply Z.eqb_eq in E1 as ->. simpl. repeat split; try done; by exists (@nil string). }
  destruct ((code =? 402) || (code =? 403)) eqn:E2.
  { replace (code =? 429) with false by (symmetry; apply Z.eqb_neq; lia).
    simpl. repeat split; try done; by exists (@nil string). }
  destruct (code =? 404) eqn:E3.
  { apply Z.eqb_eq in E3 as ->. simpl. repeat split; try done; by exists (@nil string). }
  destruct (code =? 429) eqn:E4.
  { destruct (match RetryAfter result with
              | Some r => _
              | None => _
              end) as [next level].
    destruct (propagateQuotaToGroup _ _ _ _ _) as [auth3 affected].
    simpl. repeat split. exists affected.
    split; [intros Hne; apply Z.eqb_eq in E4; lia|done]. }
  destruct ((code =? 408) || (code =? 500) || (code =? 502) || (code =? 503)
            || (code =? 504));
    simpl; repeat split; by exists (@nil string).
Qed.

(** X17: a result without an auth id does nothing at all; a result for an
    auth the manager does not hold (no entry, or a nil entry) leaves the
    manager as it was, reaches neither the registry nor the store, and still
    goes to the hook, after the quota record that a 429 makes. *)
Theorem processResult_unknown_auth (m : Manager) (result : Result) (now : Time) :
  (AuthID result = "" -> processResult m result now = (m, []))
  /\ (AuthID result <> "" ->
      auths m !! AuthID result = None \/ auths m !! AuthID result = Some None ->
      exists quotaHit,
        processResult m result now = (m, quotaHit ++ [OnResult result])
        /\ (quotaHit = []
            \/ quotaHit = [RecordQuotaHit (AuthID result) (rProvider result)
                             (Model result) (RetryAfter result)]
               /\ selectorIsQuotaManager m = true
               /\ exists e, Error_ result = Some e /\ HTTPStatus e = 429)).
Proof.
  unfold processResult. split.
  - by intros ->.
  - intros Hid Hnone. apply String.eqb_neq in Hid. rewrite Hid.
    assert (match auths m !! AuthID result with
            | Some (Some auth) =>
                let '(auth, flags, calls) := updateAuthState auth result now noFlags in
                (withAuths m (<[AuthID result := Some auth]> (auths m)),
                 flags, calls, Some auth)
            | _ => (m, noFlags, [], None)
            end = (m, noFlags, [], None)) as ->.
    { by destruct Hnone as [-> | ->]. }
    simpl.
    destruct (Error_ result) as [e|] eqn:He; [|exists []; split; [done|by left]].
    destruct (HTTPStatus e =? 429) eqn:Hs; [|exists []; split; [done|by left]].
    destruct (selectorIsQuotaManager m) eqn:Hq; simpl;
      [|exists []; split; [done|by left]].
    exists [RecordQuotaHit (AuthID result) (rProvider result)
              (Model result) (RetryAfter result)].
    split; [done|]. right. split; [done|]. split; [done|].
    exists e. split; [done|]. by apply Z.eqb_eq.
Qed.

(** X18: for an auth the manager holds, the updated auth replaces the entry
    under its id and nothing else in the manager changes; what is persisted
    is that updated auth; persistence comes after every registry call and
    quota record, and the hook comes last. *)
Theorem processResult_persists_stored (m : Manager) (result : Result)
    (now : Time) (auth : Auth) :
  AuthID result <> "" ->
  auths m !! AuthID result = Some (Some auth) ->
  let auth' := (updateAuthState auth result now noFlags).1.1 in
  exists before,
    processResult m result now
    = (withAuths m (<[AuthID result := Some auth']> (auths m)),
       before ++ [Persist auth'; OnResult result])
    /\ Forall (fun e => match e with
                        | OnRegistry _ | RecordQuotaHit _ _ _ _ => True
                        | _ => False
                        end) before.
Proof.
  intros Hid Hauth. apply String.eqb_neq in Hid.
  unfold processResult. rewrite Hid, Hauth.
  destruct (updateAuthState auth result now noFlags) as [[auth' flags] calls].
  simpl.
  match goal with
  | |- context [map OnRegistry calls ++ ?a ++ ?b ++ ?c ++ ?q
                ++ [Persist auth'; OnResult result]] =>
      exists (map OnRegistry calls ++ a ++ b ++ c ++ q)
  end.
  split.
  - f_equal. by rewrite <- !app_assoc.
  - repeat apply Forall_app_2.
    + apply Forall_forall. intros e He. apply list_elem_of_fmap in He as (c & -> & _). done.
    + destruct (_ && _); by repeat constructor.
    + destruct (_ && _); by repeat constructor.
    + destruct (shouldResumeModel flags); [by repeat constructor|].
      destruct (shouldSuspendModel flags); by repeat constructor.
    + destruct (Error_ result) as [e|]; [|constructor].
      destruct (_ && _); by repeat constructor.
Qed.

Lemma updateAuthState_success (auth : Auth) (result : Result) (now : Time)
    (flags : Flags) :
  Success result = true -> Model result <> "" ->
  (updateAuthState auth result now flags).1.2 = markResumed flags
  /\ (updateAuthState auth result now flags).2
     = flat_map (fun clearedModel =>
                   [ClearModelQuotaExceeded (AuthID result) clearedModel;
                    ResumeClientModel (AuthID result) clearedModel])
                (groupClearing auth result now).2.
Proof.
  intros Hok Hmodel. unfold updateAuthState, groupClearing.
  rewrite Hok, (is_model_neq _ Hmodel). simpl negb. cbv iota.
  destruct (ensureModelState auth (Model result)) as [auth1 state1].
  by destruct (clearQuotaGroupOnSuccess _ _ _) as [auth2 cleared].
Qed.

Lemma updateAuthState_no_model (auth : Auth) (result : Result) (now : Time)
    (flags : Flags) :
  Model result = "" ->
  (updateAuthState auth result now flags).1.2 = flags
  /\ (updateAuthState auth result now flags).2 = [].
Proof.
  intros Hmodel. unfold updateAuthState. rewrite Hmodel. simpl.
  by destruct (Success result).
Qed.

(** The flags and the calls of a failure for a model are those of the
    status switch on the recorded auth and state. *)
Lemma updateAuthState_failure_recorded (auth : Auth) (result : Result)
    (now : Time) (flags : Flags) :
  Success result = false -> Model result <> "" ->
  let a := recordedAuth (ensureModelState auth (Model result)).1 result in
  let s := recorded (ensureModelState auth (Model result)).2 result now in
  (updateAuthState auth result now flags).1.2
  = (onStatusCode a s result now (statusCodeFromResult (Error_ result)) flags).1.2
  /\ (updateAuthState auth result now flags).2
     = (onStatusCode a s result now (statusCodeFromResult (Error_ result)) flags).2.
Proof.
  intros Hfail Hmodel. cbv zeta.
  unfold updateAuthState, recordedAuth, recorded, categoryOf.
  rewrite Hfail, (is_model_neq _ Hmodel). simpl negb. cbv iota.
  destruct (ensureModelState auth (Model result)) as [auth1 state1]. simpl fst. simpl snd.
  match goal with
  | |- context [isUserError ?c] => generalize (isUserError c); intros user
  end.
  destruct (Error_ result) as [e|], (negb user);
    match goal with
    | |- context [onStatusCode ?a ?s result now ?c flags] =>
        by destruct (onStatusCode a s result now c flags) as [[a' f'] c']
    end.
Qed.

(** The calls of the status switch: those for the models that
    [propagateQuotaToGroup] reports, in the 429 arm, and none elsewhere. *)
Lemma onStatusCode_calls (auth : Auth) (state : ModelState) (result : Result)
    (now : Time) (code : Z) (flags : Flags) :
  (onStatusCode auth state result now code flags).2
  = flat_map (fun affectedModel =>
                [SetModelQuotaExceeded (AuthID result) affectedModel;
                 SuspendClientModel (AuthID result) affectedModel "quota_group"])
             (if code =? 429 then (quotaArm auth state result now).2 else []).
Proof.
  unfold onStatusCode, quotaArm.
  destruct (code =? 401) eqn:E1.
  { apply Z.eqb_eq in E1 as ->. done. }
  destruct ((code =? 402) || (code =? 403)) eqn:E2.
  { by replace (code =? 429) with false by (symmetry; apply Z.eqb_neq; lia). }
  destruct (code =? 404) eqn:E3.
  { apply Z.eqb_eq in E3 as ->. done. }
  destruct (code =? 429) eqn:E4.
  { destruct (match RetryAfter result with
              | Some r => _
              | None => _
              end) as [next level].
    by destruct (propagateQuotaToGroup _ _ _ _ _) as [auth3 affected]. }
  by destruct ((code =? 408) || (code =? 500) || (code =? 502) || (code =? 503)
               || (code =? 504)).
Qed.

(** X19: a failed result for a model of an auth the manager holds never
    resumes a model nor clears a quota mark.  The registry is told, first and
    only for a 429, to mark the quota of and to suspend (reason quota_group)
    each model that [propagateQuotaToGroup] reports for the quota hit; then,
    for the model of the result, to suspend it for the status codes 401,
    402, 403, 404 and 429 (reasons unauthorized, payment_required, not_found
    and quota), to mark its quota exceeded for 429, and nothing for any
    other code. *)
Theorem failure_registry_calls (m : Manager) (result : Result) (now : Time)
    (auth : Auth) :
  AuthID result <> "" ->
  auths m !! AuthID result = Some (Some auth) ->
  Success result = false ->
  Model result <> "" ->
  let code := statusCodeFromResult (Error_ result) in
  registryCalls (processResult m result now).2
  = flat_map (fun affectedModel =>
                [SetModelQuotaExceeded (AuthID result) affectedModel;
                 SuspendClientModel (AuthID result) affectedModel "quota_group"])
             (if code =? 429 then (quotaPropagation auth result now).2 else [])
    ++ ownFailureCalls (AuthID result) (Model result) code.
Proof.
  intros Hid Hauth Hfail Hmodel code.
  destruct (updateAuthState_failure_recorded auth result now noFlags Hfail Hmodel)
    as (Hflags & Hcalls).
  cbv zeta in Hflags, Hcalls. fold code in Hflags, Hcalls.
  rewrite onStatusCode_calls in Hcalls.
  assert ((quotaArm (recordedAuth (ensureModelState auth (Model result)).1 result)
             (recorded (ensureModelState auth (Model result)).2 result now)
             result now).2
          = (quotaPropagation auth result now).2) as Hprop.
  { unfold quotaPropagation. by destruct (ensureModelState auth (Model result)). }
  rewrite Hprop in Hcalls.
  match type of Hflags with
  | _ = (onStatusCode ?a ?s result now code noFlags).1.2 =>
      destruct (onStatusCode_flags a s result now code)
        as (Hres & Hclr & Hset & Hsus & _)
  end.
  rewrite <- Hflags in Hres, Hclr, Hset, Hsus.
  apply String.eqb_neq in Hid. unfold processResult. rewrite Hid, Hauth.
  destruct (updateAuthState auth result now noFlags) as [[auth' flags] calls].
  simpl in *. rewrite !registryCalls_app, registryCalls_map, Hcalls.
  rewrite Hres, Hclr, Hset, (is_model_neq _ Hmodel). simpl.
  f_equal.
  assert (registryCalls
            (if shouldSuspendModel flags
             then [OnRegistry (SuspendClientModel (AuthID result) (Model result)
                                 (suspendReason flags))]
             else [])
          = if shouldSuspendModel flags
            then [SuspendClientModel (AuthID result) (Model result)
                    (suspendReason flags)]
            else []) as -> by (by destruct (shouldSuspendModel flags)).
  rewrite Hsus.
  assert (registryCalls
            (match Error_ result with
             | Some e =>
                 if (HTTPStatus e =? 429) && selectorIsQuotaManager m
                 then [RecordQuotaHit (AuthID result) (rProvider result)
                         (Model result) (RetryAfter result)]
                 else []
             | None => []
             end) = []) as ->.
  { destruct (Error_ result); [|done]. by destruct (_ && _). }
  rewrite app_nil_r. unfold ownFailureCalls.
  by destruct (code =? 429).
Qed.

(** X20: a successful result for a model of an auth the manager holds
    never suspends a model nor marks a quota exceeded: the registry is told
    to clear the quota mark of, and to resume, each model that
    [clearQuotaGroupOnSuccess] reports for the success, and then the model
    of the result itself. *)
Theorem success_registry_calls (m : Manager) (result : Result) (now : Time)
    (auth : Auth) :
  AuthID result <> "" ->
  auths m !! AuthID result = Some (Some auth) ->
  Success result = true ->
  Model result <> "" ->
  registryCalls (processResult m result now).2
  = flat_map (fun clearedModel =>
                [ClearModelQuotaExceeded (AuthID result) clearedModel;
                 ResumeClientModel (AuthID result) clearedModel])
             ((groupClearing auth result now).2 ++ [Model result]).
Proof.
  intros Hid Hauth Hok Hmodel.
  destruct (updateAuthState_success auth result now noFlags Hok Hmodel)
    as (Hflags & Hcalls).
  apply String.eqb_neq in Hid. unfold processResult. rewrite Hid, Hauth.
  destruct (updateAuthState auth result now noFlags) as [[auth' flags] calls].
  simpl in *. subst flags calls.
  rewrite (is_model_neq _ Hmodel). simpl.
  rewrite !registryCalls_app, registryCalls_map, flat_map_app. simpl.
  f_equal. f_equal. f_equal.
  destruct (Error_ result); [|done]. by destruct (_ && _).
Qed.

(** X21: a result that names no model reaches the registry with no call,
    whatever the manager holds and whether it is a success or a failure. *)
Theorem no_model_no_registry_calls (m : Manager) (result : Result) (now : Time) :
  Model result = "" ->
  registryCalls (processResult m result now).2 = [].
Proof.
  intros Hmodel. unfold processResult.
  destruct (String.eqb (AuthID result) ""); [done|].
  assert (exists m' authToStore,
    match auths m !! AuthID result with
    | Some (Some auth) =>
        let '(auth, flags, calls) := updateAuthState auth result now noFlags in
        (withAuths m (<[AuthID result := Some auth]> (auths m)),
         flags, calls, Some auth)
    | _ => (m, noFlags, [], None)
    end = (m', noFlags, [], authToStore)) as (m' & store & ->).
  { destruct (auths m !! AuthID result) as [[auth|]|]; [|by eauto..].
    destruct (updateAuthState_no_model auth result now noFlags Hmodel) as [Hf Hc].
    destruct (updateAuthState auth result now noFlags) as [[auth' flags] calls].
    simpl in Hf, Hc. subst flags calls. eauto. }
  simpl. destruct (Error_ result) as [e|], store as [a|]; simpl; try done;
    by destruct (_ && _).
Qed.

(** Every arm of the status switch other than 429 stores the state with
    the retry time of its status code. *)
Lemma onStatusCode_wait (auth : Auth) (state : ModelState) (result : Result)
    (now : Time) (code : Z) (flags : Flags) :
  code <> 429 ->
  (onStatusCode auth state result now code flags).1.1
  = storeModelState auth (Model result)
      (withNextRetryAfter state (Add now (failureWait code))).
Proof.
  intros Hne. unfold onStatusCode, failureWait.
  replace (code =? 429) with false by (symmetry; by apply Z.eqb_neq).
  destruct (code =? 401); [done|].
  destruct ((code =? 402) || (code =? 403)); [done|].
  destruct (code =? 404); [done|].
  by destruct ((code =? 408) || (code =? 500) || (code =? 502) || (code =? 503)
               || (code =? 504)).
Qed.

End Worker.

Section FailureState.
Context `{ManagerHelpers}.

Hypothesis propagate_keeps_source :
  forall a m q next now,
    ModelStates (propagateQuotaToGroup a m q next now).1 !! m = ModelStates a !! m.
Hypothesis propagate_keeps_status :
  forall a m q next now,
    Status_ (propagateQuotaToGroup a m q next now).1 = Status_ a
    /\ LastError (propagateQuotaToGroup a m q next now).1 = LastError a
    /\ StatusMessage (propagateQuotaToGroup a m q next now).1 = StatusMessage a.
Hypothesis aggregate_keeps_states :
  forall a now, ModelStates (updateAggregatedAvailability a now) = ModelStates a.
Hypothesis aggregate_keeps_status :
  forall a now,
    Status_ (updateAggregatedAvailability a now) = Status_ a
    /\ LastError (updateAggregatedAvailability a now) = LastError a
    /\ StatusMessage (updateAggregatedAvailability a now) = StatusMessage a.

(** The state of the model after a failure: what was recorded, then the
    retry time, and for a 429 the quota. *)
Lemma failure_state (auth : Auth) (result : Result) (now : Time) (flags : Flags) :
  Success result = false -> Model result <> "" ->
  let prior := (ensureModelState auth (Model result)).2 in
  let code := statusCodeFromResult (Error_ result) in
  let state := recorded prior result now in
  stateAfter auth result now flags
  = Some
      (if code =? 429 then
         let '(next, level) :=
           match RetryAfter result with
           | Some retryAfter => (Add now retryAfter, BackoffLevel (Quota prior))
           | None =>
               let '(cooldown, nextLevel) :=
                 nextQuotaCooldown (BackoffLevel (Quota prior)) in
               (if 0 <? cooldown then Add now cooldown else zeroTime, nextLevel)
           end in
         withQuota (withNextRetryAfter state next)
           {| Exceeded := true; Reason := "quota"; NextRecoverAt := next;
              BackoffLevel := level |}
       else withNextRetryAfter state (Add now (failureWait code))).
Proof.
  intros Hfail Hmodel prior code state. subst state prior.
  unfold stateAfter, updateAuthState, recorded, categoryOf.
  rewrite Hfail, (is_model_neq _ Hmodel). simpl negb. cbv iota.
  destruct (ensureModelState auth (Model result)) as [auth1 prior]. simpl snd.
  fold code.
  match goal with
  | |- context [isUserError ?c] => generalize (isUserError c); intros user
  end.
  set (s1 := withStateUpdatedAt (if negb user then withStateFailure prior else prior) now).
  assert (exists auth2,
    match Error_ result with
    | Some e =>
        if negb user
        then (withStateError s1 (Some (cloneError e)) (Message e),
              withAuthError auth1 (Some (cloneError e)) (Message e))
        else (s1, auth1)
    | None => (s1, auth1)
    end = (match Error_ result with
           | Some e =>
               if negb user then withStateError s1 (Some (cloneError e)) (Message e)
               else s1
           | None => s1
           end, auth2)) as (auth2 & ->).
  { destruct (Error_ result), (negb user); eauto. }
  set (s2 := match Error_ result with
             | Some e => _
             | None => s1
             end).
  destruct (code =? 429) eqn:Hcode.
  - apply Z.eqb_eq in Hcode. rewrite Hcode.
    unfold onStatusCode. simpl Z.eqb. cbv iota. simpl orb. cbv iota.
    assert (BackoffLevel (Quota s2) = BackoffLevel (Quota prior)) as ->.
    { subst s2 s1. by destruct (Error_ result), (negb user). }
    destruct (match RetryAfter result with
              | Some r => _
              | None => _
              end) as [next level].
    match goal with
    | |- context [propagateQuotaToGroup ?a ?m ?q ?n now] =>
        pose proof (propagate_keeps_source a m q n now) as Hprop;
        destruct (propagateQuotaToGroup a m q n now) as [auth3 affected]
    end.
    simpl in Hprop. rewrite lookup_insert_eq in Hprop.
    simpl. rewrite aggregate_keeps_states.
    destruct (negb user); simpl; exact Hprop.
  - apply Z.eqb_neq in Hcode.
    pose proof (onStatusCode_wait auth2 s2 result now code flags Hcode) as Hw.
    destruct (onStatusCode auth2 s2 result now code flags) as [[auth3 flags3] calls3].
    simpl in Hw. subst auth3. simpl. rewrite aggregate_keeps_states.
    destruct (negb user); simpl; apply lookup_insert_eq.
Qed.

(** The status, the last error and the message of the auth after a
    failure for a model. *)
Lemma failure_auth (auth : Auth) (result : Result) (now : Time) (flags : Flags) :
  Success result = false -> Model result <> "" ->
  let auth' := (updateAuthState auth result now flags).1.1 in
  let user := isUserError (categoryOf result) in
  Status_ auth' = (if negb user then StatusError else Status_ auth)
  /\ LastError auth'
     = match Error_ result with
       | Some e => if negb user then Some (cloneError e) else LastError auth
       | None => LastError auth
       end
  /\ StatusMessage auth'
     = match Error_ result with
       | Some e => if negb user then Message e else StatusMessage auth
       | None => StatusMessage auth
       end.
Proof.
  intros Hfail Hmodel. cbv zeta. unfold updateAuthState, categoryOf.
  rewrite Hfail, (is_model_neq _ Hmodel). simpl negb. cbv iota.
  pose proof (ensureModelState_status auth (Model result)) as (Hs & He & Hm & _).
  destruct (ensureModelState auth (Model result)) as [auth1 state1].
  simpl in Hs, He, Hm. rewrite <- Hs, <- He, <- Hm.
  set (code := statusCodeFromResult (Error_ result)).
  match goal with
  | |- context [isUserError ?c] => generalize (isUserError c); intros user
  end.
  set (s1 := withStateUpdatedAt (if negb user then withStateFailure state1 else state1) now).
  assert (forall a s,
    let a' := (onStatusCode a s result now code flags).1.1 in
    Status_ a' = Status_ a /\ LastError a' = LastError a
    /\ StatusMessage a' = StatusMessage a) as Hkeep.
  { intros a s. destruct (decide (code = 429)) as [->|Hne].
    - unfold onStatusCode. simpl Z.eqb. cbv iota. simpl orb. cbv iota.
      destruct (match RetryAfter result with
                | Some r => _
                | None => _
                end) as [next level].
      match goal with
      | |- context [propagateQuotaToGroup ?a ?m ?q ?n now] =>
          pose proof (propagate_keeps_status a m q n now) as Hprop;
          destruct (propagateQuotaToGroup a m q n now) as [auth3 affected]
      end.
      exact Hprop.
    - by rewrite (onStatusCode_wait a s result now code flags Hne). }
  destruct (Error_ result) as [e|], (negb user);
    match goal with
    | |- context [onStatusCode ?a ?s result now code flags] =>
        destruct (Hkeep a s) as (H1 & H2 & H3);
        destruct (onStatusCode a s result now code flags) as [[auth2 flags2] calls2]
    end;
    simpl in *;
    match goal with
    | |- context [updateAggregatedAvailability ?a now] =>
        destruct (aggregate_keeps_status a now) as (Ha & Hb & Hc);
        rewrite Ha, Hb, Hc
    end; simpl; by rewrite ?H1, ?H2, ?H3.
Qed.

(** X22: a failed result for a model with a status code other than 429
    leaves the model's state stamped with the time of processing and with a
    retry time 30 minutes ahead for 401, 402 and 403, 12 hours for 404, one
    minute for 408, 500, 502, 503 and 504, and 30 seconds for any other
    code, user errors included. *)
Theorem failure_retry_time (auth : Auth) (result : Result) (now : Time)
    (flags : Flags) :
  Success result = false ->
  Model result <> "" ->
  statusCodeFromResult (Error_ result) <> 429 ->
  exists state,
    stateAfter auth result now flags = Some state
    /\ NextRetryAfter state
       = Add now (failureWait (statusCodeFromResult (Error_ result)))
    /\ mUpdatedAt state = now.
Proof.
  intros Hfail Hmodel Hcode.
  pose proof (failure_state auth result now flags Hfail Hmodel) as Hstate.
  cbv zeta in Hstate. apply Z.eqb_neq in Hcode. rewrite Hcode in Hstate.
  eexists. split; [exact Hstate|]. split; [done|].
  unfold recorded. simpl.
  by destruct (Error_ result), (negb (isUserError (categoryOf result))).
Qed.

(** X23: a 429 for a model that has a state.  Without a retry-after
    duration the cooldown ladder decides: the model's quota takes the next
    backoff level, and recovery and retry are set to [now] plus the cooldown
    of the current level, or to the zero time when that cooldown is not
    positive.  With a retry-after duration the backoff level stays as it
    was. *)
Theorem quota_backoff (auth : Auth) (result : Result) (now : Time)
    (flags : Flags) (prior : ModelState) :
  Success result = false ->
  Model result <> "" ->
  statusCodeFromResult (Error_ result) = 429 ->
  ModelStates auth !! Model result = Some prior ->
  exists state,
    stateAfter auth result now flags = Some state
    /\ Exceeded (Quota state) = true
    /\ Reason (Quota state) = "quota"
    /\ NextRetryAfter state = NextRecoverAt (Quota state)
    /\ match RetryAfter result with
       | Some _ => BackoffLevel (Quota state) = BackoffLevel (Quota prior)
       | None =>
           let cooldown := (nextQuotaCooldown (BackoffLevel (Quota prior))).1 in
           BackoffLevel (Quota state)
           = (nextQuotaCooldown (BackoffLevel (Quota prior))).2
           /\ NextRecoverAt (Quota state)
              = (if 0 <? cooldown then Add now cooldown else zeroTime)
       end.
Proof.
  intros Hfail Hmodel Hcode Hprior.
  pose proof (failure_state auth result now flags Hfail Hmodel) as Hstate.
  cbv zeta in Hstate. rewrite Hcode in Hstate. simpl Z.eqb in Hstate.
  cbv iota in Hstate.
  assert ((ensureModelState auth (Model result)).2 = prior) as Hp
    by (unfold ensureModelState; by rewrite Hprior).
  rewrite Hp in Hstate.
  destruct (RetryAfter result) as [d|].
  - eexists. split; [exact Hstate|]. done.
  - destruct (nextQuotaCooldown (BackoffLevel (Quota prior))) as [cooldown level].
    eexists. split; [exact Hstate|]. done.
Qed.

(** X24: a failed result for a model whose category is not a user error is
    recorded: the model's state is flagged unavailable with status error and
    stamped, the auth's status becomes error, and the error of the result,
    when it has one, becomes the last error and the status message of both
    the state and the auth. *)
Theorem failure_recorded (auth : Auth) (result : Result) (now : Time)
    (flags : Flags) :
  Success result = false ->
  Model result <> "" ->
  categoryOf result <> CategoryUserError ->
  let auth' := (updateAuthState auth result now flags).1.1 in
  exists state,
    ModelStates auth' !! Model result = Some state
    /\ Unavailable state = true
    /\ mStatus state = StatusError
    /\ mUpdatedAt state = now
    /\ Status_ auth' = StatusError
    /\ forall e, Error_ result = Some e ->
         mLastError state = Some (cloneError e)
         /\ mStatusMessage state = Message e
         /\ LastError auth' = Some (cloneError e)
         /\ StatusMessage auth' = Message e.
Proof.
  intros Hfail Hmodel Hcat auth'.
  pose proof (failure_state auth result now flags Hfail Hmodel) as Hstate.
  pose proof (failure_auth auth result now flags Hfail Hmodel) as (Hs & He & Hm).
  cbv zeta in Hstate, Hs, He, Hm. unfold stateAfter in Hstate. fold auth' in Hstate, Hs, He, Hm.
  assert (isUserError (categoryOf result) = false) as Huser
    by (by destruct (categoryOf result)).
  rewrite Huser in Hs, He, Hm. simpl in Hs, He, Hm.
  eexists. split; [exact Hstate|].
  unfold recorded. rewrite Huser. simpl negb. cbv iota.
  destruct (statusCodeFromResult (Error_ result) =? 429).
  - destruct (match RetryAfter result with
              | Some r => _
              | None => _
              end) as [next level].
    destruct (Error_ result) as [e|]; simpl;
      (split; [done|]); (split; [done|]); (split; [done|]); (split; [exact Hs|]);
      intros e' Heq; [injection Heq as <-; by rewrite He, Hm|discriminate].
  - destruct (Error_ result) as [e|]; simpl;
      (split; [done|]); (split; [done|]); (split; [done|]); (split; [exact Hs|]);
      intros e' Heq; [injection Heq as <-; by rewrite He, Hm|discriminate].
Qed.

End FailureState.

Section WorkerWitnesses.
Import ProviderScenario.

Lemma processResult_persists_stored_witness :
  let result := failure "claude-sonnet-4-5" 500 "overloaded" None in
  let auth' := (@updateAuthState helpers (newAuth 1000) result 5000 noFlags).1.1 in
  exists before,
    @processResult helpers sampleManager result 5000
    = (withAuths sampleManager (<[AuthID result := Some auth']> (auths sampleManager)),
       before ++ [Persist auth'; OnResult result])
    /\ Forall (fun e => match e with
                        | OnRegistry _ | RecordQuotaHit _ _ _ _ => True
                        | _ => False
                        end) before.
Proof.
  cbv zeta. apply (@processResult_persists_stored helpers).
  - discriminate.
  - vm_compute. reflexivity.
Defined.

(** A 429 on a model of the quota group: the two other models of the
    group are marked and suspended, then the model itself. *)
Lemma failure_registry_calls_witness :
  let result := failure "claude-sonnet-4-5" 429 "rate limited" None in
  registryCalls (@processResult groupHelpers sampleManager result 5000).2
  = flat_map (fun affectedModel =>
                [SetModelQuotaExceeded (AuthID result) affectedModel;
                 SuspendClientModel (AuthID result) affectedModel "quota_group"])
             (if @statusCodeFromResult groupHelpers (Error_ result) =? 429
              then (@quotaPropagation groupHelpers (newAuth 1000) result 5000).2
              else [])
    ++ ownFailureCalls (AuthID result) (Model result)
         (@statusCodeFromResult groupHelpers (Error_ result)).
Proof.
  cbv zeta. apply (@failure_registry_calls groupHelpers _ _ _ (newAuth 1000)).
  - discriminate.
  - vm_compute. reflexivity.
  - reflexivity.
  - discriminate.
Defined.

Example quota_group_calls :
  registryCalls
    (@processResult groupHelpers sampleManager
       (failure "claude-sonnet-4-5" 429 "rate limited" None) 5000).2
  = [ SetModelQuotaExceeded "auth-A" "claude-opus-4-5";
      SuspendClientModel "auth-A" "claude-opus-4-5" "quota_group";
      SetModelQuotaExceeded "auth-A" "claude-haiku-4-5";
      SuspendClientModel "auth-A" "claude-haiku-4-5" "quota_group";
      SetModelQuotaExceeded "auth-A" "claude-sonnet-4-5";
      SuspendClientModel "auth-A" "claude-sonnet-4-5" "quota" ].
Proof. vm_compute. reflexivity. Qed.

(** A success on a model of the quota group: the other model the helper
    reports is cleared and resumed, then the model itself. *)
Lemma success_registry_calls_witness :
  let result := success "claude-sonnet-4-5" in
  registryCalls (@processResult groupHelpers sampleManager result 5000).2
  = flat_map (fun clearedModel =>
                [ClearModelQuotaExceeded (AuthID result) clearedModel;
                 ResumeClientModel (AuthID result) clearedModel])
             ((@groupClearing groupHelpers (newAuth 1000) result 5000).2
              ++ [Model result]).
Proof.
  cbv zeta. apply (@success_registry_calls groupHelpers _ _ _ (newAuth 1000)).
  - discriminate.
  - vm_compute. reflexivity.
  - reflexivity.
  - discriminate.
Defined.

Example group_clearing_calls :
  registryCalls
    (@processResult groupHelpers sampleManager (success "claude-sonnet-4-5") 5000).2
  = [ ClearModelQuotaExceeded "auth-A" "claude-opus-4-5";
      ResumeClientModel "auth-A" "claude-opus-4-5";
      ClearModelQuotaExceeded "auth-A" "claude-sonnet-4-5";
      ResumeClientModel "auth-A" "claude-sonnet-4-5" ].
Proof. vm_compute. reflexivity. Qed.

Lemma no_model_no_registry_calls_witness :
  registryCalls
    (@processResult helpers sampleManager (failure "" 429 "rate limited" None) 5000).2
  = [].
Proof. apply (@no_model_no_registry_calls helpers). reflexivity. Defined.

Lemma failure_retry_time_witness :
  let result := failure "claude-sonnet-4-5" 404 "no such model" None in
  exists state,
    @stateAfter helpers (newAuth 1000) result 5000 noFlags = Some state
    /\ NextRetryAfter state
       = Add 5000 (failureWait (@statusCodeFromResult helpers (Error_ result)))
    /\ mUpdatedAt state = 5000.
Proof.
  cbv zeta.
  apply (@failure_retry_time helpers
           Witnesses.helpers_propagate_keeps_source
           Witnesses.helpers_aggregate_keeps_states).
  - reflexivity.
  - discriminate.
  - vm_compute. discriminate.
Defined.

Lemma quota_backoff_witness :
  let result := failure "claude-sonnet-4-5" 429 "rate limited" None in
  exists state,
    @stateAfter helpers throttledAuth result 5000 noFlags = Some state
    /\ Exceeded (Quota state) = true
    /\ Reason (Quota state) = "quota"
    /\ NextRetryAfter state = NextRecoverAt (Quota state)
    /\ match RetryAfter result with
       | Some _ => BackoffLevel (Quota state) = BackoffLevel (Quota throttledState)
       | None =>
           let cooldown :=
             (@nextQuotaCooldown helpers (BackoffLevel (Quota throttledState))).1 in
           BackoffLevel (Quota state)
           = (@nextQuotaCooldown helpers (BackoffLevel (Quota throttledState))).2
           /\ NextRecoverAt (Quota state)
              = (if 0 <? cooldown then Add 5000 cooldown else zeroTime)
       end.
Proof.
  cbv zeta.
  apply (@quota_backoff helpers
           Witnesses.helpers_propagate_keeps_source
           Witnesses.helpers_aggregate_keeps_states).
  - reflexivity.
  - discriminate.
  - reflexivity.
  - vm_compute. reflexivity.
Defined.

Lemma failure_recorded_witness :
  let result := failure "claude-sonnet-4-5" 503 "overloaded" None in
  let auth' := (@updateAuthState helpers (newAuth 1000) result 5000 noFlags).1.1 in
  exists state,
    ModelStates auth' !! Model result = Some state
    /\ Unavailable state = true
    /\ mStatus state = StatusError
    /\ mUpdatedAt state = 5000
    /\ Status_ auth' = StatusError
    /\ forall e, Error_ result = Some e ->
         mLastError state = Some (@cloneError helpers e)
         /\ mStatusMessage state = Message e
         /\ LastError auth' = Some (@cloneError helpers e)
         /\ StatusMessage auth' = Message e.
Proof.
  cbv zeta.
  apply (@failure_recorded helpers
           Witnesses.helpers_propagate_keeps_source
           Witnesses.helpers_propagate_keeps_status
           Witnesses.helpers_aggregate_keeps_states
           Witnesses.helpers_aggregate_keeps_status).
  - reflexivity.
  - discriminate.
  - vm_compute. discriminate.
Defined.

End WorkerWitnesses.
End ResultWorkerFacts.

(** *** The registry of OAuth requests *)
Module OAuthFacts.
Import Go OAuth.
Local Open Scope go_scope.

Lemma trySend_open (ch : Chan) (v : option OAuthResult) :
  closed ch = false ->
  exists ch', trySend ch v = Ok ch' /\ closed ch' = false
    /\ (waiting ch = [] -> waiting ch' = [v])
    /\ (waiting ch <> [] -> ch' = ch).
Proof.
  intros Hopen. unfold trySend. rewrite Hopen.
  destruct (waiting ch) as [|x xs] eqn:Hw; simpl.
  - eexists. split; [done|]. by repeat split.
  - destruct xs; simpl; eexists; (split; [done|]); by repeat split.
Qed.

Lemma store_wellFormed (r : Registry) (p : pointer) (req req' : OAuthRequest) :
  wellFormed r -> heap r !! p = Some req ->
  ID req' = ID req -> State req' = State req ->
  channelClosed req' = false -> closed (ResultChan req') = false ->
  wellFormed (store r p req').
Proof.
  intros [Hreq Hid] Hp HID HState Hflag Hopen. split; simpl.
  - intros state p0 Hs. destruct (Hreq state p0 Hs) as (q & Hq & Hst & Hf & Ho).
    destruct (decide (p0 = p)) as [->|Hne].
    + exists req'. rewrite list_lookup_insert_eq by (by eapply lookup_lt_Some).
      rewrite Hp in Hq. injection Hq as <-. by rewrite HState.
    + exists q. by rewrite list_lookup_insert_ne.
  - intros id p0 Hi. destruct (Hid id p0 Hi) as (q & Hq & Hq').
    destruct (decide (p0 = p)) as [->|Hne].
    + exists req'. rewrite list_lookup_insert_eq by (by eapply lookup_lt_Some).
      rewrite Hp in Hq. injection Hq as <-. by rewrite HID.
    + exists q. by rewrite list_lookup_insert_ne.
Qed.

Lemma insertNew_wellFormed (r : Registry) (state id : string) (req : OAuthRequest) :
  wellFormed r -> State req = state -> ID req = id ->
  channelClosed req = false -> closed (ResultChan req) = false ->
  wellFormed (insertNew r state id req).2.
Proof.
  intros [Hreq Hid] HState HID Hflag Hopen. split; simpl.
  - intros s p Hs. destruct (decide (s = state)) as [->|Hne].
    + rewrite lookup_insert_eq in Hs. injection Hs as <-.
      exists req. split; [|done].
      rewrite lookup_app_r by done. by rewrite Nat.sub_diag.
    + rewrite lookup_insert_ne in Hs by done.
      destruct (Hreq s p Hs) as (q & Hq & ?). exists q. split; [|done].
      by apply lookup_app_l_Some.
  - intros i p Hi. destruct (decide (i = id)) as [->|Hne].
    + rewrite lookup_insert_eq in Hi. injection Hi as <-.
      exists req. split; [|done].
      rewrite lookup_app_r by done. by rewrite Nat.sub_diag.
    + rewrite lookup_insert_ne in Hi by done.
      destruct (Hid i p Hi) as (q & Hq & ?). exists q. split; [|done].
      by apply lookup_app_l_Some.
Qed.

Lemma unlink_wellFormed (r : Registry) (state id : string) :
  wellFormed r -> wellFormed (unlink r state id).
Proof.
  intros [Hreq Hid]. split; simpl.
  - intros s p Hs. apply lookup_delete_Some in Hs as [_ Hs]. by apply Hreq.
  - intros i p Hi. apply lookup_delete_Some in Hi as [_ Hi]. by apply Hid.
Qed.

(** Once a request is unlinked from both maps, a write through its pointer
    touches no request the maps still reach. *)
Lemma unlink_store_wellFormed (r : Registry) (state : string) (p : pointer)
    (req req' : OAuthRequest) :
  wellFormed r -> requests r !! state = Some p -> heap r !! p = Some req ->
  wellFormed (store (unlink r state (ID req)) p req').
Proof.
  intros [Hreq Hid] Hs Hp. split; simpl.
  - intros s p0 Hs0. apply lookup_delete_Some in Hs0 as [Hne Hs0].
    destruct (Hreq s p0 Hs0) as (q & Hq & Hst & Hrest).
    destruct (Hreq state p Hs) as (q' & Hq' & Hst' & _).
    exists q. split; [|done]. rewrite list_lookup_insert_ne; [done|].
    intros <-. congruence.
  - intros i p0 Hi0. apply lookup_delete_Some in Hi0 as [Hne Hi0].
    destruct (Hid i p0 Hi0) as (q & Hq & HID).
    exists q. split; [|done]. rewrite list_lookup_insert_ne; [done|].
    intros <-. congruence.
Qed.

Lemma NewRegistry_wellFormed : wellFormed NewRegistry.
Proof. split; simpl; intros ? ? Hl; by rewrite lookup_empty in Hl. Qed.

Lemma Register_wellFormed r rnd1 rnd2 provider mode now :
  wellFormed r -> wellFormed (Register r rnd1 rnd2 provider mode now).2.
Proof.
  intros Hwf. unfold Register. destruct rnd1 as [state|]; [|done].
  destruct rnd2 as [id|]; [|done].
  by apply (insertNew_wellFormed r state id).
Qed.

Lemma Create_wellFormed r state provider mode now :
  wellFormed r -> wellFormed (Create r state provider mode now).2.
Proof. intros Hwf. by apply (insertNew_wellFormed r state state). Qed.

Lemma Complete_wellFormed r state result :
  wellFormed r ->
  exists b r', Complete r state result = Ok (b, r') /\ wellFormed r'.
Proof.
  intros Hwf. unfold Complete.
  destruct (requests r !! state) as [p|] eqn:Hs; [|by eauto].
  destruct (proj1 Hwf state p Hs) as (req & Hp & Hst & Hflag & Hopen).
  unfold load. rewrite Hp. simpl.
  destruct (isPending (Status req)); simpl; [|by eauto].
  destruct (trySend_open (ResultChan req) result Hopen) as (ch & -> & Hch & _).
  simpl. eexists _, _. split; [done|].
  by apply (store_wellFormed r p req).
Qed.

Lemma Fail_wellFormed r state errMsg :
  wellFormed r ->
  exists r', Fail r state errMsg = Ok (true, r') /\ wellFormed r'.
Proof.
  intros Hwf. unfold Fail.
  destruct (requests r !! state) as [p|] eqn:Hs.
  - destruct (proj1 Hwf state p Hs) as (req & Hp & Hst & Hflag & Hopen).
    unfold load. rewrite Hp. simpl.
    destruct (trySend_open (ResultChan req)
                (Some {| Code := ""; rState := state; rError := errMsg |}) Hopen)
      as (ch & -> & Hch & _).
    simpl. eexists. split; [done|]. by apply (store_wellFormed r p req).
  - eexists. split; [done|]. by apply insertNew_wellFormed.
Qed.

Lemma Cancel_wellFormed r state :
  wellFormed r ->
  exists b r', Cancel r state = Ok (b, r') /\ wellFormed r'.
Proof.
  intros Hwf. unfold Cancel.
  destruct (requests r !! state) as [p|] eqn:Hs; [|by eauto].
  destruct (proj1 Hwf state p Hs) as (req & Hp & Hst & Hflag & Hopen).
  unfold load. rewrite Hp. simpl.
  destruct (isPending (Status req)); simpl; [|by eauto].
  destruct (trySend_open (ResultChan req)
              (Some {| Code := ""; rState := state; rError := "cancelled" |}) Hopen)
    as (ch & -> & Hch & _).
  simpl. eexists _, _. split; [done|].
  by apply (store_wellFormed r p req).
Qed.

Lemma Remove_wellFormed r state :
  wellFormed r -> exists r', Remove r state = Ok r' /\ wellFormed r'.
Proof.
  intros Hwf. unfold Remove.
  destruct (requests r !! state) as [p|] eqn:Hs; [|by eauto].
  destruct (proj1 Hwf state p Hs) as (req & Hp & Hst & Hflag & Hopen).
  unfold load. rewrite Hp. simpl. rewrite Hflag. unfold close. simpl.
  rewrite Hopen. simpl. eexists. split; [done|].
  by apply (unlink_store_wellFormed r state p req).
Qed.

Lemma cleanupEntry_wellFormed now state p r :
  wellFormed r -> requests r !! state = Some p ->
  exists r', cleanupEntry now state p r = Ok r' /\ wellFormed r'
    /\ forall s, s <> state -> requests r' !! s = requests r !! s.
Proof.
  intros Hwf Hs. unfold cleanupEntry.
  destruct (proj1 Hwf state p Hs) as (req & Hp & Hst & Hflag & Hopen).
  unfold load. rewrite Hp. simpl.
  destruct (After now (ExpiresAt req)); simpl; [|by eauto].
  destruct (isPending (Status req)); simpl.
  - destruct (trySend_open (ResultChan req)
                (Some {| Code := ""; rState := state; rError := "expired" |}) Hopen)
      as (ch & -> & Hch & _).
    simpl. eexists. split; [done|]. split.
    + apply unlink_wellFormed. by apply (store_wellFormed r p req).
    + intros s Hne. simpl. by rewrite lookup_delete_ne.
  - eexists. split; [done|]. split; [by apply unlink_wellFormed|].
    intros s Hne. simpl. by rewrite lookup_delete_ne.
Qed.

Lemma cleanup_wellFormed now order : forall r,
  wellFormed r -> NoDup order.*1 ->
  (forall s p, (s, p) ∈ order -> requests r !! s = Some p) ->
  exists r', cleanup now order r = Ok r' /\ wellFormed r'.
Proof.
  induction order as [|[state p] rest IH]; intros r Hwf Hnd Hin; simpl; [by eauto|].
  apply NoDup_cons in Hnd as [Hfresh Hnd].
  destruct (cleanupEntry_wellFormed now state p r Hwf) as (r1 & -> & Hwf1 & Hother).
  { apply Hin. by left. }
  simpl. apply IH; [done|done|].
  intros s p' Hsp. rewrite Hother.
  - apply Hin. by right.
  - intros ->. apply Hfresh. apply list_elem_of_fmap. by exists (state, p').
Qed.

Lemma visitOrder_entries r order :
  visitOrder r order ->
  NoDup order.*1 /\ forall s p, (s, p) ∈ order <-> requests r !! s = Some p.
Proof.
  unfold visitOrder. intros Hperm. split.
  - rewrite Hperm. apply NoDup_fst_map_to_list.
  - intros s p. rewrite Hperm. apply elem_of_map_to_list.
Qed.

Lemma apply_wellFormed r op :
  wellFormed r ->
  match op with
  | OpCleanup _ order => visitOrder r order
  | _ => True
  end ->
  exists r', apply r op = Ok r' /\ wellFormed r'.
Proof.
  intros Hwf Hop. destruct op; simpl.
  - eexists. split; [done|]. by apply Register_wellFormed.
  - destruct (Complete_wellFormed r state result Hwf) as (b & r' & -> & ?).
    simpl. by eauto.
  - destruct (Fail_wellFormed r state errMsg Hwf) as (r' & -> & ?).
    simpl. by eauto.
  - destruct (Cancel_wellFormed r state Hwf) as (b & r' & -> & ?).
    simpl. by eauto.
  - by apply Remove_wellFormed.
  - destruct (visitOrder_entries r order Hop) as [Hnd Hin].
    apply cleanup_wellFormed; [done|done|]. intros s p. apply Hin.
  - eexists. split; [done|]. by apply Create_wellFormed.
Qed.

Lemma run_wellFormed ops : forall r,
  wellFormed r -> orderly r ops -> exists r', run r ops = Ok r' /\ wellFormed r'.
Proof.
  induction ops as [|op rest IH]; intros r Hwf Hord; simpl; [by eauto|].
  destruct Hord as [Hop Hrest].
  destruct (apply_wellFormed r op Hwf Hop) as (r1 & Hr1 & Hwf1).
  rewrite Hr1 in Hrest |- *. simpl. by apply IH.
Qed.

(** X25: no run of calls on a new registry panics: whatever is registered,
    completed, failed, cancelled, removed and cleaned up, in whatever order,
    no send reaches a closed channel, no channel is closed twice and no
    pointer of the maps dangles; and the registry stays well-formed: a
    request registered under a state carries that state and has an open
    channel, a request indexed under an id carries that id. *)
Theorem registry_runs_never_panic (ops : list Op) :
  orderly NewRegistry ops ->
  exists r, run NewRegistry ops = Ok r /\ wellFormed r.
Proof. apply run_wellFormed, NewRegistry_wellFormed. Qed.

Lemma Complete_inv r state result r1 :
  Complete r state result = Ok (true, r1) ->
  exists p req ch,
    requests r !! state = Some p /\ heap r !! p = Some req
    /\ Status req = StatusPending
    /\ trySend (ResultChan req) result = Ok ch
    /\ r1 = store r p (withChan (withStatus req StatusCompleted) ch).
Proof.
  unfold Complete. destruct (requests r !! state) as [p|]; [|done].
  unfold load. destruct (heap r !! p) as [req|] eqn:Hp; [|done]. simpl.
  destruct (Status req) eqn:Hst; simpl; try done.
  destruct (trySend (ResultChan req) result) as [ch|] eqn:Hch; [|done].
  simpl. intros [= <-]. by exists p, req, ch.
Qed.

Lemma trySend_inv ch v ch' :
  trySend ch v = Ok ch' ->
  closed ch = false /\ closed ch' = false /\ waiting ch' <> []
  /\ (waiting ch = [] -> waiting ch' = [v]).
Proof.
  unfold trySend. destruct (closed ch) eqn:Hc; [done|].
  destruct (waiting ch) as [|x xs] eqn:Hw; simpl.
  - intros [= <-]. by repeat split.
  - destruct xs; simpl; intros [= <-]; repeat split; try done; by rewrite Hw.
Qed.

Lemma trySend_full ch v :
  closed ch = false -> waiting ch <> [] -> trySend ch v = Ok ch.
Proof.
  intros Hc Hw. unfold trySend. rewrite Hc.
  destruct (waiting ch) as [|x xs]; [done|]. by destruct xs.
Qed.

(** X26: a request is completed at most once, and a notice never pushes out
    a result that is waiting.  After a [Complete] that answered true
    something is waiting in the channel of the request, and whatever the
    receivers have since taken from it, a second [Complete] and a [Cancel]
    answer false and change nothing, and the status reads completed.  A
    [Fail] still answers true and turns the status to failed; its notice
    enters the channel when the channel is empty by then (the result has
    been received), and is dropped, the channel left as it is, while
    something is waiting in it. *)
Theorem Complete_once (r : Registry) (state : string)
    (result : option OAuthResult) (r1 : Registry) :
  Complete r state result = Ok (true, r1) ->
  exists p req1,
    Get r1 state = Some p /\ heap r1 !! p = Some req1
    /\ waiting (ResultChan req1) <> []
    /\ received r1 p (waiting (ResultChan req1)) = r1
    /\ forall left,
         let r1' := received r1 p left in
         (forall result', Complete r1' state result' = Ok (false, r1'))
         /\ Cancel r1' state = Ok (false, r1')
         /\ GetStatus r1' state = Ok (Some StatusCompleted)
         /\ forall errMsg, exists r2 req2,
              Fail r1' state errMsg = Ok (true, r2)
              /\ GetStatus r2 state = Ok (Some StatusFailed)
              /\ Get r2 state = Some p /\ heap r2 !! p = Some req2
              /\ Error req2 = errMsg
              /\ waiting (ResultChan req2)
                 = match left with
                   | [] => [Some {| Code := ""; rState := state; rError := errMsg |}]
                   | _ :: _ => left
                   end.
Proof.
  intros Hc. apply Complete_inv in Hc as (p & req & ch & Hs & Hp & Hst & Hch & ->).
  apply trySend_inv in Hch as (Hopen & Hopen' & Hfull & _).
  set (req1 := withChan (withStatus req StatusCompleted) ch).
  assert (p < length (heap r))%nat as Hlt by (by eapply lookup_lt_Some).
  assert (heap (store r p req1) !! p = Some req1) as Hp1
    by (simpl; by apply list_lookup_insert_eq).
  exists p, req1. split; [exact Hs|]. split; [exact Hp1|]. split; [exact Hfull|].
  split.
  { unfold received. rewrite Hp1. unfold store. simpl.
    rewrite list_insert_insert_eq. f_equal.
    rewrite <- (list_insert_id (heap r) p req) at 2 by done.
    rewrite list_insert_insert_eq. f_equal. by destruct ch. }
  intros left. cbv zeta. unfold received. rewrite Hp1.
  set (req1' := withChan req1 {| waiting := left; closed := closed (ResultChan req1) |}).
  set (r1' := store (store r p req1) p req1').
  assert (requests r1' !! state = Some p) as Hs1 by exact Hs.
  assert (heap r1' !! p = Some req1') as Hp1'.
  { simpl. apply list_lookup_insert_eq. by rewrite length_insert. }
  split; [intros result'; unfold Complete, load; by rewrite Hs1, Hp1'|].
  split; [unfold Cancel, load; by rewrite Hs1, Hp1'|].
  split; [unfold GetStatus, load; by rewrite Hs1, Hp1'|].
  intros errMsg. unfold Fail, load. rewrite Hs1, Hp1'. simpl Go.bind.
  unfold trySend. simpl closed. rewrite Hopen'. simpl waiting.
  assert (forall req2 : OAuthRequest,
            heap (store r1' p req2) !! p = Some req2) as Hp2.
  { intros req2. simpl. apply list_lookup_insert_eq. by rewrite !length_insert. }
  destruct left as [|x xs]; simpl Go.bind.
  - eexists _, _. split; [reflexivity|].
    unfold GetStatus, Get, load. simpl requests. rewrite Hs, Hp2. by repeat split.
  - replace (length (x :: xs) <? 1)%nat with false by (by destruct xs).
    simpl Go.bind. eexists _, _. split; [reflexivity|].
    unfold GetStatus, Get, load. simpl requests. rewrite Hs, Hp2. by repeat split.
Qed.

(** X27: the two indexes lead to one request.  After [Register] the state
    and the id both lead to the new request, which is pending and expires
    one TTL after [now]; a [Complete] through the state is seen through the
    id: the request found by id is completed and its channel holds the
    result. *)
Theorem Register_then_Complete (r : Registry) (state id provider mode : string)
    (now : Z) (result : option OAuthResult) :
  let r1 := (Register r (Some state) (Some id) provider mode now).2 in
  exists p req1 r2 req2,
    (Register r (Some state) (Some id) provider mode now).1 = Some p
    /\ Get r1 state = Some p /\ GetByID r1 id = Some p
    /\ heap r1 !! p = Some req1
    /\ Status req1 = StatusPending
    /\ ExpiresAt req1 = Provider.Add now (defaultTTL r)
    /\ Complete r1 state result = Ok (true, r2)
    /\ GetByID r2 id = Some p
    /\ heap r2 !! p = Some req2
    /\ Status req2 = StatusCompleted
    /\ waiting (ResultChan req2) = [result]
    /\ ID req2 = id /\ State req2 = state.
Proof.
  cbv zeta. unfold Register, insertNew, Get, GetByID, Complete, load. simpl.
  rewrite !lookup_insert_eq.
  assert (forall q : OAuthRequest, (heap r ++ [q]) !! length (heap r) = Some q) as Hnew.
  { intros q. rewrite lookup_app_r by done. by rewrite Nat.sub_diag. }
  rewrite Hnew. simpl.
  eexists _, _, _, _.
  split; [done|]. split; [done|]. split; [done|]. split; [apply Hnew|].
  split; [done|]. split; [done|]. split; [done|].
  split; [simpl; apply lookup_insert_eq|].
  split; [simpl; apply list_lookup_insert_eq; rewrite length_app; simpl; lia|].
  done.
Qed.

Lemma countAll_sum r order : forall stats,
  (forall s p, (s, p) ∈ order -> is_Some (heap r !! p)) ->
  exists stats', countAll r order stats = Ok stats'
    /\ total stats' = total stats
    /\ pending stats' + completed stats' + failed stats'
       = pending stats + completed stats + failed stats + Z.of_nat (length order).
Proof.
  induction order as [|[s p] rest IH]; intros stats Hin; simpl.
  - exists stats. repeat split; lia.
  - destruct (Hin s p) as [req Hreq]; [by left|].
    unfold load. rewrite Hreq. simpl.
    destruct (IH (count stats (Status req))) as (stats' & -> & Ht & Hsum).
    { intros s' p' Hsp. apply (Hin s' p'). by right. }
    exists stats'. split; [done|].
    destruct (Status req); simpl in *; split; lia.
Qed.

(** X28: on a well-formed registry [Stats] does not fail, its total is the
    number of registered requests, and the total is the sum of the pending,
    the completed and the failed ones (a failed, an expired and a cancelled
    request each count as failed). *)
Theorem Stats_total (r : Registry) (order : list (string * pointer)) :
  wellFormed r -> visitOrder r order ->
  exists stats,
    Stats r order = Ok stats
    /\ total stats = Z.of_nat (size (requests r))
    /\ total stats = pending stats + completed stats + failed stats.
Proof.
  intros Hwf Hord. unfold Stats.
  destruct (visitOrder_entries r order Hord) as [_ Hin].
  destruct (countAll_sum r order
              {| total := Z.of_nat (size (requests r)); pending := 0;
                 completed := 0; failed := 0 |}) as (stats & -> & Ht & Hsum).
  { intros s p Hsp. apply Hin in Hsp.
    destruct (proj1 Hwf s p Hsp) as (req & -> & _). by eexists. }
  exists stats. split; [done|]. split; [done|].
  simpl in *. rewrite Ht.
  unfold visitOrder in Hord. rewrite Hord, length_map_to_list in Hsum. lia.
Qed.

(** X29: [Remove] of a registered state unlinks the request and closes its
    channel: afterwards the state is not found, the request carries a closed
    channel and the closed flag, the other states are found as before, a
    [Complete] for the state answers false, and a second [Remove] changes
    nothing. *)
Theorem Remove_closes (r : Registry) (state : string) (p : pointer) :
  wellFormed r -> Get r state = Some p ->
  exists r' req',
    Remove r state = Ok r'
    /\ Get r' state = None
    /\ heap r' !! p = Some req'
    /\ closed (ResultChan req') = true /\ channelClosed req' = true
    /\ (forall s, s <> state -> Get r' s = Get r s)
    /\ (forall result, Complete r' state result = Ok (false, r'))
    /\ Remove r' state = Ok r'.
Proof.
  intros Hwf Hs. unfold Get in *. unfold Remove.
  destruct (proj1 Hwf state p Hs) as (req & Hp & Hst & Hflag & Hopen).
  unfold load. rewrite Hs, Hp. simpl. rewrite Hflag. unfold close. simpl.
  rewrite Hopen. simpl Go.bind.
  set (req' := withChan (withChannelClosed req true)
                 {| waiting := waiting (ResultChan req); closed := true |}).
  set (r' := store (unlink r state (ID req)) p req').
  assert (requests r' !! state = None) as Hnone by (simpl; apply lookup_delete_eq).
  exists r', req'. split; [done|]. split; [exact Hnone|].
  split; [simpl; apply list_lookup_insert_eq; by eapply lookup_lt_Some|].
  split; [done|]. split; [done|].
  split; [intros s Hne; simpl; by rewrite lookup_delete_ne|].
  split; [intros result; unfold Complete; by rewrite Hnone|].
  unfold Remove. by rewrite Hnone.
Qed.

Lemma cleanupEntry_cleaned now state p req r :
  wellFormed r -> requests r !! state = Some p -> heap r !! p = Some req ->
  exists r', cleanupEntry now state p r = Ok r' /\ wellFormed r'
    /\ (forall s, s <> state -> requests r' !! s = requests r !! s)
    /\ (forall p0, p0 <> p -> heap r' !! p0 = heap r !! p0)
    /\ cleaned now state p req r'.
Proof.
  intros Hwf Hs Hp. unfold cleanupEntry, cleaned.
  destruct (proj1 Hwf state p Hs) as (req0 & Hp0 & Hst & Hflag & Hopen).
  rewrite Hp in Hp0. injection Hp0 as <-.
  unfold load. rewrite Hp. simpl.
  destruct (After now (ExpiresAt req)); simpl; [|by eauto 10].
  destruct (isPending (Status req)); simpl.
  - destruct (trySend_open (ResultChan req)
                (Some {| Code := ""; rState := state; rError := "expired" |}) Hopen)
      as (ch & -> & Hch & Hsent & _).
    simpl. eexists. split; [done|]. split.
    { apply unlink_wellFormed. by apply (store_wellFormed r p req). }
    split; [intros s Hne; simpl; by rewrite lookup_delete_ne|].
    split; [intros p0 Hne; simpl; by rewrite list_lookup_insert_ne|].
    split; [simpl; apply lookup_delete_eq|].
    eexists. split; [simpl; apply list_lookup_insert_eq; by eapply lookup_lt_Some|].
    done.
  - eexists. split; [done|]. split; [by apply unlink_wellFormed|].
    split; [intros s Hne; simpl; by rewrite lookup_delete_ne|].
    split; [done|].
    split; [simpl; apply lookup_delete_eq|]. by exists req.
Qed.

Lemma cleanup_cleaned now order : forall r,
  wellFormed r -> NoDup order.*1 ->
  (forall s p, (s, p) ∈ order -> requests r !! s = Some p) ->
  exists r', cleanup now order r = Ok r' /\ wellFormed r'
    /\ (forall s, s ∉ order.*1 -> requests r' !! s = requests r !! s)
    /\ (forall p0, (forall s, (s, p0) ∉ order) -> heap r' !! p0 = heap r !! p0)
    /\ (forall s p req, (s, p) ∈ order -> heap r !! p = Some req ->
          cleaned now s p req r').
Proof.
  induction order as [|[state ph] rest IH]; intros r Hwf Hnd Hin; simpl.
  { exists r. split; [done|]. split; [done|]. split; [done|]. split; [done|].
    intros s p req Hsp. by apply elem_of_nil in Hsp. }
  apply NoDup_cons in Hnd as [Hfresh Hnd].
  assert (requests r !! state = Some ph) as Hhead by (apply Hin; by left).
  destruct (proj1 Hwf state ph Hhead) as (reqh & Hph & Hsth & _).
  destruct (cleanupEntry_cleaned now state ph reqh r Hwf Hhead Hph)
    as (r1 & -> & Hwf1 & Hreq1 & Hheap1 & Hcl1).
  assert (forall s p, (s, p) ∈ rest -> s <> state /\ p <> ph) as Hdistinct.
  { intros s p Hsp.
    assert (s <> state) as Hne.
    { intros ->. apply Hfresh. apply list_elem_of_fmap. by exists (state, p). }
    split; [done|]. intros ->.
    destruct (proj1 Hwf s ph) as (q & Hq & Hstq & _); [apply Hin; by right|].
    congruence. }
  simpl.
  destruct (IH r1 Hwf1 Hnd) as (r' & Hrun & Hwf' & HA & HC & HB).
  { intros s p Hsp. destruct (Hdistinct s p Hsp) as [Hne _].
    rewrite Hreq1 by done. apply Hin. by right. }
  exists r'. split; [done|]. split; [done|]. split; [|split].
  - intros s Hs. apply not_elem_of_cons in Hs as [Hne Hs].
    rewrite HA by done. by apply Hreq1.
  - intros p0 Hp0. rewrite HC.
    + apply Hheap1. intros ->. apply (Hp0 state). by left.
    + intros s Hsp. apply (Hp0 s). by right.
  - intros s p req Hsp Hreq. apply elem_of_cons in Hsp as [Heq|Hsp].
    + injection Heq as -> ->. rewrite Hph in Hreq. injection Hreq as <-.
      assert (requests r' !! state = requests r1 !! state) as Hkeep by (by apply HA).
      assert (heap r' !! ph = heap r1 !! ph) as Hkeep'.
      { apply HC. intros s Hsp. by destruct (Hdistinct s ph Hsp). }
      unfold cleaned in *. rewrite Hkeep, Hkeep'. exact Hcl1.
    + destruct (Hdistinct s p Hsp) as [Hne Hne'].
      apply (HB s p req Hsp). by rewrite Hheap1.
Qed.

(** X30: on a well-formed registry, in whatever order it visits the map,
    [cleanup] at [now] does not fail and leaves every registered request as
    follows: one whose expiry lies before [now] is no longer found, and if it
    was pending it is marked expired, with the error [expired] and, when its
    channel was empty, the expiry notice in the channel; one that has not
    expired is found as before and unchanged.  A state that was not
    registered is not registered afterwards, and the registry stays
    well-formed. *)
Theorem cleanup_removes_expired (r : Registry) (now : Z)
    (order : list (string * pointer)) :
  wellFormed r -> visitOrder r order ->
  exists r',
    cleanup now order r = Ok r'
    /\ wellFormed r'
    /\ (forall state p req,
          Get r state = Some p -> heap r !! p = Some req ->
          cleaned now state p req r')
    /\ (forall state, Get r state = None -> Get r' state = None).
Proof.
  intros Hwf Hord. destruct (visitOrder_entries r order Hord) as [Hnd Hin].
  destruct (cleanup_cleaned now order r Hwf Hnd) as (r' & Hrun & Hwf' & HA & _ & HB).
  { intros s p. apply Hin. }
  exists r'. split; [done|]. split; [done|]. split.
  - intros state p req Hs Hp. apply HB; [by apply Hin|done].
  - unfold Get. intros state Hnone. rewrite HA; [done|].
    intros Hs. apply list_elem_of_fmap in Hs as ([s p] & -> & Hsp).
    apply Hin in Hsp. simpl in Hnone. congruence.
Qed.

Section RegistryWitnesses.

Lemma sampleRegistry_wellFormed : wellFormed sampleRegistry.
Proof. apply Create_wellFormed, Create_wellFormed, NewRegistry_wellFormed. Qed.

Lemma visitOrder_of_list (r : Registry) (order : list (string * pointer)) :
  NoDup order.*1 -> requests r = list_to_map order -> visitOrder r order.
Proof.
  intros Hnd Heq. unfold visitOrder. rewrite Heq. symmetry.
  by apply map_to_list_to_map.
Qed.

Lemma sampleRegistry_order :
  visitOrder sampleRegistry [("s2", 1%nat); ("s1", 0%nat)].
Proof.
  apply visitOrder_of_list; [|reflexivity].
  apply (bool_decide_unpack (NoDup ["s2"; "s1"])). vm_compute. reflexivity.
Qed.

Lemma registry_runs_never_panic_witness :
  orderly NewRegistry sampleOps
  /\ exists r, run NewRegistry sampleOps = Ok r /\ wellFormed r.
Proof.
  assert (orderly NewRegistry sampleOps) as Hord.
  { unfold sampleOps.
    repeat (split; [try exact I|]; [..|
      match goal with
      | |- match ?a with Ok _ => _ | Panic => _ end =>
          let v := eval vm_compute in a in change a with v; cbv iota beta
      end]); try exact I.
    apply visitOrder_of_list; [|vm_compute; reflexivity].
    apply (bool_decide_unpack (NoDup ["s3"; "s1"; "s2"])). vm_compute. reflexivity. }
  split; [exact Hord|exact (registry_runs_never_panic sampleOps Hord)].
Defined.

Lemma Complete_once_witness :
  exists p req1,
    Get completedRegistry "s1" = Some p /\ heap completedRegistry !! p = Some req1
    /\ waiting (ResultChan req1) <> []
    /\ received completedRegistry p (waiting (ResultChan req1)) = completedRegistry
    /\ forall left,
         let r1' := received completedRegistry p left in
         (forall result', Complete r1' "s1" result' = Ok (false, r1'))
         /\ Cancel r1' "s1" = Ok (false, r1')
         /\ GetStatus r1' "s1" = Ok (Some StatusCompleted)
         /\ forall errMsg, exists r2 req2,
              Fail r1' "s1" errMsg = Ok (true, r2)
              /\ GetStatus r2 "s1" = Ok (Some StatusFailed)
              /\ Get r2 "s1" = Some p /\ heap r2 !! p = Some req2
              /\ Error req2 = errMsg
              /\ waiting (ResultChan req2)
                 = match left with
                   | [] => [Some {| Code := ""; rState := "s1"; rError := errMsg |}]
                   | _ :: _ => left
                   end.
Proof.
  apply (Complete_once sampleRegistry "s1" sampleResult). vm_compute. reflexivity.
Defined.

(** The two cases on the completed request: a [Fail] while the result is
    waiting leaves the result in the channel; a [Fail] after the result has
    been received puts its notice there. *)
Example fail_after_complete :
  let notice := Some {| Code := ""; rState := "s1"; rError := "denied" |} in
  (exists r2 req2,
     Fail completedRegistry "s1" "denied" = Ok (true, r2)
     /\ heap r2 !! 0%nat = Some req2
     /\ waiting (ResultChan req2) = [sampleResult])
  /\ (exists r2 req2,
        Fail (received completedRegistry 0%nat []) "s1" "denied" = Ok (true, r2)
        /\ heap r2 !! 0%nat = Some req2
        /\ waiting (ResultChan req2) = [notice]).
Proof.
  cbv zeta. split; eexists _, _; (split; [vm_compute; reflexivity|]);
    split; reflexivity.
Qed.

Lemma Stats_total_witness :
  exists stats,
    Stats sampleRegistry [("s2", 1%nat); ("s1", 0%nat)] = Ok stats
    /\ total stats = Z.of_nat (size (requests sampleRegistry))
    /\ total stats = pending stats + completed stats + failed stats.
Proof.
  exact (Stats_total sampleRegistry _ sampleRegistry_wellFormed sampleRegistry_order).
Defined.

Lemma Remove_closes_witness :
  exists r' req',
    Remove sampleRegistry "s2" = Ok r'
    /\ Get r' "s2" = None
    /\ heap r' !! 1%nat = Some req'
    /\ closed (ResultChan req') = true /\ channelClosed req' = true
    /\ (forall s, s <> "s2" -> Get r' s = Get sampleRegistry s)
    /\ (forall result, Complete r' "s2" result = Ok (false, r'))
    /\ Remove r' "s2" = Ok r'.
Proof.
  apply (Remove_closes sampleRegistry "s2" 1%nat sampleRegistry_wellFormed).
  reflexivity.
Defined.

Lemma cleanup_removes_expired_witness :
  exists r',
    cleanup 300000001500 [("s2", 1%nat); ("s1", 0%nat)] sampleRegistry = Ok r'
    /\ wellFormed r'
    /\ (forall state p req,
          Get sampleRegistry state = Some p -> heap sampleRegistry !! p = Some req ->
          cleaned 300000001500 state p req r')
    /\ (forall state, Get sampleRegistry state = None -> Get r' state = None).
Proof.
  exact (cleanup_removes_expired sampleRegistry 300000001500 _
           sampleRegistry_wellFormed sampleRegistry_order).
Defined.

End RegistryWitnesses.
End OAuthFacts.
